(** * Marcenaria Track: import pipeline and scan workflow

    A shallow embedding of the parts of [scr/App.tsx] that the specification
    talks about: the barcode sanitiser, the zod schemas of the CSV and PDF
    import, the CSV analysis loop with its aggregator, the staging/commit
    gate, the PDF duplicate check and the production scan.

    Modelling conventions.
    - A JavaScript string is a [string]: the sequence of its code units.
      The development covers code units below 256, so the byte-order mark
      U+FEFF and the white space characters outside Latin-1 do not occur.
    - React state is a record; a [setX] call is a field update that the next
      handler invocation observes.
    - An [async] handler is cut at its [await]: the part before it and the
      continuation after it are separate transitions.
    - The document store is a finite map from document id to document; a
      write batch is applied atomically or not at all. *)

From Stdlib Require Import String Ascii List ZArith NArith Bool Lia Permutation.
From stdpp Require Import gmap strings list.

Local Open Scope string_scope.
Local Open Scope list_scope.
Local Open Scope nat_scope.

(** ** JavaScript strings *)

Module Js.

Definition code (c : ascii) : N := N_of_ascii c.

Definition inRange (lo hi : N) (c : ascii) : bool :=
  (lo <=? code c)%N && (code c <=? hi)%N.

Definition isDigit (c : ascii) : bool := inRange 48 57 c.
Definition isUpper (c : ascii) : bool := inRange 65 90 c.
Definition isLower (c : ascii) : bool := inRange 97 122 c.

(** WhiteSpace and LineTerminator of ECMAScript, below 256: what [trim]
    strips and what [\s] matches. *)
Definition isWhiteSpace (c : ascii) : bool :=
  inRange 9 13 c || (code c =? 32)%N || (code c =? 160)%N.

Fixpoint trimStart (s : string) : string :=
  match s with
  | EmptyString => EmptyString
  | String c r => if isWhiteSpace c then trimStart r else s
  end.

Fixpoint trimEnd (s : string) : string :=
  match s with
  | EmptyString => EmptyString
  | String c r =>
      match trimEnd r with
      | EmptyString => if isWhiteSpace c then EmptyString else String c EmptyString
      | r' => String c r'
      end
  end.

(** [String.prototype.trim] *)
Definition trim (s : string) : string := trimEnd (trimStart s).

(** [s.replace(/[^...]/g, '')]: keep the characters of the class. *)
Fixpoint keep (p : ascii -> bool) (s : string) : string :=
  match s with
  | EmptyString => EmptyString
  | String c r => if p c then String c (keep p r) else keep p r
  end.

(** [s.substring(0, n)] *)
Fixpoint substring0 (n : nat) (s : string) : string :=
  match n, s with
  | O, _ => EmptyString
  | _, EmptyString => EmptyString
  | S n', String c r => String c (substring0 n' r)
  end.

(** Upper-casing of one code unit.  ASCII letters and the Latin-1 letters
    whose capital is again below 256; the sharp s becomes "SS".  The capitals
    of U+00B5 and U+00FF lie above 255 and are left as they are. *)
Definition upperChar (c : ascii) : string :=
  if isLower c then String (ascii_of_N (code c - 32)) EmptyString
  else if (code c =? 223)%N then "SS"
  else if inRange 224 254 c && negb (code c =? 247)%N
       then String (ascii_of_N (code c - 32)) EmptyString
  else String c EmptyString.

(** [String.prototype.toUpperCase] *)
Fixpoint toUpperCase (s : string) : string :=
  match s with
  | EmptyString => EmptyString
  | String c r => upperChar c +:+ toUpperCase r
  end.

(** [s.split(sep)] for a one-character separator: never the empty list. *)
Fixpoint split (sep : ascii) (s : string) : list string :=
  match s with
  | EmptyString => [EmptyString]
  | String c r =>
      if Ascii.eqb c sep then EmptyString :: split sep r
      else match split sep r with
           | [] => [String c EmptyString]
           | h :: t => String c h :: t
           end
  end.

(** [s.replace(a, b)] with a string pattern of one character: the first
    occurrence only. *)
Fixpoint replaceFirst (a b : ascii) (s : string) : string :=
  match s with
  | EmptyString => EmptyString
  | String c r => if Ascii.eqb c a then String b r else String c (replaceFirst a b r)
  end.

Fixpoint dropLastIf (p : ascii -> bool) (s : string) : string :=
  match s with
  | EmptyString => EmptyString
  | String c EmptyString => if p c then EmptyString else s
  | String c r => String c (dropLastIf p r)
  end.

Definition isQuote (c : ascii) : bool := (code c =? 34)%N.

(** [s.replace(/^"|"$/g, '')]: one double quote off the front, then one off
    the end of what is left. *)
Definition stripQuotes (s : string) : string :=
  dropLastIf isQuote
    (match s with
     | String c r => if isQuote c then r else s
     | EmptyString => EmptyString
     end).

(** [s.replace(/\s+/g, '_')]: every maximal run of white space becomes one
    underscore. *)
Fixpoint underscoreSpaces (inRun : bool) (s : string) : string :=
  match s with
  | EmptyString => EmptyString
  | String c r =>
      if isWhiteSpace c
      then (if inRun then underscoreSpaces true r
            else String "_" (underscoreSpaces true r))
      else String c (underscoreSpaces false r)
  end.

Fixpoint isSuffix (suf s : string) : bool :=
  String.eqb suf s ||
  match s with
  | EmptyString => false
  | String _ r => isSuffix suf r
  end.

(** [s.endsWith(suf)] *)
Definition endsWith (s suf : string) : bool := isSuffix suf s.

(** [s || d] on strings: the empty string is falsy. *)
Definition orElse (s d : string) : string :=
  match s with EmptyString => d | _ => s end.

Fixpoint allChars (p : ascii -> bool) (s : string) : bool :=
  match s with
  | EmptyString => true
  | String c r => p c && allChars p r
  end.

Fixpoint digitsValue (base : N) (acc : N) (s : string) : N :=
  match s with
  | EmptyString => acc
  | String c r =>
      let d := if isDigit c then (code c - 48)%N
               else if isUpper c then (code c - 55)%N
               else (code c - 87)%N in
      digitsValue base (acc * base + d)%N r
  end.

(** Decimal rendering of a length, as a template literal prints it. *)
Fixpoint natDigits (fuel : nat) (n : N) (acc : string) : string :=
  match fuel with
  | O => acc
  | S f =>
      let acc' := String (ascii_of_N (48 + n mod 10)) acc in
      if (n <? 10)%N then acc' else natDigits f (n / 10)%N acc'
  end.

Definition showNat (n : nat) : string := natDigits (S n) (N.of_nat n) EmptyString.

End Js.

(** ** [Number(s)] on strings *)

Module JsNumber.
Import Js.

(** The mathematical value a numeric string denotes, before it is rounded to
    a double: [Fin neg m e] is (-1)^neg * m * 10^e. *)
Inductive value : Type :=
  | NaN
  | Infinity (neg : bool)
  | Fin (neg : bool) (m : N) (e : Z).

Fixpoint splitAt (p : ascii -> bool) (s : string) : string * option string :=
  match s with
  | EmptyString => (EmptyString, None)
  | String c r =>
      if p c then (EmptyString, Some r)
      else let '(a, b) := splitAt p r in (String c a, b)
  end.

Definition isE (c : ascii) : bool := (code c =? 101)%N || (code c =? 69)%N.
Definition isDot (c : ascii) : bool := (code c =? 46)%N.
Definition isHexDigit (c : ascii) : bool :=
  isDigit c || inRange 65 70 c || inRange 97 102 c.

Definition nonEmpty (s : string) : bool :=
  match s with EmptyString => false | _ => true end.

(** ExponentPart without its [e]: an optional sign and decimal digits. *)
Definition exponent (s : string) : option Z :=
  let '(neg, ds) :=
    match s with
    | String "+" r => (false, r)
    | String "-" r => (true, r)
    | _ => (false, s)
    end in
  if nonEmpty ds && allChars isDigit ds
  then Some (let v := Z.of_N (digitsValue 10 0 ds) in if neg then (- v)%Z else v)
  else None.

(** StrUnsignedDecimalLiteral *)
Definition unsignedDecimal (neg : bool) (s : string) : value :=
  if String.eqb s "Infinity" then Infinity neg
  else
    let '(mant, ex) := splitAt isE s in
    let '(ip, fp) := splitAt isDot mant in
    let frac := match fp with Some f => f | None => EmptyString end in
    let shapeOk :=
      allChars isDigit ip && allChars isDigit frac &&
      match fp with
      | Some f => nonEmpty ip || nonEmpty f
      | None => nonEmpty ip
      end in
    let e10 := match ex with Some x => exponent x | None => Some 0%Z end in
    match shapeOk, e10 with
    | true, Some e =>
        Fin neg (digitsValue 10 0 (ip +:+ frac)) (e - Z.of_nat (String.length frac))
    | _, _ => NaN
    end.

Definition radixLiteral (p : ascii -> bool) (base : N) (ds : string) : value :=
  if nonEmpty ds && allChars p ds then Fin false (digitsValue base 0 ds) 0 else NaN.

(** StringToNumber: white space is stripped, the empty string is +0. *)
Definition StringToNumber (s : string) : value :=
  match trim s with
  | EmptyString => Fin false 0 0
  | String "0" (String "x" r) | String "0" (String "X" r) => radixLiteral isHexDigit 16 r
  | String "0" (String "o" r) | String "0" (String "O" r) => radixLiteral (inRange 48 55) 8 r
  | String "0" (String "b" r) | String "0" (String "B" r) => radixLiteral (inRange 48 49) 2 r
  | String "+" r => unsignedDecimal false r
  | String "-" r => unsignedDecimal true r
  | t => unsignedDecimal false t
  end.

Definition isNaN (v : value) : bool :=
  match v with NaN => true | _ => false end.

(** A finite value rounds to a zero double when it is at most 2^-1075, half
    the least subnormal; the tie goes to the even mantissa, zero. *)
Definition roundsToZero (m : N) (e : Z) : bool :=
  (m =? 0)%N ||
  ((e <? 0)%Z && (Z.of_N m * 2 ^ 1075 <=? 10 ^ (- e))%Z).

(** [v >= 0] on doubles: false on NaN, true on both zeros. *)
Definition geZero (v : value) : bool :=
  match v with
  | NaN => false
  | Infinity neg => negb neg
  | Fin neg m e => negb neg || roundsToZero m e
  end.

End JsNumber.

(** ** The schema combinators of zod

    The combinators follow zod's [types.ts] in its current releases
    (3.25.76; zod 4 behaves alike on these schemas): a parse returns OK,
    DIRTY (a value together with issues) or INVALID; a failed string check
    or refinement makes the result dirty and parsing goes on; a transform whose input did not parse cleanly ends the parse
    of that value as INVALID, so that a refinement chained after it does
    not run.  (Older releases of zod 3 handed a dirty input of a transform
    through unchanged, and the refinement after it still ran.) *)

Module Zod.

Inductive IssueCode : Type :=
  too_small | too_big | custom | invalid_union | invalid_type.

Record ZodIssue : Type := mkIssue {
  code : IssueCode;
  path : list string;
  message : string
}.

Inductive ParseReturn (A : Type) : Type :=
  | OK (v : A)
  | DIRTY (v : A) (issues : list ZodIssue)
  | INVALID (issues : list ZodIssue).
Arguments OK {A} v.
Arguments DIRTY {A} v issues.
Arguments INVALID {A} issues.

Definition issuesOf {A} (r : ParseReturn A) : list ZodIssue :=
  match r with OK _ => [] | DIRTY _ iss => iss | INVALID iss => iss end.

Definition valueOf {A} (r : ParseReturn A) : option A :=
  match r with OK v => Some v | DIRTY v _ => Some v | INVALID _ => None end.

(** A schema parses an input found at a path. *)
Definition Schema (I O : Type) : Type := list string -> I -> ParseReturn O.

Inductive StringCheck : Type :=
  | Min (n : nat) (msg : string)
  | Max (n : nat) (msg : string)
  | Length (n : nat) (msg : string).

Definition runCheck (p : list string) (x : string) (c : StringCheck) : list ZodIssue :=
  match c with
  | Min n msg => if Nat.ltb (String.length x) n then [mkIssue too_small p msg] else []
  | Max n msg => if Nat.ltb n (String.length x) then [mkIssue too_big p msg] else []
  | Length n msg =>
      if Nat.ltb n (String.length x) then [mkIssue too_big p msg]
      else if Nat.ltb (String.length x) n then [mkIssue too_small p msg]
      else []
  end.

(** [z.string()] with its checks, on an input that is a string: every check
    runs, each failure adds an issue. *)
Definition string_ (checks : list StringCheck) : Schema string string :=
  fun p x =>
    match flat_map (runCheck p x) checks with
    | [] => OK x
    | iss => DIRTY x iss
    end.

(** [.transform(f)]: [if (!isValid(base)) return INVALID], the issues of
    the base staying on the context. *)
Definition transform {I} (f : string -> string) (s : Schema I string) : Schema I string :=
  fun p x =>
    match s p x with
    | OK v => OK (f v)
    | r => INVALID (issuesOf r)
    end.

(** [.refine(check, {message})]: runs on the inner value unless the inner
    parse aborted. *)
Definition refine {I O} (check : O -> bool) (msg : string) (s : Schema I O) : Schema I O :=
  fun p x =>
    match s p x with
    | INVALID iss => INVALID iss
    | OK v => if check v then OK v else DIRTY v [mkIssue custom p msg]
    | DIRTY v iss => DIRTY v (iss ++ (if check v then [] else [mkIssue custom p msg]))
    end.

(** [a.or(b)]: the first clean option wins; failing that the first dirty one
    is returned with its own issues; failing that the union is invalid. *)
Definition or {I O} (a b : Schema I O) : Schema I O :=
  fun p x =>
    match a p x with
    | OK v => OK v
    | ra =>
        match b p x with
        | OK v => OK v
        | rb =>
            match ra, rb with
            | DIRTY v iss, _ => DIRTY v iss
            | _, DIRTY v iss => DIRTY v iss
            | _, _ => INVALID [mkIssue invalid_union p "Invalid input"]
            end
        end
    end.

(** [.optional()] and [.default(d)] differ from the inner schema only on
    [undefined]; every field parsed here is a string that is present. *)
Definition optional {I O} (s : Schema I O) : Schema I O := s.
Definition default {I O} (d : O) (s : Schema I O) : Schema I O := s.

(** Merging the fields of a [z.object]: every field is parsed, the issues
    pile up in shape order, one aborted field makes the object invalid. *)
Definition ap {A B} (rf : ParseReturn (A -> B)) (ra : ParseReturn A) : ParseReturn B :=
  match valueOf rf, valueOf ra with
  | Some f, Some a =>
      match issuesOf rf ++ issuesOf ra with
      | [] => OK (f a)
      | iss => DIRTY (f a) iss
      end
  | _, _ => INVALID (issuesOf rf ++ issuesOf ra)
  end.

Inductive SafeParse (A : Type) : Type :=
  | Success (data : A)
  | Failure (issues : list ZodIssue).
Arguments Success {A} data.
Arguments Failure {A} issues.

(** [schema.safeParse(x)] *)
Definition safeParse {A} (r : ParseReturn A) : SafeParse A :=
  match r with
  | OK v => Success v
  | DIRTY _ iss => Failure iss
  | INVALID iss => Failure iss
  end.

End Zod.

(** ** Import errors *)

Inductive ImportErrorType : Type :=
  | CSV_PARSE_ERROR
  | MISSING_REQUIRED_COLUMN
  | INVALID_BARCODE_FORMAT
  | DUPLICATE_BARCODE_IN_FILE
  | INVALID_MEASUREMENTS
  | PDF_CORRUPTED
  | PDF_PASSWORD_PROTECTED
  | PDF_LAYOUT_UNEXPECTED
  | MISSING_CLIENT_INFO
  | MISSING_PROJECT_INFO
  | GENERIC_SYSTEM_ERROR
  | VALIDATION_ERROR.

Inductive ImportErrorSeverity : Type := WARNING | ERROR | CRITICAL.

#[global] Instance ImportErrorType_eq_dec : EqDecision ImportErrorType.
Proof. solve_decision. Defined.
#[global] Instance ImportErrorSeverity_eq_dec : EqDecision ImportErrorSeverity.
Proof. solve_decision. Defined.

Module ImportError.
Record t : Type := mk {
  type : ImportErrorType;
  message : string;
  suggestion : string;
  lineNumber : option nat;
  pageNumber : option nat;
  field : option string;
  value : option string;
  severity : ImportErrorSeverity
}.
End ImportError.

(** ** The zod schemas of the import *)

Module CsvRow.
Record t : Type := mk {
  clientCode : string;
  clientName : string;
  projectName : string;
  barcode : string;
  pieceModule : string;
  pieceName : string;
  comprimento : string;
  largura : string;
  espessura : string;
  material : string;
  cor : string
}.
End CsvRow.

Module PdfItem.
Record t : Type := mk {
  cliente : string;
  projeto : string;
  modulo : string;
  peca : string;
  codItem : string;
  medidas : string;
  obs : string
}.
End PdfItem.

Section Schemas.
Import Zod.

Definition BarcodeSchema : Schema string string :=
  refine (fun val => Nat.leb 3 (String.length val))
         "Código de barras deve ter pelo menos 3 caracteres"
    (transform Js.trim
       (string_ [Min 1 "Código de barras é obrigatório"])).

Definition dimensionOk (val : string) : bool :=
  String.eqb val "" ||
  (negb (JsNumber.isNaN (JsNumber.StringToNumber val)) &&
   JsNumber.geZero (JsNumber.StringToNumber val)).

Definition DimensionValueSchema : Schema string string :=
  or (refine dimensionOk "Deve ser um número positivo"
        (transform (fun val => Js.replaceFirst "," "." (Js.trim val)) (string_ [])))
     (string_ [Length 0 "String must contain exactly 0 character(s)"]).

Definition ClientNameSchema : Schema string string :=
  optional
    (transform Js.trim
       (string_ [Min 0 "String must contain at least 0 character(s)";
                 Max 100 "Nome do cliente muito longo"])).

Definition CsvRowSchema (raw : CsvRow.t) : ParseReturn CsvRow.t :=
  let f (key : string) (s : Schema string string) (get : CsvRow.t -> string) :=
    s [key] (get raw) in
  ap (ap (ap (ap (ap (ap (ap (ap (ap (ap (ap (OK CsvRow.mk)
    (f "clientCode" (string_ [Min 1 "Código do cliente ausente"]) CsvRow.clientCode))
    (f "clientName" (transform Js.trim (string_ [Min 1 "Nome do cliente ausente"]))
       CsvRow.clientName))
    (f "projectName" (string_ [Min 1 "Nome do projeto ausente"]) CsvRow.projectName))
    (f "barcode" BarcodeSchema CsvRow.barcode))
    (f "pieceModule" (optional (string_ [])) CsvRow.pieceModule))
    (f "pieceName" (optional (string_ [])) CsvRow.pieceName))
    (f "comprimento" DimensionValueSchema CsvRow.comprimento))
    (f "largura" DimensionValueSchema CsvRow.largura))
    (f "espessura" DimensionValueSchema CsvRow.espessura))
    (f "material" (optional (string_ [])) CsvRow.material))
    (f "cor" (optional (string_ [])) CsvRow.cor).

Definition PdfItemSchema (raw : PdfItem.t) : ParseReturn PdfItem.t :=
  let f (key : string) (s : Schema string string) (get : PdfItem.t -> string) :=
    s [key] (get raw) in
  ap (ap (ap (ap (ap (ap (ap (OK PdfItem.mk)
    (f "cliente" ClientNameSchema PdfItem.cliente))
    (f "projeto" (default "" (string_ [])) PdfItem.projeto))
    (f "modulo" (default "" (string_ [])) PdfItem.modulo))
    (f "peca" (default "" (string_ [])) PdfItem.peca))
    (f "codItem" BarcodeSchema PdfItem.codItem))
    (f "medidas" (default "" (string_ [])) PdfItem.medidas))
    (f "obs" (default "" (string_ [])) PdfItem.obs).

End Schemas.

Inductive ImportContext : Type := CSV | PDF.

Definition includes (p : list string) (k : string) : bool :=
  existsb (String.eqb k) p.

Fixpoint join (sep : string) (l : list string) : string :=
  match l with
  | [] => ""
  | [x] => x
  | x :: r => x +:+ sep +:+ join sep r
  end.

Definition mapZodErrorToImportError
    (issue : Zod.ZodIssue) (rowIndex : nat) (context : ImportContext) : ImportError.t :=
  let p := Zod.path issue in
  let type0 := VALIDATION_ERROR in
  let severity0 := ERROR in
  let type1 := if includes p "barcode" then INVALID_BARCODE_FORMAT else type0 in
  let '(type2, severity2) :=
    if includes p "comprimento" || includes p "largura"
    then (INVALID_MEASUREMENTS, WARNING) else (type1, severity0) in
  let type3 :=
    if includes p "clientName" || includes p "cliente"
    then MISSING_CLIENT_INFO else type2 in
  {| ImportError.type := type3;
     ImportError.message := Zod.message issue;
     ImportError.suggestion := "Verifique o campo '" +:+ join "." p +:+ "'";
     ImportError.severity := severity2;
     ImportError.lineNumber := match context with CSV => Some rowIndex | PDF => None end;
     ImportError.pageNumber := match context with CSV => None | PDF => Some rowIndex end;
     ImportError.field := Some (match p with k :: _ => k | [] => "undefined" end);
     ImportError.value :=
       Some (match Zod.code issue with
             | Zod.invalid_type => "Tipo Inválido"
             | _ => "Formato Inválido"
             end) |}.

(** ** Persisted documents *)

Inductive PieceStatus : Type := PENDENTE | PRODUZIDA.

#[global] Instance PieceStatus_eq_dec : EqDecision PieceStatus.
Proof. solve_decision. Defined.

Module ScanEntry.
Record t : Type := mk { type : string; at_ : string; user : string }.
End ScanEntry.

#[global] Instance ScanEntry_eq_dec : EqDecision ScanEntry.t.
Proof. solve_decision. Defined.

(** A piece document.  An absent [producedAt] or [producedBy] is [None]; an
    absent [scanHistory] is the empty list. *)
Module Piece.
Record t : Type := mk {
  id : string;
  workspaceId : string;
  nome : string;
  modulo : string;
  projeto : string;
  cliente : string;
  medidas : string;
  material : string;
  cor : string;
  status : PieceStatus;
  producedAt : option string;
  producedBy : option string;
  scanHistory : list ScanEntry.t
}.
End Piece.

Module Project.
Record t : Type := mk {
  id : string;
  workspaceId : string;
  project_name : string;
  client_name : string;
  client_code : string;
  status : string;
  created_at : string;
  module_dimensions : list (string * string);
  warehouse_id : option string;
  archivedAt : option string
}.
End Project.

(** ** The CSV analysis ([handleAnalyze]) *)

(** A [Set] of strings in insertion order. *)
Definition setAdd (x : string) (s : list string) : list string :=
  if existsb (String.eqb x) s then s else s ++ [x].

Module ClientInfo.
Record t : Type := mk {
  clientCode : string;
  clientName : string;
  projects : list string
}.
End ClientInfo.

Module ProjectStat.
Record t : Type := mk { name : string; pieceCount : nat; moduleCount : nat }.
End ProjectStat.

Module ClientPreview.
Record t : Type := mk {
  clientCode : string;
  clientName : string;
  totalProjects : nat;
  totalModules : nat;
  totalPieces : nat;
  projects : list ProjectStat.t;
  isValid : bool
}.
End ClientPreview.

Module Stats.
Record t : Type := mk { pieceCount : nat; modules : list string }.
End Stats.

Definition LF : ascii := ascii_of_N 10.

(** The default piece name, with its cedilla as one code unit. *)
Definition peca_prefix_bare : string :=
  String "P" (String "e" (String (ascii_of_N 231) (String "a" EmptyString))).
Definition peca_prefix : string := peca_prefix_bare +:+ " ".

Section Analyze.

Variable ws : string.

(** The piece pushed on [tempPecas] for a validated row. *)
Definition mkPiece (validData : CsvRow.t) : Piece.t :=
  {| Piece.id := ws +:+ "_" +:+ CsvRow.barcode validData;
     Piece.workspaceId := ws;
     Piece.nome := Js.orElse (CsvRow.pieceName validData)
                     (peca_prefix +:+ CsvRow.barcode validData);
     Piece.modulo := Js.orElse (CsvRow.pieceModule validData) "";
     Piece.projeto := CsvRow.projectName validData;
     Piece.cliente := CsvRow.clientName validData;
     Piece.medidas :=
       Js.orElse (CsvRow.comprimento validData) "0" +:+ "x" +:+
       Js.orElse (CsvRow.largura validData) "0" +:+ "x" +:+
       Js.orElse (CsvRow.espessura validData) "0";
     Piece.material := Js.orElse (CsvRow.material validData) "";
     Piece.cor := Js.orElse (CsvRow.cor validData) "";
     Piece.status := PENDENTE;
     Piece.producedAt := None;
     Piece.producedBy := None;
     Piece.scanHistory := [] |}.

(** [line.split(',').map(col => col.trim().replace(/^"|"$/g, ''))] *)
Definition splitCols (line : string) : list string :=
  map (fun col => Js.stripQuotes (Js.trim col)) (Js.split "," line).

(** The fixed column indexes of the Haixun layout. *)
Definition rawDataOf (cols : list string) : CsvRow.t :=
  let col i := nth i cols "" in
  {| CsvRow.clientCode := col 16;
     CsvRow.clientName := col 13;
     CsvRow.projectName := col 8;
     CsvRow.barcode := col 11;
     CsvRow.pieceModule := col 2;
     CsvRow.pieceName := col 3;
     CsvRow.comprimento := col 4;
     CsvRow.largura := col 5;
     CsvRow.espessura := col 6;
     CsvRow.material := col 9;
     CsvRow.cor := col 10 |}.

Definition missingColumnError (i : nat) (line : string) (cols : list string) : ImportError.t :=
  {| ImportError.type := MISSING_REQUIRED_COLUMN;
     ImportError.message :=
       "Linha com colunas insuficientes (" +:+ Js.showNat (length cols) +:+ ")";
     ImportError.suggestion := "A linha deve ter pelo menos 17 colunas";
     ImportError.lineNumber := Some (i + 1);
     ImportError.pageNumber := None;
     ImportError.field := None;
     ImportError.value := Some (Js.substring0 30 line +:+ "...");
     ImportError.severity := WARNING |}.

(** What one turn of the row loop does with line [i] of the file. *)
Inductive RowOutcome : Type :=
  | Blank
  | Rejected (errors : list ImportError.t)
  | Accepted (validData : CsvRow.t).

(** The loop body, over any field validator. *)
Definition processRowWith
    (validate : CsvRow.t -> Zod.SafeParse CsvRow.t) (i : nat) (rawLine : string)
    : RowOutcome :=
  let line := Js.trim rawLine in
  match line with
  | EmptyString => Blank
  | _ =>
      let cols := splitCols line in
      if length cols <? 17 then Rejected [missingColumnError i line cols]
      else
        match validate (rawDataOf cols) with
        | Zod.Failure issues =>
            Rejected (map (fun issue => mapZodErrorToImportError issue (i + 1) CSV) issues)
        | Zod.Success validData => Accepted validData
        end
  end.

Definition validateCsvRow (rawData : CsvRow.t) : Zod.SafeParse CsvRow.t :=
  Zod.safeParse (CsvRowSchema rawData).

Definition processRow : nat -> string -> RowOutcome := processRowWith validateCsvRow.

Definition hasClient (clientMap : list ClientInfo.t) (code : string) : bool :=
  existsb (fun c => String.eqb (ClientInfo.clientCode c) code) clientMap.

(** [clientMap.set] of a new code followed by [projects.add] on its entry. *)
Definition registerClient (clientMap : list ClientInfo.t) (validData : CsvRow.t)
    : list ClientInfo.t :=
  let code := CsvRow.clientCode validData in
  let clientMap1 :=
    if hasClient clientMap code then clientMap
    else clientMap ++ [ClientInfo.mk code (CsvRow.clientName validData) []] in
  map (fun c =>
         if String.eqb (ClientInfo.clientCode c) code
         then ClientInfo.mk (ClientInfo.clientCode c) (ClientInfo.clientName c)
                (setAdd (CsvRow.projectName validData) (ClientInfo.projects c))
         else c)
      clientMap1.

Record Acc : Type := mkAcc {
  errorsList : list ImportError.t;
  clientMap : list ClientInfo.t;
  tempPecas : list Piece.t;
  linhasProcessadas : nat
}.

Definition emptyAcc : Acc := mkAcc [] [] [] 0.

Definition rowStep (acc : Acc) (i : nat) (rawLine : string) : Acc :=
  match processRow i rawLine with
  | Blank => acc
  | Rejected errs =>
      mkAcc (errorsList acc ++ errs) (clientMap acc) (tempPecas acc) (linhasProcessadas acc)
  | Accepted validData =>
      mkAcc (errorsList acc)
            (registerClient (clientMap acc) validData)
            (tempPecas acc ++ [mkPiece validData])
            (S (linhasProcessadas acc))
  end.

(** [for (let i = ...; i < lines1.length; i++)] over the lines from [i] on. *)
Fixpoint rowLoop (i : nat) (lines : list string) (acc : Acc) : Acc :=
  match lines with
  | [] => acc
  | rawLine :: rest => rowLoop (S i) rest (rowStep acc i rawLine)
  end.

(** *** The aggregator *)

Definition hasKey (stats : list (string * Stats.t)) (k : string) : bool :=
  existsb (fun e => String.eqb (fst e) k) stats.

(** One turn of the [forEach] that fills [projectStats]. *)
Definition bump (projectStats : list (string * Stats.t)) (p : Piece.t)
    : list (string * Stats.t) :=
  let k := Piece.projeto p in
  let stats1 :=
    if hasKey projectStats k then projectStats
    else projectStats ++ [(k, Stats.mk 0 [])] in
  map (fun e =>
         if String.eqb (fst e) k
         then (fst e, Stats.mk (S (Stats.pieceCount (snd e)))
                               (setAdd (Piece.modulo p) (Stats.modules (snd e))))
         else e)
      stats1.

Definition sumBy {A} (f : A -> nat) (l : list A) : nat :=
  fold_left (fun sum x => sum + f x) l 0.

Definition previewOf (pecas : list Piece.t) (clientInfo : ClientInfo.t) : ClientPreview.t :=
  let projectStats :=
    fold_left bump
      (List.filter (fun p => String.eqb (Piece.cliente p) (ClientInfo.clientName clientInfo))
                   pecas)
      [] in
  let projectList :=
    map (fun e => ProjectStat.mk (fst e) (Stats.pieceCount (snd e))
                                 (length (Stats.modules (snd e))))
        projectStats in
  {| ClientPreview.clientCode := ClientInfo.clientCode clientInfo;
     ClientPreview.clientName := ClientInfo.clientName clientInfo;
     ClientPreview.totalProjects := length projectList;
     ClientPreview.totalModules := sumBy ProjectStat.moduleCount projectList;
     ClientPreview.totalPieces := sumBy ProjectStat.pieceCount projectList;
     ClientPreview.projects := projectList;
     ClientPreview.isValid := true |}.

Definition previewList (cm : list ClientInfo.t) (pecas : list Piece.t)
    : list ClientPreview.t :=
  map (previewOf pecas) cm.

(** The aggregation of a list of validated records: the client map and the
    pieces as the row loop builds them, then the preview. *)
Definition aggregate (records : list CsvRow.t) : list ClientPreview.t :=
  previewList (fold_left registerClient records []) (map mkPiece records).

(** Reading the preview: the entry of a client code, and in it the counts of
    a project. *)
Definition findClient (preview : list ClientPreview.t) (code : string)
    : option ClientPreview.t :=
  List.find (fun c => String.eqb (ClientPreview.clientCode c) code) preview.

Definition countsOf (preview : list ClientPreview.t) (code project : string)
    : option (nat * nat) :=
  match findClient preview code with
  | None => None
  | Some c =>
      match List.find (fun s => String.eqb (ProjectStat.name s) project)
                      (ClientPreview.projects c) with
      | None => None
      | Some s => Some (ProjectStat.pieceCount s, ProjectStat.moduleCount s)
      end
  end.

End Analyze.

(** ** The document store and write batches *)

Record Store : Type := mkStore {
  pieces : gmap string Piece.t;
  projects : gmap string Project.t
}.

(** [batch.set(ref, data)] and [batch.set(ref, data, {merge: true})], by
    collection. *)
Inductive Write : Type :=
  | SetProject (id : string) (data : Project.t)
  | MergeProject (id : string) (data : Project.t)
  | SetPiece (id : string) (data : Piece.t).

(** A merge keeps the fields the data does not mention: the warehouse link,
    the archive date and the entries of the (empty) dimension map. *)
Definition mergeProject (old : option Project.t) (data : Project.t) : Project.t :=
  match old with
  | None => data
  | Some o =>
      {| Project.id := Project.id data;
         Project.workspaceId := Project.workspaceId data;
         Project.project_name := Project.project_name data;
         Project.client_name := Project.client_name data;
         Project.client_code := Project.client_code data;
         Project.status := Project.status data;
         Project.created_at := Project.created_at data;
         Project.module_dimensions :=
           Project.module_dimensions o ++ Project.module_dimensions data;
         Project.warehouse_id := Project.warehouse_id o;
         Project.archivedAt := Project.archivedAt o |}
  end.

Definition applyWrite (s : Store) (w : Write) : Store :=
  match w with
  | SetProject id data => mkStore (pieces s) (<[id := data]> (projects s))
  | MergeProject id data =>
      mkStore (pieces s) (<[id := mergeProject (projects s !! id) data]> (projects s))
  | SetPiece id data => mkStore (<[id := data]> (pieces s)) (projects s)
  end.

Definition applyBatch (s : Store) (batch : list Write) : Store :=
  fold_left applyWrite batch s.

(** [await batch.commit()]: all writes or none. *)
Definition commit (s : Store) (batch : list Write) (ok : bool) : Store :=
  if ok then applyBatch s batch else s.

(** ** The staging and commit gate *)

Inductive StatusType : Type := success | error.

Module ImportStatus.
Record t : Type := mk { type : option StatusType; message : string }.
End ImportStatus.

Module File.
Record t : Type := mk { size : nat; content : option string }.
End File.

Module Pending.
Record t : Type := mk {
  tempPecas : list Piece.t;
  clientProjects : list ClientInfo.t
}.
End Pending.

(** The import state of the admin view. *)
Record State : Type := mkState {
  pecasFile : option File.t;
  loading : bool;
  importStatus : ImportStatus.t;
  importErrors : list ImportError.t;
  previewData : option (list ClientPreview.t);
  pendingData : option Pending.t;
  isProcessingImport : bool
}.

Definition MAX_FILE_SIZE : nat := 10 * 1024 * 1024.
Definition MIN_ROWS_REQUIRED : nat := 2.

(** No code unit below 256 is a byte-order mark. *)
Definition stripBOM (line : string) : string := line.

Definition detectAndFixEncoding (content : string) : string :=
  join (String LF EmptyString) (map stripBOM (Js.split LF content)).

Module UniqueProj.
Record t : Type := mk { client : string; project : string; clientCode : string }.
End UniqueProj.

Section Gate.

Variable ws : string.

Definition countNonWarnings (errs : list ImportError.t) : nat :=
  length (List.filter (fun e => if decide (ImportError.severity e = WARNING) then false else true)
                      errs).

(** [handleAnalyze] up to [await readFileAsText]: the state it leaves and
    the file whose reading is now in flight, if any. *)
Definition handleAnalyze_begin (st : State) : State * option File.t :=
  if isProcessingImport st then (st, None)
  else
    let cleared (status : ImportStatus.t) (busy : bool) :=
      mkState (pecasFile st) (if busy then true else loading st) status [] None None busy in
    match pecasFile st with
    | None =>
        (cleared (ImportStatus.mk (Some error)
                    "Erro: Selecione a planilha de etiquetas (peças).") false, None)
    | Some file =>
        if MAX_FILE_SIZE <? File.size file
        then (cleared (ImportStatus.mk (Some error)
                         "Erro: Arquivo muito grande. Máximo 10MB.") false, None)
        else (cleared (ImportStatus.mk None "") true, Some file)
    end.

(** The rest of [handleAnalyze], run when the read settles; [finally] ends
    the run. *)
Definition handleAnalyze_end (st : State) (file : File.t) : State :=
  let finish (status : ImportStatus.t) (errs : list ImportError.t)
             (preview : option (list ClientPreview.t)) (pending : option Pending.t) :=
    mkState (pecasFile st) false status errs preview pending false in
  match File.content file with
  | None =>
      finish (ImportStatus.mk (Some error) "Erro crítico na importação.")
        [ImportError.mk GENERIC_SYSTEM_ERROR "Erro desconhecido ao processar arquivo"
           "Tente salvar o arquivo novamente como CSV UTF-8" None None None None CRITICAL]
        (previewData st) (pendingData st)
  | Some labelContentRaw =>
      let lines1 := Js.split LF (detectAndFixEncoding labelContentRaw) in
      if length lines1 <? MIN_ROWS_REQUIRED
      then finish (ImportStatus.mk (Some error) "Arquivo inválido.")
             [ImportError.mk CSV_PARSE_ERROR "Arquivo vazio ou com linhas insuficientes"
                "Verifique se o arquivo CSV contém dados" None None None None CRITICAL]
             (previewData st) (pendingData st)
      else
        let acc := rowLoop ws 1 (tl lines1) emptyAcc in
        match tempPecas acc with
        | [] =>
            finish (ImportStatus.mk (Some error) "Erro: Nenhuma peça válida encontrada.")
              (errorsList acc) (previewData st) (pendingData st)
        | _ =>
            let totalErrors := countNonWarnings (errorsList acc) in
            finish
              (if 0 <? totalErrors
               then ImportStatus.mk (Some error)
                      ("Análise com " +:+ Js.showNat totalErrors +:+ " erros e " +:+
                       Js.showNat (linhasProcessadas acc) +:+ " linhas válidas.")
               else ImportStatus.mk (Some success)
                      ("Análise concluída: " +:+ Js.showNat (length (tempPecas acc)) +:+
                       " peças."))
              (errorsList acc)
              (Some (previewList (clientMap acc) (tempPecas acc)))
              (Some (Pending.mk (tempPecas acc) (clientMap acc)))
        end
  end.

Definition hasProj (m : list (string * UniqueProj.t)) (key : string) : bool :=
  existsb (fun e => String.eqb (fst e) key) m.

Definition uniqueProjsOf (pending : Pending.t) : list (string * UniqueProj.t) :=
  fold_left
    (fun m p =>
       let key := Piece.cliente p +:+ "_" +:+ Piece.projeto p in
       if hasProj m key then m
       else m ++ [(key,
              UniqueProj.mk (Piece.cliente p) (Piece.projeto p)
                (match List.find (fun c => String.eqb (ClientInfo.clientName c) (Piece.cliente p))
                                 (Pending.clientProjects pending) with
                 | Some c => Js.orElse (ClientInfo.clientCode c) ""
                 | None => ""
                 end))])
    (Pending.tempPecas pending) [].

(** The write batch of [handleConfirm]: one project per client and project
    name, then every staged piece under its own id. *)
Definition confirmBatch (pending : Pending.t) (now : string) : list Write :=
  map (fun e =>
         let projId := Js.toUpperCase (Js.underscoreSpaces false (fst e)) in
         SetProject projId
           (Project.mk projId ws (UniqueProj.project (snd e)) (UniqueProj.client (snd e))
              (UniqueProj.clientCode (snd e)) "PRODUCAO" now [] None None))
      (uniqueProjsOf pending)
  ++ map (fun p => SetPiece (Piece.id p) p) (Pending.tempPecas pending).

(** [handleConfirm] up to [await batch.commit()]. *)
Definition handleConfirm_begin (st : State) (now : string) : State * option (list Write) :=
  match pendingData st with
  | None => (st, None)
  | Some pending =>
      if isProcessingImport st then (st, None)
      else (mkState (pecasFile st) true (importStatus st) (importErrors st)
              (previewData st) (pendingData st) true,
            Some (confirmBatch pending now))
  end.

(** The rest of [handleConfirm], run when the commit settles. *)
Definition handleConfirm_end (st : State) (ok : bool) : State :=
  if ok
  then mkState None false
         (ImportStatus.mk (Some success) "Importação realizada com sucesso!")
         [] None None false
  else mkState (pecasFile st) false
         (ImportStatus.mk (Some error) "Erro ao gravar dados.")
         (importErrors st) (previewData st) (pendingData st) false.

(** One whole confirm run against the store. *)
Definition handleConfirm (s : Store) (st : State) (now : string) (ok : bool)
    : Store * State :=
  match handleConfirm_begin st now with
  | (st1, Some batch) => (commit s batch ok, handleConfirm_end st1 ok)
  | (st1, None) => (s, st1)
  end.

Definition handleCancel (st : State) : State :=
  mkState None (loading st) (ImportStatus.mk None "") [] None None (isProcessingImport st).

(** What the operator can trigger on the import panel. *)
Inductive Trigger : Type :=
  | Analyze
  | Confirm (now : string).

Definition trigger (st : State) (t : Trigger) : State :=
  match t with
  | Analyze => fst (handleAnalyze_begin st)
  | Confirm now => fst (handleConfirm_begin st now)
  end.

(** Whether a trigger starts work (a file read or a batch commit). *)
Definition startsRun (st : State) (t : Trigger) : bool :=
  match t with
  | Analyze => match snd (handleAnalyze_begin st) with Some _ => true | None => false end
  | Confirm now => match snd (handleConfirm_begin st now) with Some _ => true | None => false end
  end.

End Gate.

(** ** The production scan ([handleScan]) *)

(** The class [[a-zA-Z0-9\-_]] of [sanitizeBarcode]. *)
Definition barcodeChar (c : ascii) : bool :=
  Js.isLower c || Js.isUpper c || Js.isDigit c ||
  (Js.code c =? 45)%N || (Js.code c =? 95)%N.

Definition sanitizeBarcode (barcode : string) : string :=
  Js.toUpperCase (Js.trim (Js.substring0 100 (Js.keep barcodeChar barcode))).

(** The id under which pieces are stored and looked up. *)
Definition pieceId (ws barcode : string) : string := ws +:+ "_" +:+ barcode.

Module Msg.
Record t : Type := mk { type : StatusType; text : string; data : option Piece.t }.
End Msg.

Record ScanUi : Type := mkScanUi {
  code : string;
  lastMsg : option Msg.t;
  isScanning : bool
}.

(** What the outside world contributes to one scan: who is logged in, the
    two clock readings, and whether the read and the update go through. *)
Record ScanEnv : Type := mkScanEnv {
  login_id : string;
  producedNow : string;
  historyNow : string;
  getDocOk : bool;
  updateDocOk : bool
}.

(** [arrayUnion(x)]: append unless already an element. *)
Definition arrayUnion (x : ScanEntry.t) (l : list ScanEntry.t) : list ScanEntry.t :=
  if decide (x ∈ l) then l else l ++ [x].

(** The fields [updateDoc] overwrites on a scanned piece. *)
Definition markProduced (env : ScanEnv) (piece : Piece.t) : Piece.t :=
  {| Piece.id := Piece.id piece;
     Piece.workspaceId := Piece.workspaceId piece;
     Piece.nome := Piece.nome piece;
     Piece.modulo := Piece.modulo piece;
     Piece.projeto := Piece.projeto piece;
     Piece.cliente := Piece.cliente piece;
     Piece.medidas := Piece.medidas piece;
     Piece.material := Piece.material piece;
     Piece.cor := Piece.cor piece;
     Piece.status := PRODUZIDA;
     Piece.producedAt := Some (producedNow env);
     Piece.producedBy := Some (login_id env);
     Piece.scanHistory :=
       arrayUnion (ScanEntry.mk "SCAN" (historyNow env) (login_id env))
                  (Piece.scanHistory piece) |}.

Section Scan.

Variable ws : string.

Definition scanError (ui : ScanUi) (text : string) (data : option Piece.t)
    (running : bool) : ScanUi :=
  mkScanUi (if running then "" else code ui) (Some (Msg.mk error text data))
           (if running then false else isScanning ui).

Definition handleScan (s : Store) (ui : ScanUi) (env : ScanEnv) (barcode : string)
    : Store * ScanUi :=
  let sanitized := sanitizeBarcode barcode in
  if String.eqb sanitized "" || (String.length sanitized <? 3)
  then (s, scanError ui "Código inválido" None false)
  else if isScanning ui then (s, ui)
  else if negb (getDocOk env)
  then (s, scanError ui "Erro ao processar bipagem." None true)
  else
    let ref := pieceId ws sanitized in
    match pieces s !! ref with
    | None => (s, scanError ui "Peça não encontrada no sistema." None true)
    | Some piece =>
        match Piece.status piece with
        | PRODUZIDA => (s, scanError ui "Esta peça já foi bipada!" (Some piece) true)
        | PENDENTE =>
            if negb (updateDocOk env)
            then (s, scanError ui "Erro ao processar bipagem." None true)
            else
              (mkStore (<[ref := markProduced env piece]> (pieces s)) (projects s),
               mkScanUi ""
                 (Some (Msg.mk success
                          ("SUCESSO: " +:+ Js.orElse (Piece.nome piece) peca_prefix_bare
                           +:+ " bipada!")
                          (Some piece)))
                 false)
        end
    end.

(** A series of scans, each with its own environment. *)
Definition runScans (scans : list (ScanEnv * string)) (x : Store * ScanUi)
    : Store * ScanUi :=
  fold_left (fun x e => handleScan (fst x) (snd x) (fst e) (snd e)) scans x.

End Scan.

(** ** The PDF import ([processPdfFile], [savePromobData]) *)

Module PromobItem.
Record t : Type := mk {
  id : string;
  cliente : string;
  projeto : string;
  modulo : string;
  peca : string;
  obs : string;
  codItem : string;
  medidas : string;
  isValid : bool;
  errors : list string
}.
End PromobItem.

(** The text of one label cell after the field patterns have been matched
    against it: the captured group of each pattern that matched. *)
Module Cell.
Record t : Type := mk {
  clienteMatch : option string;
  projetoMatch : option string;
  moduloMatch : option string;
  pecaMatch : option string;
  obsMatch : option string;
  codMatch : option string;
  medidasMatch : option string
}.
End Cell.

Definition matched (m : option string) : string :=
  match m with Some x => x | None => "" end.

Section Pdf.

Variable ws : string.
(** [crypto.randomUUID()], by the number of items extracted before. *)
Variable randomUUID : nat -> string.
(** The pieces loaded in the session. *)
Variable loaded : list Piece.t.

Definition rawItemOf (cell : Cell.t) : PdfItem.t :=
  {| PdfItem.cliente := matched (Cell.clienteMatch cell);
     PdfItem.projeto := matched (Cell.projetoMatch cell);
     PdfItem.modulo := matched (Cell.moduloMatch cell);
     PdfItem.peca := matched (Cell.pecaMatch cell);
     PdfItem.obs := matched (Cell.obsMatch cell);
     PdfItem.codItem := Js.trim (matched (Cell.codMatch cell));
     PdfItem.medidas := matched (Cell.medidasMatch cell) |}.

(** [pieces.some(p => p.id.endsWith(String(codItem || '')))] *)
Definition isDuplicate (codItem : string) : bool :=
  existsb (fun p => Js.endsWith (Piece.id p) codItem) loaded.

(** The body of the cell callback once the cell is known to be a label:
    validation, duplicate check, and the item pushed on [extractedItems]. *)
Definition reviewItem (n : nat) (i : nat) (rawItem : PdfItem.t)
    : PromobItem.t * list ImportError.t :=
  let validation := Zod.safeParse (PdfItemSchema rawItem) in
  let '(isValid0, itemErrors0, parsingErrors, validData) :=
    match validation with
    | Zod.Failure issues =>
        (false, map Zod.message issues,
         map (fun issue => mapZodErrorToImportError issue i PDF) issues, rawItem)
    | Zod.Success data => (true, [], [], data)
    end in
  let dup := isDuplicate (PdfItem.codItem validData) in
  ({| PromobItem.id := randomUUID n;
      PromobItem.cliente := Js.trim (PdfItem.cliente validData);
      PromobItem.projeto := Js.trim (PdfItem.projeto validData);
      PromobItem.modulo := Js.trim (PdfItem.modulo validData);
      PromobItem.peca := Js.trim (PdfItem.peca validData);
      PromobItem.obs := Js.trim (PdfItem.obs validData);
      PromobItem.codItem := Js.trim (PdfItem.codItem validData);
      PromobItem.medidas := Js.trim (PdfItem.medidas validData);
      PromobItem.isValid := if dup then false else isValid0;
      PromobItem.errors :=
        if dup then itemErrors0 ++ ["Código já existe no sistema"] else itemErrors0 |},
   parsingErrors).

(** One non-empty cell of page [i]: nothing for a cell that is no label
    (no item code and no piece name), otherwise the item for the review grid
    and the errors for the panel. *)
Definition processCell (n : nat) (i : nat) (cell : Cell.t)
    : option (PromobItem.t * list ImportError.t) :=
  let rawItem := rawItemOf cell in
  match PdfItem.codItem rawItem, Cell.pecaMatch cell with
  | EmptyString, None => None
  | _, _ => Some (reviewItem n i rawItem)
  end.

Definition cellStep (i : nat) (acc : list PromobItem.t * list ImportError.t) (cell : Cell.t)
    : list PromobItem.t * list ImportError.t :=
  match processCell (length (fst acc)) i cell with
  | None => acc
  | Some (item, errs) => (fst acc ++ [item], snd acc ++ errs)
  end.

Definition pageError (i : nat) : ImportError.t :=
  {| ImportError.type := PDF_LAYOUT_UNEXPECTED;
     ImportError.message := "Erro ao processar página " +:+ Js.showNat i;
     ImportError.suggestion := "Verifique se a página contém elementos inválidos";
     ImportError.lineNumber := None;
     ImportError.pageNumber := Some i;
     ImportError.field := None;
     ImportError.value := None;
     ImportError.severity := ERROR |}.

(** The page loop from page [i] on; a page is its non-empty cells in grid
    order, or [None] when it cannot be read. *)
Fixpoint pageLoop (i : nat) (pages : list (option (list Cell.t)))
    (acc : list PromobItem.t * list ImportError.t)
    : list PromobItem.t * list ImportError.t :=
  match pages with
  | [] => acc
  | None :: rest => pageLoop (S i) rest (fst acc, snd acc ++ [pageError i])
  | Some cells :: rest => pageLoop (S i) rest (fold_left (cellStep i) cells acc)
  end.

(** [extractedItems] and [parsingErrors] of [processPdfFile]. *)
Definition extractPdf (pages : list (option (list Cell.t)))
    : list PromobItem.t * list ImportError.t :=
  pageLoop 1 pages ([], []).

Definition isAlnum (c : ascii) : bool :=
  Js.isLower c || Js.isUpper c || Js.isDigit c.

(** [item.codItem.replace(/[^a-zA-Z0-9]/g, '').toUpperCase()] *)
Definition promobBarcode (codItem : string) : string :=
  Js.toUpperCase (Js.keep isAlnum codItem).

Definition promobPiece (item : PromobItem.t) (barcode projName clientName : string) : Piece.t :=
  {| Piece.id := pieceId ws barcode;
     Piece.workspaceId := ws;
     Piece.nome := Js.orElse (PromobItem.peca item) (peca_prefix +:+ barcode);
     Piece.modulo := PromobItem.modulo item;
     Piece.projeto := projName;
     Piece.cliente := clientName;
     Piece.medidas := PromobItem.medidas item;
     Piece.material := "";
     Piece.cor := "";
     Piece.status := PENDENTE;
     Piece.producedAt := None;
     Piece.producedBy := None;
     Piece.scanHistory := [] |}.

(** One turn of the [forEach] that fills the batch of [savePromobData]. *)
Definition promobStep (now : string) (acc : list Write * list string) (item : PromobItem.t)
    : list Write * list string :=
  let barcode := promobBarcode (PromobItem.codItem item) in
  match barcode with
  | EmptyString => acc
  | _ =>
      let projName :=
        Js.orElse (PromobItem.projeto item) (Js.orElse (PromobItem.modulo item) "Projeto Promob") in
      let clientName := Js.orElse (PromobItem.cliente item) "Cliente Promob" in
      let projId :=
        Js.toUpperCase (Js.underscoreSpaces false (clientName +:+ "_" +:+ projName)) in
      let '(writes, newProjects) :=
        if existsb (String.eqb projId) (snd acc) then acc
        else (fst acc ++
                [MergeProject projId
                   (Project.mk projId ws projName clientName "" "PRODUCAO" now [] None None)],
              snd acc ++ [projId]) in
      (writes ++ [SetPiece (pieceId ws barcode) (promobPiece item barcode projName clientName)],
       newProjects)
  end.

Definition promobBatch (validItems : list PromobItem.t) (now : string) : list Write :=
  fst (fold_left (promobStep now) validItems ([], [])).

End Pdf.

(** The piece writes of a batch, in order. *)
Definition pieceWrites (batch : list Write) : list (string * Piece.t) :=
  flat_map (fun w => match w with SetPiece id data => [(id, data)] | _ => [] end) batch.

(** One whole analysis: the start and, when a read was started, its end. *)
Definition handleAnalyze (ws : string) (st : State) : State :=
  match handleAnalyze_begin st with
  | (st1, Some file) => handleAnalyze_end ws st1 file
  | (st1, None) => st1
  end.

(** ** Free-text sanitiser ([sanitizeInput]) *)

Module Sanitize.

(** [s.replace(/<[^>]*>?/gm, '')]: from every [<] outside a tag up to and
    including the next [>], or to the end of the text when there is none. *)
Fixpoint stripTags (inTag : bool) (s : string) : string :=
  match s with
  | EmptyString => EmptyString
  | String c r =>
      if inTag
      then (if (Js.code c =? 62)%N then stripTags false r else stripTags true r)
      else if (Js.code c =? 60)%N then stripTags true r
      else String c (stripTags false r)
  end.

(** Case folding of the [i] flag on ASCII letters. *)
Definition lowerChar (c : ascii) : ascii :=
  if Js.isUpper c then ascii_of_N (Js.code c + 32) else c.

(** Whether [s] starts with the lowercase pattern [pat], ignoring case. *)
Fixpoint startsWithCI (pat s : string) : bool :=
  match pat, s with
  | EmptyString, _ => true
  | String p pr, String c r => Ascii.eqb (lowerChar c) p && startsWithCI pr r
  | String _ _, EmptyString => false
  end.

(** [s.replace(/pat/gi, '')] for a literal pattern: the matches are found
    left to right and do not overlap; [skip] is what is left of the match
    being dropped. *)
Fixpoint removeCI (pat : string) (skip : nat) (s : string) : string :=
  match s with
  | EmptyString => EmptyString
  | String c r =>
      match skip with
      | S k => removeCI pat k r
      | O =>
          if startsWithCI pat s then removeCI pat (String.length pat - 1) r
          else String c (removeCI pat 0 r)
      end
  end.

(** The class [\w]. *)
Definition isWord (c : ascii) : bool :=
  Js.isLower c || Js.isUpper c || Js.isDigit c || (Js.code c =? 95)%N.

(** The length of the longest run of word characters at the start of [s],
    provided an equals sign follows it. *)
Fixpoint wordsThenEquals (s : string) : option nat :=
  match s with
  | EmptyString => None
  | String c r =>
      if isWord c
      then match wordsThenEquals r with
           | Some n => Some (S n)
           | None => None
           end
      else if (Js.code c =? 61)%N then Some 0
      else None
  end.

(** The length of the match of [/on\w+=/i] at the start of [s]. *)
Definition onHandlerAt (s : string) : option nat :=
  match s with
  | String o (String n r) =>
      if Ascii.eqb (lowerChar o) "o" && Ascii.eqb (lowerChar n) "n"
      then match wordsThenEquals r with
           | Some (S k) => Some (2 + S k + 1)
           | _ => None
           end
      else None
  | _ => None
  end.

(** [s.replace(/on\w+=/gi, '')] *)
Fixpoint removeOnHandlers (skip : nat) (s : string) : string :=
  match s with
  | EmptyString => EmptyString
  | String c r =>
      match skip with
      | S k => removeOnHandlers k r
      | O =>
          match onHandlerAt s with
          | Some n => removeOnHandlers (n - 1) r
          | None => String c (removeOnHandlers 0 r)
          end
      end
  end.

(** The class [[\x00-\x1F\x7F]]. *)
Definition isControl (c : ascii) : bool :=
  (Js.code c <=? 31)%N || (Js.code c =? 127)%N.

Definition sanitizeInput (input : string) : string :=
  Js.trim
    (Js.substring0 500
       (Js.keep (fun c => negb (isControl c))
          (removeOnHandlers 0
             (removeCI "javascript:" 0
                (stripTags false input))))).

End Sanitize.

(** ** Editing and saving the PDF review grid *)

(** The text fields of an item that the grid can set. *)
Inductive ItemField : Type :=
  | FCliente | FProjeto | FModulo | FPeca | FObs | FCodItem | FMedidas.

Definition setItemField (item : PromobItem.t) (field : ItemField) (value : string)
    : PromobItem.t :=
  let pick (f : ItemField) (old : string) :=
    match field, f with
    | FCliente, FCliente | FProjeto, FProjeto | FModulo, FModulo | FPeca, FPeca
    | FObs, FObs | FCodItem, FCodItem | FMedidas, FMedidas => value
    | _, _ => old
    end in
  {| PromobItem.id := PromobItem.id item;
     PromobItem.cliente := pick FCliente (PromobItem.cliente item);
     PromobItem.projeto := pick FProjeto (PromobItem.projeto item);
     PromobItem.modulo := pick FModulo (PromobItem.modulo item);
     PromobItem.peca := pick FPeca (PromobItem.peca item);
     PromobItem.obs := pick FObs (PromobItem.obs item);
     PromobItem.codItem := pick FCodItem (PromobItem.codItem item);
     PromobItem.medidas := pick FMedidas (PromobItem.medidas item);
     PromobItem.isValid := PromobItem.isValid item;
     PromobItem.errors := PromobItem.errors item |}.

Definition isLegacyClientError (e : string) : bool :=
  String.eqb e "Cliente muito curto" || String.eqb e "Nome do cliente muito curto".

(** The callback of [updatePromobItem] on the item whose id matches. *)
Definition editItem (item : PromobItem.t) (field : ItemField) (value : string)
    : PromobItem.t :=
  let kept := List.filter (fun e => negb (isLegacyClientError e)) (PromobItem.errors item) in
  let newErrors :=
    match field with
    | FCliente =>
        match Zod.safeParse (ClientNameSchema [] value) with
        | Zod.Failure (issue :: _) => kept ++ [Zod.message issue]
        | _ => kept
        end
    | _ => kept
    end in
  let edited := setItemField item field value in
  {| PromobItem.id := PromobItem.id edited;
     PromobItem.cliente := PromobItem.cliente edited;
     PromobItem.projeto := PromobItem.projeto edited;
     PromobItem.modulo := PromobItem.modulo edited;
     PromobItem.peca := PromobItem.peca edited;
     PromobItem.obs := PromobItem.obs edited;
     PromobItem.codItem := PromobItem.codItem edited;
     PromobItem.medidas := PromobItem.medidas edited;
     PromobItem.isValid := match newErrors with [] => true | _ => false end;
     PromobItem.errors := newErrors |}.

Definition updatePromobItem (items : list PromobItem.t) (id : string) (field : ItemField)
    (value : string) : list PromobItem.t :=
  map (fun item => if String.eqb (PromobItem.id item) id then editItem item field value
                   else item)
      items.

(** What [PdfItemSchema.safeParse(item)] reads of a grid item. *)
Definition toPdfItem (item : PromobItem.t) : PdfItem.t :=
  {| PdfItem.cliente := PromobItem.cliente item;
     PdfItem.projeto := PromobItem.projeto item;
     PdfItem.modulo := PromobItem.modulo item;
     PdfItem.peca := PromobItem.peca item;
     PdfItem.codItem := PromobItem.codItem item;
     PdfItem.medidas := PromobItem.medidas item;
     PdfItem.obs := PromobItem.obs item |}.

(** [!item.cliente || item.cliente.trim() === ''] *)
Definition blankClient (item : PromobItem.t) : bool :=
  String.eqb (PromobItem.cliente item) "" || String.eqb (Js.trim (PromobItem.cliente item)) "".

(** The final validation of one item before saving: its verdict and
    messages are computed afresh. *)
Definition revalidate (item : PromobItem.t) : PromobItem.t :=
  let '(errors0, isValid0) :=
    match Zod.safeParse (PdfItemSchema (toPdfItem item)) with
    | Zod.Failure issues => (map Zod.message issues, false)
    | Zod.Success _ => ([], true)
    end in
  let '(errors, isValid) :=
    if blankClient item then (errors0 ++ ["Nome do cliente é obrigatório"], false)
    else (errors0, isValid0) in
  {| PromobItem.id := PromobItem.id item;
     PromobItem.cliente := PromobItem.cliente item;
     PromobItem.projeto := PromobItem.projeto item;
     PromobItem.modulo := PromobItem.modulo item;
     PromobItem.peca := PromobItem.peca item;
     PromobItem.obs := PromobItem.obs item;
     PromobItem.codItem := PromobItem.codItem item;
     PromobItem.medidas := PromobItem.medidas item;
     PromobItem.isValid := isValid;
     PromobItem.errors := errors |}.

Record PdfState : Type := mkPdfState {
  pdfFile : option File.t;
  promobItems : list PromobItem.t;
  isProcessingPdf : bool;
  pdfStatus : ImportStatus.t;
  pdfGlobalErrors : list ImportError.t
}.

(** What [savePromobData] does up to [await batch.commit()]: the state, the
    alert shown if any, and the batch whose commit is now in flight. *)
Record SaveStart : Type := mkSaveStart {
  saveState : PdfState;
  saveAlert : option string;
  saveBatch : option (list Write)
}.

Section SavePromob.

Variable ws : string.

Definition savePromobData_begin (st : PdfState) (now : string) : SaveStart :=
  if isProcessingPdf st then mkSaveStart st None None
  else
    let updatedItems := map revalidate (promobItems st) in
    let after (busy : bool) :=
      mkPdfState (pdfFile st) updatedItems busy (pdfStatus st) (pdfGlobalErrors st) in
    let invalidItems := List.filter (fun i => negb (PromobItem.isValid i)) updatedItems in
    let hasEmptyClients := existsb blankClient updatedItems in
    if 0 <? length invalidItems
    then mkSaveStart (after false)
           (Some (if hasEmptyClients
                  then "⚠️ Alguns itens não têm cliente definido. Você pode preencher manualmente na tabela."
                  else "⚠️ Existem " +:+ Js.showNat (length invalidItems) +:+
                       " itens com erros. Corrija antes de importar."))
           None
    else
      let validItems := List.filter PromobItem.isValid updatedItems in
      match validItems with
      | [] => mkSaveStart (after false) (Some "Nenhum item válido para importar.") None
      | _ => mkSaveStart (after true) None (Some (promobBatch ws validItems now))
      end.

(** The rest of [savePromobData], run when the commit settles. *)
Definition savePromobData_end (st : PdfState) (ok : bool) : PdfState :=
  if ok then mkPdfState None [] false (ImportStatus.mk None "") []
  else mkPdfState (pdfFile st) (promobItems st) false (pdfStatus st) (pdfGlobalErrors st).

(** One whole save against the store. *)
Definition savePromobData (s : Store) (st : PdfState) (now : string) (ok : bool)
    : Store * PdfState :=
  let start := savePromobData_begin st now in
  match saveBatch start with
  | Some batch => (commit s batch ok, savePromobData_end (saveState start) ok)
  | None => (s, saveState start)
  end.

End SavePromob.

(** ** Reading the PDF ([processPdfFile]) *)

(** What the PDF library hands back: the library or the bytes of the file
    cannot be loaded, the document cannot be opened (for a password or for
    another reason), or the pages. *)
Inductive PdfRead : Type :=
  | LoadFailed (message : string)
  | OpenFailed (passwordException : bool)
  | Opened (pages : list (option (list Cell.t))).

(** The error of the [catch] around [getDocument]. *)
Definition openError (passwordException : bool) : ImportError.t :=
  {| ImportError.type :=
       if passwordException then PDF_PASSWORD_PROTECTED else PDF_CORRUPTED;
     ImportError.message :=
       if passwordException then "PDF protegido por senha." else "Erro ao abrir PDF.";
     ImportError.suggestion :=
       if passwordException then "Remova a senha do arquivo antes de importar."
       else "Verifique se o arquivo é um PDF válido.";
     ImportError.lineNumber := None;
     ImportError.pageNumber := None;
     ImportError.field := None;
     ImportError.value := None;
     ImportError.severity := CRITICAL |}.

(** One whole run of [processPdfFile]: the state once [finally] has
    released the guard. *)
Definition processPdfFile (randomUUID : nat -> string) (loaded : list Piece.t)
    (st : PdfState) (read : PdfRead) : PdfState :=
  match pdfFile st with
  | None => st
  | Some _ =>
      if isProcessingPdf st then st
      else
        let finish (items : list PromobItem.t) (status : ImportStatus.t)
                   (errs : list ImportError.t) :=
          mkPdfState (pdfFile st) items false status errs in
        match read with
        | LoadFailed message =>
            finish [] (ImportStatus.mk (Some error) ("Erro fatal: " +:+ message)) []
        | OpenFailed passwordException =>
            finish []
              (ImportStatus.mk (Some error)
                 ("Erro fatal: " +:+ ImportError.message (openError passwordException)))
              [openError passwordException]
        | Opened pages =>
            let '(extractedItems, parsingErrors) := extractPdf randomUUID loaded pages in
            finish extractedItems
              (if 0 <? length parsingErrors
               then ImportStatus.mk (Some error)
                      ("Extração concluída com " +:+ Js.showNat (length parsingErrors) +:+
                       " problemas.")
               else if length extractedItems =? 0
               then ImportStatus.mk (Some error) "Nenhuma etiqueta encontrada."
               else ImportStatus.mk (Some success)
                      (Js.showNat (length extractedItems) +:+
                       " etiquetas extraídas com sucesso."))
              parsingErrors
        end
  end.

(** ** Deleting a client ([executeClientDeletion]) *)

Module Volume.
Record t : Type := mk {
  id : string;
  workspaceId : string;
  projectId : string;
  index : nat;
  total : nat;
  loaded : bool;
  barcode : string;
  loadedAt : option string;
  loadedBy : option string
}.
End Volume.

(** The collections the views receive from the snapshot listeners. *)
Record Loaded : Type := mkLoaded {
  loadedProjects : list Project.t;
  loadedPieces : list Piece.t;
  loadedVolumes : list Volume.t
}.

(** The store with its volumes collection. *)
Record Db : Type := mkDb {
  dbStore : Store;
  dbVolumes : gmap string Volume.t
}.

(** [batch.delete(ref)], by collection. *)
Inductive Deletion : Type :=
  | DeletePiece (id : string)
  | DeleteVolume (id : string)
  | DeleteProject (id : string).

Definition applyDeletion (d : Db) (x : Deletion) : Db :=
  match x with
  | DeletePiece id =>
      mkDb (mkStore (delete id (pieces (dbStore d))) (projects (dbStore d))) (dbVolumes d)
  | DeleteVolume id => mkDb (dbStore d) (delete id (dbVolumes d))
  | DeleteProject id =>
      mkDb (mkStore (pieces (dbStore d)) (delete id (projects (dbStore d)))) (dbVolumes d)
  end.

Definition applyDeletions (d : Db) (batch : list Deletion) : Db :=
  fold_left applyDeletion batch d.

Inductive DeletionOutcome : Type :=
  | NotStarted
  | Refused (alert : string)
  | NothingFound (alert : string)
  | Batch (deletions : list Deletion).

Section ClientDeletion.

Variable ws : string.

Definition clientProjectsOf (l : Loaded) (clientName : string) : list Project.t :=
  List.filter (fun p => String.eqb (Project.workspaceId p) ws &&
                        String.eqb (Project.client_name p) clientName)
              (loadedProjects l).

Definition clientPiecesOf (l : Loaded) (clientName : string) : list Piece.t :=
  List.filter (fun p => String.eqb (Piece.workspaceId p) ws &&
                        String.eqb (Piece.cliente p) clientName)
              (loadedPieces l).

Definition clientVolumesOf (l : Loaded) (clientName : string) : list Volume.t :=
  let projectIds := map Project.id (clientProjectsOf l clientName) in
  List.filter (fun v => String.eqb (Volume.workspaceId v) ws &&
                        existsb (String.eqb (Volume.projectId v)) projectIds)
              (loadedVolumes l).

(** [executeClientDeletion] up to [await batch.commit()]. *)
Definition executeClientDeletion (l : Loaded) (role : string)
    (clientToDelete : option string) (isDeleting : bool) : DeletionOutcome :=
  match clientToDelete with
  | None => NotStarted
  | Some clientName =>
      if isDeleting then NotStarted
      else if negb (String.eqb role "MASTER")
      then Refused "Permissão insuficiente para excluir clientes."
      else
        match clientProjectsOf l clientName with
        | [] => NothingFound "Nenhum projeto encontrado para este cliente."
        | clientProjects =>
            Batch (map (fun p => DeletePiece (Piece.id p)) (clientPiecesOf l clientName)
                   ++ map (fun v => DeleteVolume (Volume.id v)) (clientVolumesOf l clientName)
                   ++ map (fun p => DeleteProject (Project.id p)) clientProjects)
        end
  end.

(** The database after the deletion settles. *)
Definition deleteClient (d : Db) (l : Loaded) (role : string)
    (clientToDelete : option string) (isDeleting : bool) (ok : bool) : Db :=
  match executeClientDeletion l role clientToDelete isDeleting with
  | Batch deletions => if ok then applyDeletions d deletions else d
  | _ => d
  end.

End ClientDeletion.

(** ** Loading the volumes of a client ([SaidaComponent]) *)

(** [formatClientDisplay]: a project without [client_code] is read with the
    empty code, which the test treats alike. *)
Definition formatClientDisplay (name code : string) : string :=
  if negb (String.eqb code "") && negb (String.eqb (Js.trim code) "")
  then code +:+ " - " +:+ name
  else name.

Module User.
Record t : Type := mk {
  id : string;
  workspaceId : string;
  login_id : string;
  role : string
}.
End User.

Module VolumeMsg.
Record t : Type := mk { type : StatusType; text : string; data : option Volume.t }.
End VolumeMsg.

Module Saida.

Record Ui : Type := mkUi {
  selClient : string;
  scanCode : string;
  lastScanMsg : option VolumeMsg.t;
  showFinalizeModal : bool
}.

Section Component.

Variable ws : string.
Variable l : Loaded.
Variable users : list User.t.

(** [p.status === 'CARREGANDO' || p.status === 'PRODUCAO'] *)
Definition inProgress (p : Project.t) : bool :=
  String.eqb (Project.status p) "CARREGANDO" || String.eqb (Project.status p) "PRODUCAO".

Definition clientProjects (sel : string) : list Project.t :=
  if String.eqb sel "" then []
  else List.filter
         (fun p => String.eqb (formatClientDisplay (Project.client_name p)
                                                   (Project.client_code p)) sel &&
                   String.eqb (Project.workspaceId p) ws &&
                   inProgress p)
         (loadedProjects l).

Definition clientVolumes (sel : string) : list Volume.t :=
  if String.eqb sel "" || (length (clientProjects sel) =? 0) then []
  else
    let projectIds := map Project.id (clientProjects sel) in
    List.filter (fun v => existsb (String.eqb (Volume.projectId v)) projectIds &&
                          String.eqb (Volume.workspaceId v) ws)
                (loadedVolumes l).

Definition pendingVolumes (sel : string) : list Volume.t :=
  List.filter (fun v => negb (Volume.loaded v)) (clientVolumes sel).

Definition isProduced (p : Piece.t) : bool :=
  match Piece.status p with PRODUZIDA => true | PENDENTE => false end.

Definition allPiecesProduced (sel : string) : bool :=
  if String.eqb sel "" || (length (clientProjects sel) =? 0) then false
  else
    let projectNames := map Project.project_name (clientProjects sel) in
    let clientPieces :=
      List.filter (fun p => existsb (String.eqb (Piece.projeto p)) projectNames &&
                            String.eqb (Piece.workspaceId p) ws)
                  (loadedPieces l) in
    (0 <? length clientPieces) && forallb isProduced clientPieces.

(** [users.find(u => u.id === 'currentUser')?.login_id || 'SISTEMA'] *)
Definition loadedByUser : string :=
  match List.find (fun u => String.eqb (User.id u) "currentUser") users with
  | Some u => Js.orElse (User.login_id u) "SISTEMA"
  | None => "SISTEMA"
  end.

(** The fields [updateDoc] overwrites on a scanned volume. *)
Definition markLoaded (now : string) (v : Volume.t) : Volume.t :=
  {| Volume.id := Volume.id v;
     Volume.workspaceId := Volume.workspaceId v;
     Volume.projectId := Volume.projectId v;
     Volume.index := Volume.index v;
     Volume.total := Volume.total v;
     Volume.loaded := true;
     Volume.barcode := Volume.barcode v;
     Volume.loadedAt := Some now;
     Volume.loadedBy := Some loadedByUser |}.

(** [handleScanVolume]: [updateDoc] rejects when the document is missing or
    when the write does not go through, and the handler has no [catch]. *)
Definition handleScanVolume (d : Db) (ui : Ui) (now : string) (updateDocOk : bool)
    (barcode : string) : Db * Ui :=
  let say (m : option VolumeMsg.t) := mkUi (selClient ui) "" m (showFinalizeModal ui) in
  match List.find (fun v => String.eqb (Volume.barcode v) barcode)
                  (clientVolumes (selClient ui)) with
  | None =>
      (d, say (Some (VolumeMsg.mk error "Volume não encontrado para este cliente!" None)))
  | Some volume =>
      if Volume.loaded volume
      then (d, say (Some (VolumeMsg.mk error "Este volume já foi carregado!" (Some volume))))
      else
        match dbVolumes d !! Volume.id volume with
        | Some stored =>
            if updateDocOk
            then (mkDb (dbStore d) (<[Volume.id volume := markLoaded now stored]> (dbVolumes d)),
                  say (Some (VolumeMsg.mk success
                               ("Volume " +:+ Js.showNat (Volume.index volume) +:+ "/" +:+
                                Js.showNat (Volume.total volume) +:+ " carregado!")
                               (Some volume))))
            else (d, say (lastScanMsg ui))
        | None => (d, say (lastScanMsg ui))
        end
  end.

(** [handleFinalizeLoad]: the alert it raises, if any, and the state. *)
Definition handleFinalizeLoad (ui : Ui) : option string * Ui :=
  let sel := selClient ui in
  if String.eqb sel "" || (length (clientProjects sel) =? 0)
  then (Some "Selecione um cliente primeiro!", ui)
  else if 0 <? length (pendingVolumes sel)
  then (Some ("Há " +:+ Js.showNat (length (pendingVolumes sel)) +:+
              " volume(s) pendente(s) de carregamento!" +:+ String LF (String LF
              ("Volumes pendentes: " +:+
               join ", " (map (fun v => Js.showNat (Volume.index v)) (pendingVolumes sel))))),
        ui)
  else if negb (allPiecesProduced sel)
  then (Some ("Atenção: Nem todas as peças deste cliente foram produzidas!" +:+ String LF
              "Complete a produção antes de finalizar a carga."), ui)
  else (None, mkUi sel (scanCode ui) (lastScanMsg ui) true).

End Component.

End Saida.

(** ** Vocabulary of the statements *)

(** The characters a sanitised barcode can contain: [[A-Z0-9\-_]]. *)
Definition scanChar (c : ascii) : bool :=
  Js.isUpper c || Js.isDigit c || (Js.code c =? 45)%N || (Js.code c =? 95)%N.

Fixpoint existsChar (p : ascii -> bool) (s : string) : bool :=
  match s with
  | EmptyString => false
  | String c r => p c || existsChar p r
  end.

(** A character that no sanitised barcode contains: a lowercase letter, or
    one outside the class the sanitiser keeps. *)
Definition lostByScan (c : ascii) : bool :=
  Js.isLower c || negb (barcodeChar c).

(** The errors of one kind, and the errors raised for one field. *)
Definition ofType (ty : ImportErrorType) (errs : list ImportError.t) : list ImportError.t :=
  List.filter (fun e => bool_decide (ImportError.type e = ty)) errs.

Definition ofField (k : string) (errs : list ImportError.t) : list ImportError.t :=
  List.filter (fun e => bool_decide (ImportError.field e = Some k)) errs.

(** How [mapZodErrorToImportError] classifies an issue found at field [k]. *)
Definition kindOfField (k : string) : ImportErrorType * ImportErrorSeverity :=
  let e := mapZodErrorToImportError (Zod.mkIssue Zod.custom [k] "") 0 CSV in
  (ImportError.type e, ImportError.severity e).

(** [val.trim().replace(',', '.')] *)
Definition normalizeDimension (val : string) : string :=
  Js.replaceFirst "," "." (Js.trim val).

(** The three dimension fields of a CSV row. *)
Inductive Dimension : Type := Comprimento | Largura | Espessura.

Definition dimKey (d : Dimension) : string :=
  match d with
  | Comprimento => "comprimento"
  | Largura => "largura"
  | Espessura => "espessura"
  end.

Definition dimValue (d : Dimension) (raw : CsvRow.t) : string :=
  match d with
  | Comprimento => CsvRow.comprimento raw
  | Largura => CsvRow.largura raw
  | Espessura => CsvRow.espessura raw
  end.

(** Sample lines of a Haixun export: a good one, one without barcode, one
    with a two-letter barcode, one with a length that is no number. *)
Definition goodLine : string :=
  "a,b,Mod1,Door,10,20,18,h,Kitchen-A,MDF,Branco,BC123,m,Acme,o,p,C001".
Definition noBarcodeLine : string :=
  "a,b,Mod1,Door,10,20,18,h,Kitchen-A,MDF,Branco,,m,Acme,o,p,C001".
Definition shortBarcodeLine : string :=
  "a,b,Mod1,Door,10,20,18,h,Kitchen-A,MDF,Branco,BC,m,Acme,o,p,C001".
Definition badLengthLine : string :=
  "a,b,Mod1,Door,abc,20,18,h,Kitchen-A,MDF,Branco,BC123,m,Acme,o,p,C001".
Definition badThicknessLine : string :=
  "a,b,Mod1,Door,10,20,abc,h,Kitchen-A,MDF,Branco,BC123,m,Acme,o,p,C001".

(** The validated records of the lines from [i] on, in file order. *)
Fixpoint acceptedRows (i : nat) (lines : list string) : list CsvRow.t :=
  match lines with
  | [] => []
  | rawLine :: rest =>
      match processRow i rawLine with
      | Accepted validData => validData :: acceptedRows (S i) rest
      | _ => acceptedRows (S i) rest
      end
  end.

(** The last document a list of piece writes leaves under id [k]. *)
Fixpoint lastWrite (k : string) (l : list (string * Piece.t)) : option Piece.t :=
  match l with
  | [] => None
  | w :: rest =>
      match lastWrite k rest with
      | Some v => Some v
      | None => if decide (fst w = k) then Some (snd w) else None
      end
  end.

(** The piece write of one valid item of the review grid, if any. *)
Definition promobWrite (ws : string) (item : PromobItem.t) : list (string * Piece.t) :=
  match promobBarcode (PromobItem.codItem item) with
  | EmptyString => []
  | barcode =>
      [(pieceId ws barcode,
        promobPiece ws item barcode
          (Js.orElse (PromobItem.projeto item)
             (Js.orElse (PromobItem.modulo item) "Projeto Promob"))
          (Js.orElse (PromobItem.cliente item) "Cliente Promob"))]
  end.

(** [batch.set] of one piece document. *)
Definition putPiece (m : gmap string Piece.t) (w : string * Piece.t) : gmap string Piece.t :=
  <[fst w := snd w]> m.

(** The message of the PDF duplicate check. *)
Definition duplicateMessage : string := "Código já existe no sistema".

(** What the review grid shows for a record whose code is taken. *)
Definition flaggedAs (codItem : string) (item : PromobItem.t) : Prop :=
  PromobItem.codItem item = codItem /\
  PromobItem.isValid item = false /\
  In duplicateMessage (PromobItem.errors item).

(** Reading [projectStats]: the entry of a project name. *)
Definition lookupStats (k : string) (stats : list (string * Stats.t)) : option Stats.t :=
  option_map snd (List.find (fun e => String.eqb (fst e) k) stats).

(** What one piece adds to the entry of its project. *)
Definition addPiece (st : Stats.t) (p : Piece.t) : Stats.t :=
  Stats.mk (S (Stats.pieceCount st)) (setAdd (Piece.modulo p) (Stats.modules st)).

Definition statsOrEmpty (o : option Stats.t) : Stats.t :=
  match o with Some st => st | None => Stats.mk 0 [] end.

(** The name under which a client code is registered: that of the first
    record carrying the code. *)
Definition firstName (code : string) (records : list CsvRow.t) : option string :=
  option_map CsvRow.clientName
    (List.find (fun v => String.eqb (CsvRow.clientCode v) code) records).

(** Records that share a client code share the client name. *)
Definition consistentNames (records : list CsvRow.t) : Prop :=
  forall v1 v2, In v1 records -> In v2 records ->
    CsvRow.clientCode v1 = CsvRow.clientCode v2 ->
    CsvRow.clientName v1 = CsvRow.clientName v2.

(** The counts of a project among the pieces of a client name. *)
Definition countsFor (pecas : list Piece.t) (name project : string) : option (nat * nat) :=
  match List.filter (fun p => String.eqb (Piece.projeto p) project)
          (List.filter (fun p => String.eqb (Piece.cliente p) name) pecas) with
  | [] => None
  | qs => Some (length qs,
                length (fold_left (fun ms p => setAdd (Piece.modulo p) ms) qs []))
  end.

(** Reading [clientMap]: the name registered for a client code. *)
Definition nameOf (code : string) (cm : list ClientInfo.t) : option string :=
  option_map ClientInfo.clientName
    (List.find (fun c => String.eqb (ClientInfo.clientCode c) code) cm).

(** Three validated records of one client code, the third under another
    client name. *)
Definition acmeDoor : CsvRow.t :=
  CsvRow.mk "C1" "Acme" "P" "BC1x" "M1" "Door" "10" "20" "18" "MDF" "".
Definition acmeShelf : CsvRow.t :=
  CsvRow.mk "C1" "Acme" "P" "BC2x" "M1" "Shelf" "10" "20" "18" "MDF" "".
Definition betaDoor : CsvRow.t :=
  CsvRow.mk "C1" "Beta" "P" "BC3x" "M2" "Door" "10" "20" "18" "MDF" "".

(** Sample documents and states. *)
Definition producedDoor : Piece.t :=
  {| Piece.id := "ws_BC123"; Piece.workspaceId := "ws"; Piece.nome := "Door";
     Piece.modulo := "Mod1"; Piece.projeto := "Kitchen-A"; Piece.cliente := "Acme";
     Piece.medidas := "10x20x18"; Piece.material := "MDF"; Piece.cor := "";
     Piece.status := PRODUZIDA; Piece.producedAt := Some "2024-01-01T10:00:00.000Z";
     Piece.producedBy := Some "ana";
     Piece.scanHistory := [ScanEntry.mk "SCAN" "2024-01-01T10:00:00.000Z" "ana"] |}.

Definition lowercaseDoor : CsvRow.t :=
  CsvRow.mk "C001" "Acme" "Kitchen-A" "bc123" "Mod1" "Door" "10" "20" "18" "MDF" "".

Definition twoLineFile : File.t :=
  File.mk 64 (Some ("header" +:+ String LF "a,b,c")).

Definition idleState : State :=
  mkState (Some twoLineFile) false (ImportStatus.mk None "") [] None None false.

Definition stagedDoor : Pending.t :=
  Pending.mk [mkPiece "ws" lowercaseDoor] [ClientInfo.mk "C001" "Acme" ["Kitchen-A"]].

Definition analyzedState : State :=
  mkState (Some twoLineFile) false (ImportStatus.mk (Some success) "")
          [] (Some (previewList [ClientInfo.mk "C001" "Acme" ["Kitchen-A"]]
                                [mkPiece "ws" lowercaseDoor]))
          (Some stagedDoor) false.

Definition takenCell : Cell.t :=
  Cell.mk (Some "Acme") (Some "Kitchen-A") (Some "Mod1") (Some "Door") None
          (Some "BC123") (Some "10 x 20 x 18 mm").

(** Every issue of a schema carries the path it was parsed at. *)
Definition atPath {I O} (s : Zod.Schema I O) : Prop :=
  forall p x, Forall (fun i => Zod.path i = p) (Zod.issuesOf (s p x)).

(** What a piece is, as opposed to its production data. *)
Definition describe (p : Piece.t)
    : string * string * string * string * string * string * string * string * string :=
  (Piece.id p, Piece.workspaceId p, Piece.nome p, Piece.modulo p, Piece.projeto p,
   Piece.cliente p, Piece.medidas p, Piece.material p, Piece.cor p).

(** How a piece document may differ after scans: same piece, and unchanged
    altogether once it is produced. *)
Definition scannedFrom (p p' : Piece.t) : Prop :=
  describe p' = describe p /\ (Piece.status p = PRODUZIDA -> p' = p).

Definition pendingDoor : Piece.t :=
  {| Piece.id := "ws_BC123"; Piece.workspaceId := "ws"; Piece.nome := "Door";
     Piece.modulo := "Mod1"; Piece.projeto := "Kitchen-A"; Piece.cliente := "Acme";
     Piece.medidas := "10x20x18"; Piece.material := "MDF"; Piece.cor := "";
     Piece.status := PENDENTE; Piece.producedAt := None; Piece.producedBy := None;
     Piece.scanHistory := [] |}.

Definition morningShift : ScanEnv :=
  mkScanEnv "rui" "2024-02-02T08:00:00.000Z" "2024-02-02T08:00:00.001Z" true true.

(** The rows the validator lets through, and what it makes of them. *)
Definition rowOk (raw : CsvRow.t) : bool :=
  negb (String.eqb (CsvRow.clientCode raw) "") &&
  negb (String.eqb (CsvRow.clientName raw) "") &&
  negb (String.eqb (CsvRow.projectName raw) "") &&
  (3 <=? String.length (Js.trim (CsvRow.barcode raw))) &&
  dimensionOk (normalizeDimension (CsvRow.comprimento raw)) &&
  dimensionOk (normalizeDimension (CsvRow.largura raw)) &&
  dimensionOk (normalizeDimension (CsvRow.espessura raw)).

Definition normalizeRow (raw : CsvRow.t) : CsvRow.t :=
  {| CsvRow.clientCode := CsvRow.clientCode raw;
     CsvRow.clientName := Js.trim (CsvRow.clientName raw);
     CsvRow.projectName := CsvRow.projectName raw;
     CsvRow.barcode := Js.trim (CsvRow.barcode raw);
     CsvRow.pieceModule := CsvRow.pieceModule raw;
     CsvRow.pieceName := CsvRow.pieceName raw;
     CsvRow.comprimento := normalizeDimension (CsvRow.comprimento raw);
     CsvRow.largura := normalizeDimension (CsvRow.largura raw);
     CsvRow.espessura := normalizeDimension (CsvRow.espessura raw);
     CsvRow.material := CsvRow.material raw;
     CsvRow.cor := CsvRow.cor raw |}.

(** The outcome of every line from [i] on, in file order. *)
Fixpoint outcomes (i : nat) (lines : list string) : list RowOutcome :=
  match lines with
  | [] => []
  | rawLine :: rest => processRow i rawLine :: outcomes (S i) rest
  end.

Definition isBlank (o : RowOutcome) : bool :=
  match o with Blank => true | _ => false end.
Definition isRejected (o : RowOutcome) : bool :=
  match o with Rejected _ => true | _ => false end.
Definition errorsOf (o : RowOutcome) : list ImportError.t :=
  match o with Rejected errs => errs | _ => [] end.

(** A cell that the PDF extraction keeps: it has an item code or a piece
    name. *)
Definition isLabel (cell : Cell.t) : bool :=
  negb (String.eqb (PdfItem.codItem (rawItemOf cell)) "") ||
  match Cell.pecaMatch cell with Some _ => true | None => false end.

Definition labelCount (pages : list (option (list Cell.t))) : nat :=
  fold_left (fun n pg => match pg with
                         | Some cells => n + length (List.filter isLabel cells)
                         | None => n
                         end) pages 0.

Definition unreadableCount (pages : list (option (list Cell.t))) : nat :=
  length (List.filter (fun pg => match pg with None => true | Some _ => false end) pages).

(** How the PDF path classifies a validation error. *)
Definition pdfErrorShape (i : nat) (e : ImportError.t) : Prop :=
  ImportError.pageNumber e = Some i /\
  ImportError.lineNumber e = None /\
  ImportError.severity e = ERROR /\
  ((ImportError.type e = MISSING_CLIENT_INFO /\ ImportError.field e = Some "cliente") \/
   (ImportError.type e = VALIDATION_ERROR /\ ImportError.field e = Some "codItem")).

(** A series of edits of one item in the review grid. *)
Definition editMany (item : PromobItem.t) (edits : list (ItemField * string)) : PromobItem.t :=
  fold_left (fun it e => editItem it (fst e) (snd e)) edits item.

(** The item the extraction yields for [takenCell] when [producedDoor] is
    loaded: valid fields, flagged as a duplicate. *)
Definition flaggedDoor : PromobItem.t :=
  fst (reviewItem (fun _ => "uuid-1") [producedDoor] 0 1 (rawItemOf takenCell)).

Definition shortCodeItem : PromobItem.t :=
  PromobItem.mk "uuid-2" "Acme" "Kitchen-A" "Mod1" "Door" "" "B1" "" true [].

(** Whether an item passes the final validation of [savePromobData]. *)
Definition passes (item : PromobItem.t) : bool :=
  match Zod.safeParse (PdfItemSchema (toPdfItem item)) with
  | Zod.Success _ => negb (blankClient item)
  | Zod.Failure _ => false
  end.

(** Characters other than the one that opens a tag. *)
Definition notLt (c : ascii) : bool := negb (Js.code c =? 60)%N.
Definition notControl (c : ascii) : bool := negb (Sanitize.isControl c).

(** Whether a batch deletes the document [k] of a collection. *)
Definition deletesPiece (k : string) (batch : list Deletion) : bool :=
  existsb (fun x => match x with DeletePiece id => String.eqb id k | _ => false end) batch.
Definition deletesVolume (k : string) (batch : list Deletion) : bool :=
  existsb (fun x => match x with DeleteVolume id => String.eqb id k | _ => false end) batch.
Definition deletesProject (k : string) (batch : list Deletion) : bool :=
  existsb (fun x => match x with DeleteProject id => String.eqb id k | _ => false end) batch.

Definition acmeProject : Project.t :=
  Project.mk "ACME_KITCHEN-A" "ws" "Kitchen-A" "Acme" "C001" "PRODUCAO" "t0" [] None None.

Definition acmeLoaded : Loaded :=
  mkLoaded [acmeProject] [producedDoor]
           [Volume.mk "ws_ACME_KITCHEN-A_VOL_1" "ws" "ACME_KITCHEN-A" 1 1 false "ACME_V1"
                      None None].

Definition acmeDb : Db :=
  mkDb (mkStore {[ "ws_BC123" := producedDoor ]} {[ "ACME_KITCHEN-A" := acmeProject ]}) ∅.

(** What a stored volume can become: the load mark is only ever set. *)
Definition loadedFrom (v v' : Volume.t) : Prop :=
  Volume.id v' = Volume.id v /\
  Volume.workspaceId v' = Volume.workspaceId v /\
  Volume.projectId v' = Volume.projectId v /\
  Volume.index v' = Volume.index v /\
  Volume.total v' = Volume.total v /\
  Volume.barcode v' = Volume.barcode v /\
  (Volume.loaded v = true -> Volume.loaded v' = true).

(** The project is one of the selected client, in the workspace, still in
    production or being loaded. *)
Definition openProjectOf (ws sel : string) (p : Project.t) : Prop :=
  formatClientDisplay (Project.client_name p) (Project.client_code p) = sel /\
  Project.workspaceId p = ws /\
  (Project.status p = "CARREGANDO" \/ Project.status p = "PRODUCAO").

Definition acmeVolume : Volume.t :=
  Volume.mk "ws_ACME_KITCHEN-A_VOL_1" "ws" "ACME_KITCHEN-A" 1 1 false "ACME_V1" None None.

Definition acmeYard (loaded : bool) : Loaded :=
  mkLoaded [acmeProject] [producedDoor]
           [Volume.mk "ws_ACME_KITCHEN-A_VOL_1" "ws" "ACME_KITCHEN-A" 1 1 loaded "ACME_V1"
                      None None].

Definition acmeYardDb : Db :=
  mkDb (mkStore {[ "ws_BC123" := producedDoor ]} {[ "ACME_KITCHEN-A" := acmeProject ]})
       {[ "ws_ACME_KITCHEN-A_VOL_1" := acmeVolume ]}.

(** A label whose item code is written in small letters with a hyphen, and
    a panel with a PDF chosen. *)
Definition hyphenCell : Cell.t :=
  Cell.mk (Some "Acme") (Some "Kitchen-A") (Some "Mod1") (Some "Door") None
          (Some "bc-123") None.

Definition pdfChosen : PdfState :=
  mkPdfState (Some (File.mk 64 None)) [] false (ImportStatus.mk None "") [].

(** * Properties *)

(** ** Strings *)

Lemma append_inj_l (a b c : string) : a +:+ b = a +:+ c -> b = c.
Proof.
  induction a as [|x a IH]; simpl; intros H; [exact H|].
  injection H as H. auto.
Qed.

Lemma allChars_app p (a b : string) :
  Js.allChars p (a +:+ b) = Js.allChars p a && Js.allChars p b.
Proof.
  induction a as [|x a IH]; simpl; [reflexivity|].
  rewrite IH. apply andb_assoc.
Qed.

Lemma allChars_keep p (s : string) : Js.allChars p (Js.keep p s) = true.
Proof.
  induction s as [|c s IH]; simpl; [reflexivity|].
  destruct (p c) eqn:E; simpl; [rewrite E|]; auto.
Qed.

Lemma allChars_substring0 p n (s : string) :
  Js.allChars p s = true -> Js.allChars p (Js.substring0 n s) = true.
Proof.
  revert s. induction n as [|n IH]; intros [|c s]; simpl; auto.
  intros [Hc Hs]%andb_true_iff. rewrite Hc. simpl. auto.
Qed.

Lemma allChars_trimStart p (s : string) :
  Js.allChars p s = true -> Js.allChars p (Js.trimStart s) = true.
Proof.
  induction s as [|c s IH]; simpl; [auto|].
  intros H. destruct (Js.isWhiteSpace c); [|exact H].
  apply andb_true_iff in H as [_ H]. auto.
Qed.

Lemma allChars_trimEnd p (s : string) :
  Js.allChars p s = true -> Js.allChars p (Js.trimEnd s) = true.
Proof.
  induction s as [|c s IH]; simpl; [auto|].
  intros [Hc Hs]%andb_true_iff. specialize (IH Hs).
  destruct (Js.trimEnd s) as [|d r].
  - destruct (Js.isWhiteSpace c); simpl; [reflexivity|]. rewrite Hc. reflexivity.
  - simpl in *. rewrite Hc. exact IH.
Qed.

Lemma allChars_trim p (s : string) :
  Js.allChars p s = true -> Js.allChars p (Js.trim s) = true.
Proof. intros H. apply allChars_trimEnd, allChars_trimStart, H. Qed.

Lemma upperChar_barcodeChar (c : ascii) :
  barcodeChar c = true -> Js.allChars scanChar (Js.upperChar c) = true.
Proof.
  destruct c as [[] [] [] [] [] [] [] []]; vm_compute; intros H;
    first [reflexivity | discriminate H].
Qed.

Lemma toUpperCase_barcodeChars (s : string) :
  Js.allChars barcodeChar s = true ->
  Js.allChars scanChar (Js.toUpperCase s) = true.
Proof.
  induction s as [|c s IH]; simpl; [auto|].
  intros [Hc Hs]%andb_true_iff.
  rewrite allChars_app, (upperChar_barcodeChar _ Hc). simpl. auto.
Qed.

Lemma sanitizeBarcode_chars (barcode : string) :
  Js.allChars scanChar (sanitizeBarcode barcode) = true.
Proof.
  unfold sanitizeBarcode.
  apply toUpperCase_barcodeChars, allChars_trim, allChars_substring0, allChars_keep.
Qed.

Lemma lostByScan_not_scanChar (c : ascii) :
  lostByScan c = true -> scanChar c = false.
Proof.
  destruct c as [[] [] [] [] [] [] [] []]; vm_compute; intros H;
    first [reflexivity | discriminate H].
Qed.

Lemma existsChar_lost (s : string) :
  existsChar lostByScan s = true -> Js.allChars scanChar s = false.
Proof.
  induction s as [|c s IH]; simpl; [discriminate|].
  intros [H|H]%orb_true_iff.
  - rewrite (lostByScan_not_scanChar _ H). reflexivity.
  - rewrite (IH H). apply andb_false_r.
Qed.

Lemma pieceId_inj (ws a b : string) : pieceId ws a = pieceId ws b -> a = b.
Proof.
  unfold pieceId. intros H. apply append_inj_l in H. simpl in H.
  injection H as H. exact H.
Qed.

Lemma sanitizeBarcode_misses (ws input barcode : string) :
  existsChar lostByScan barcode = true ->
  pieceId ws (sanitizeBarcode input) <> pieceId ws barcode.
Proof.
  intros Hlost Heq. apply pieceId_inj in Heq.
  pose proof (sanitizeBarcode_chars input) as Hs.
  rewrite Heq, (existsChar_lost _ Hlost) in Hs. discriminate.
Qed.

(** ** The scan touches one document *)

Section ScanFacts.

Variable ws : string.

Lemma handleScan_other s ui env barcode (k : string) :
  k <> pieceId ws (sanitizeBarcode barcode) ->
  pieces (fst (handleScan ws s ui env barcode)) !! k = pieces s !! k.
Proof.
  intros Hk. unfold handleScan.
  repeat (match goal with
          | |- context [if ?b then _ else _] => destruct b
          | |- context [match ?o with Some _ => _ | None => _ end] => destruct o
          | |- context [match Piece.status ?p with _ => _ end] => destruct (Piece.status p)
          end; simpl; try reflexivity).
  rewrite lookup_insert_ne; [reflexivity|]. congruence.
Qed.

Lemma handleScan_produced s ui env barcode (k : string) (piece : Piece.t) :
  pieces s !! k = Some piece ->
  Piece.status piece = PRODUZIDA ->
  pieces (fst (handleScan ws s ui env barcode)) !! k = Some piece.
Proof.
  intros Hk Hst.
  destruct (decide (k = pieceId ws (sanitizeBarcode barcode))) as [->|Hne].
  - unfold handleScan. rewrite Hk, Hst.
    repeat (match goal with
            | |- context [if ?b then _ else _] => destruct b
            end; simpl; try exact Hk).
  - rewrite handleScan_other; assumption.
Qed.

Lemma runScans_produced scans s ui (k : string) (piece : Piece.t) :
  pieces s !! k = Some piece ->
  Piece.status piece = PRODUZIDA ->
  pieces (fst (runScans ws scans (s, ui))) !! k = Some piece.
Proof.
  unfold runScans. revert s ui.
  induction scans as [|[env barcode] scans IH]; intros s ui Hk Hst; simpl; [exact Hk|].
  destruct (handleScan ws s ui env barcode) as [s1 ui1] eqn:E.
  apply IH; [|exact Hst].
  change s1 with (fst (s1, ui1)). rewrite <- E.
  apply handleScan_produced; assumption.
Qed.

Lemma runScans_unreachable scans s ui (k : string) :
  (forall input, pieceId ws (sanitizeBarcode input) <> k) ->
  pieces (fst (runScans ws scans (s, ui))) !! k = pieces s !! k.
Proof.
  intros Hk. unfold runScans. revert s ui.
  induction scans as [|[env barcode] scans IH]; intros s ui; simpl; [reflexivity|].
  destruct (handleScan ws s ui env barcode) as [s1 ui1] eqn:E.
  rewrite IH.
  change s1 with (fst (s1, ui1)). rewrite <- E.
  apply handleScan_other. intros ->. exact (Hk barcode eq_refl).
Qed.

End ScanFacts.

(** ** The scan workflow *)

(** C7. A scan of a barcode whose piece is already PRODUZIDA writes nothing:
    the store is the same afterwards, the operator gets the error message
    when the scan runs, and whatever scans follow, the document (status,
    producedAt, producedBy, scanHistory) stays as it is; so the scan
    workflow takes a piece from PENDENTE to PRODUZIDA at most once. *)
Theorem scan_of_produced_piece_is_rejected
    (ws : string) (s : Store) (ui : ScanUi) (env : ScanEnv) (barcode : string)
    (piece : Piece.t) :
  pieces s !! pieceId ws (sanitizeBarcode barcode) = Some piece ->
  Piece.status piece = PRODUZIDA ->
  fst (handleScan ws s ui env barcode) = s /\
  (3 <= String.length (sanitizeBarcode barcode) -> isScanning ui = false ->
   getDocOk env = true ->
   lastMsg (snd (handleScan ws s ui env barcode))
   = Some (Msg.mk error "Esta peça já foi bipada!" (Some piece))) /\
  (forall scans ui',
     pieces (fst (runScans ws scans (s, ui'))) !! pieceId ws (sanitizeBarcode barcode)
     = Some piece).
Proof.
  intros Hk Hst. split; [|split].
  - unfold handleScan. rewrite Hk, Hst.
    repeat (match goal with
            | |- context [if ?b then _ else _] => destruct b
            end; simpl; try reflexivity).
  - intros Hlen Hscan Hget. unfold handleScan. rewrite Hk, Hst, Hscan, Hget.
    destruct (sanitizeBarcode barcode) as [|c r] eqn:E; [simpl in Hlen; lia|].
    replace (String.length (String c r) <? 3) with false
      by (symmetry; apply Nat.ltb_ge; exact Hlen).
    reflexivity.
  - intros scans ui'. apply runScans_produced; assumption.
Qed.

Lemma scan_of_produced_piece_is_rejected_witness :
  let s := mkStore {[ "ws_BC123" := producedDoor ]} ∅ in
  let ui := mkScanUi "bc123" None false in
  let env := mkScanEnv "rui" "2024-02-02T08:00:00.000Z" "2024-02-02T08:00:00.001Z" true true in
  fst (handleScan "ws" s ui env "bc123") = s /\
  lastMsg (snd (handleScan "ws" s ui env "bc123"))
  = Some (Msg.mk error "Esta peça já foi bipada!" (Some producedDoor)).
Proof.
  intros s ui env.
  destruct (scan_of_produced_piece_is_rejected "ws" s ui env "bc123" producedDoor)
    as (H1 & H2 & _).
  - reflexivity.
  - reflexivity.
  - split; [exact H1|]. apply H2; [vm_compute; lia | reflexivity | reflexivity].
Defined.

(** C10. The scan looks a piece up under the workspace id, an underscore and
    the sanitised input; the CSV import stores it under the workspace id, an
    underscore and the trimmed barcode as it stands.  So when the barcode of
    an imported piece contains a lowercase letter or a character the
    sanitiser removes, no scan input leads to its document, and no series of
    scans changes that document: it is never marked PRODUZIDA by scanning. *)
Theorem csv_piece_with_lost_character_is_unscannable
    (ws : string) (validData : CsvRow.t) :
  existsChar lostByScan (CsvRow.barcode validData) = true ->
  Piece.id (mkPiece ws validData) = pieceId ws (CsvRow.barcode validData) /\
  (forall input,
     pieceId ws (sanitizeBarcode input) <> Piece.id (mkPiece ws validData)) /\
  (forall scans s ui,
     pieces (fst (runScans ws scans (s, ui))) !! Piece.id (mkPiece ws validData)
     = pieces s !! Piece.id (mkPiece ws validData)).
Proof.
  intros Hlost.
  assert (Hmiss : forall input,
             pieceId ws (sanitizeBarcode input) <> Piece.id (mkPiece ws validData))
    by (intros input; apply sanitizeBarcode_misses, Hlost).
  split; [reflexivity|]. split; [exact Hmiss|].
  intros scans s ui. apply runScans_unreachable, Hmiss.
Qed.

Lemma csv_piece_with_lost_character_is_unscannable_witness :
  existsChar lostByScan (CsvRow.barcode lowercaseDoor) = true /\
  forall input, pieceId "ws" (sanitizeBarcode input) <> "ws_bc123".
Proof.
  split; [reflexivity|].
  exact (proj1 (proj2 (csv_piece_with_lost_character_is_unscannable "ws" lowercaseDoor
                         eq_refl))).
Defined.

(** ** The staging and commit gate *)

Section GateFacts.

Variable ws : string.

Lemma trigger_in_flight (st : State) (t : Trigger) :
  isProcessingImport st = true ->
  trigger ws st t = st /\ startsRun ws st t = false.
Proof.
  intros Hbusy. destruct t as [|now]; unfold trigger, startsRun.
  - unfold handleAnalyze_begin. rewrite Hbusy. split; reflexivity.
  - unfold handleConfirm_begin. rewrite Hbusy.
    destruct (pendingData st); split; reflexivity.
Qed.

Lemma triggers_in_flight (ts : list Trigger) (st : State) :
  isProcessingImport st = true ->
  fold_left (trigger ws) ts st = st.
Proof.
  intros Hbusy. induction ts as [|t ts IH]; simpl; [reflexivity|].
  rewrite (proj1 (trigger_in_flight st t Hbusy)). exact IH.
Qed.

End GateFacts.

(** C8. While the in-flight guard is set, an invocation of analyze or of
    confirm returns at once: the state is untouched and nothing is started
    (no file read, no batch), however many times the operator triggers it;
    the run in flight therefore ends with the error collection and the
    preview it would have produced alone. *)
Theorem second_invocation_in_flight_is_noop (ws : string) (st : State) :
  isProcessingImport st = true ->
  handleAnalyze_begin st = (st, None) /\
  (forall now, handleConfirm_begin ws st now = (st, None)) /\
  (forall ts : list Trigger,
     fold_left (trigger ws) ts st = st /\
     Forall (fun t => startsRun ws st t = false) ts) /\
  (forall (ts : list Trigger) (file : File.t),
     handleAnalyze_end ws (fold_left (trigger ws) ts st) file
     = handleAnalyze_end ws st file) /\
  (forall (ts : list Trigger) (ok : bool),
     handleConfirm_end (fold_left (trigger ws) ts st) ok = handleConfirm_end st ok).
Proof.
  intros Hbusy. repeat split.
  - unfold handleAnalyze_begin. rewrite Hbusy. reflexivity.
  - intros now. unfold handleConfirm_begin. rewrite Hbusy.
    destruct (pendingData st); reflexivity.
  - apply triggers_in_flight, Hbusy.
  - apply List.Forall_forall. intros t _. apply (trigger_in_flight ws st t Hbusy).
  - intros ts file. rewrite (triggers_in_flight ws ts st Hbusy). reflexivity.
  - intros ts ok. rewrite (triggers_in_flight ws ts st Hbusy). reflexivity.
Qed.

Lemma second_invocation_in_flight_is_noop_witness :
  let st := fst (handleAnalyze_begin idleState) in
  isProcessingImport st = true /\
  handleAnalyze_begin st = (st, None) /\
  fold_left (trigger "ws") [Analyze; Analyze; Confirm "t"] st = st.
Proof.
  intros st.
  destruct (second_invocation_in_flight_is_noop "ws" st eq_refl) as (H1 & _ & H3 & _).
  split; [reflexivity|]. split; [exact H1|].
  exact (proj1 (H3 [Analyze; Analyze; Confirm "t"])).
Defined.

(** C2. When the batched commit of a staged import fails, the store is as
    before (no record is imported), [pendingData] and [previewData] are
    kept as they were and the guard is released, so confirm can be invoked
    again on the same staged data without a new analysis; the staged
    buffers are cleared when, and only when, the commit succeeds. *)
Theorem failed_commit_keeps_staged_data
    (ws : string) (s : Store) (st : State) (pending : Pending.t) (now : string) :
  pendingData st = Some pending ->
  isProcessingImport st = false ->
  let failed := handleConfirm ws s st now false in
  let done := handleConfirm ws s st now true in
  fst failed = s /\
  pendingData (snd failed) = Some pending /\
  previewData (snd failed) = previewData st /\
  isProcessingImport (snd failed) = false /\
  ImportStatus.type (importStatus (snd failed)) = Some error /\
  (forall now',
     snd (handleConfirm_begin ws (snd failed) now') = Some (confirmBatch ws pending now')) /\
  fst done = applyBatch s (confirmBatch ws pending now) /\
  pendingData (snd done) = None /\
  previewData (snd done) = None.
Proof.
  intros Hpend Hidle. unfold handleConfirm, handleConfirm_begin.
  rewrite Hpend, Hidle.
  repeat split; intros; cbn; rewrite ?Hpend; reflexivity.
Qed.

Lemma failed_commit_keeps_staged_data_witness :
  let failed := handleConfirm "ws" (mkStore ∅ ∅) analyzedState "t0" false in
  fst failed = mkStore ∅ ∅ /\
  pendingData (snd failed) = Some stagedDoor /\
  previewData (snd failed) = previewData analyzedState.
Proof.
  intros failed.
  destruct (failed_commit_keeps_staged_data "ws" (mkStore ∅ ∅) analyzedState stagedDoor "t0"
              eq_refl eq_refl) as (H1 & H2 & H3 & _).
  split; [exact H1|]. split; [exact H2|exact H3].
Defined.

(** ** The row extractor and the field validator *)

(** C5. A non-blank CSV line with fewer than 17 columns yields no record and
    exactly one error, of kind MISSING_REQUIRED_COLUMN and severity WARNING,
    for its line number; this holds whatever the field validator is, which
    is never consulted; in the row loop nothing but that error is added. *)
Theorem short_row_is_rejected_before_validation
    (ws : string) (validate : CsvRow.t -> Zod.SafeParse CsvRow.t)
    (i : nat) (rawLine : string) :
  Js.trim rawLine <> "" ->
  length (splitCols (Js.trim rawLine)) < 17 ->
  exists e : ImportError.t,
    processRowWith validate i rawLine = Rejected [e] /\
    ImportError.type e = MISSING_REQUIRED_COLUMN /\
    ImportError.severity e = WARNING /\
    ImportError.lineNumber e = Some (i + 1) /\
    forall acc : Acc,
      rowStep ws acc i rawLine
      = mkAcc (errorsList acc ++ [e]) (clientMap acc) (tempPecas acc) (linhasProcessadas acc).
Proof.
  intros Hline Hcols.
  exists (missingColumnError i (Js.trim rawLine) (splitCols (Js.trim rawLine))).
  assert (Hrow : forall v, processRowWith v i rawLine
                 = Rejected [missingColumnError i (Js.trim rawLine)
                               (splitCols (Js.trim rawLine))]).
  { intros v. unfold processRowWith.
    destruct (Js.trim rawLine) as [|c r] eqn:E; [congruence|].
    apply Nat.ltb_lt in Hcols. rewrite Hcols. reflexivity. }
  repeat split; try reflexivity; [apply Hrow|].
  intros acc. unfold rowStep, processRow. rewrite Hrow. reflexivity.
Qed.

Lemma short_row_is_rejected_before_validation_witness :
  exists e : ImportError.t,
    processRow 1 "a,b,c,d,e,f,g,h,i,j" = Rejected [e] /\
    ImportError.type e = MISSING_REQUIRED_COLUMN /\
    ImportError.severity e = WARNING.
Proof.
  destruct (short_row_is_rejected_before_validation "ws" validateCsvRow 1
              "a,b,c,d,e,f,g,h,i,j") as (e & H1 & H2 & H3 & _).
  - vm_compute. discriminate.
  - vm_compute. lia.
  - exists e. split; [exact H1|]. split; [exact H2|exact H3].
Defined.

Section ZodFacts.
Import Zod.

Lemma issuesOf_ap {A B} (rf : ParseReturn (A -> B)) (ra : ParseReturn A) :
  issuesOf (ap rf ra) = issuesOf rf ++ issuesOf ra.
Proof.
  unfold ap. destruct (valueOf rf), (valueOf ra); try reflexivity.
  destruct (issuesOf rf ++ issuesOf ra); reflexivity.
Qed.

Lemma safeParse_failure {A} (r : ParseReturn A) :
  issuesOf r <> [] -> safeParse r = Failure (issuesOf r).
Proof. destruct r; simpl; congruence. Qed.

Lemma safeParse_success {A} (r : ParseReturn A) (v : A) :
  safeParse r = Success v -> issuesOf r = [].
Proof. destruct r; simpl; congruence. Qed.

Lemma atPath_string checks : atPath (string_ checks).
Proof.
  intros p x. unfold string_.
  assert (H : Forall (fun i => path i = p) (flat_map (runCheck p x) checks)).
  { induction checks as [|c cs IH]; simpl; [constructor|].
    apply Forall_app. split; [|exact IH].
    destruct c; simpl;
      repeat (match goal with |- context [if ?b then _ else _] => destruct b end);
      repeat constructor. }
  destruct (flat_map (runCheck p x) checks); [constructor|exact H].
Qed.

Lemma atPath_transform {I} f (s : Schema I string) : atPath s -> atPath (transform f s).
Proof.
  intros Hs p x. unfold transform. specialize (Hs p x).
  destruct (s p x); simpl in *; auto.
Qed.

Lemma atPath_refine {I O} check msg (s : Schema I O) : atPath s -> atPath (refine check msg s).
Proof.
  intros Hs p x. unfold refine. specialize (Hs p x).
  destruct (s p x) as [v|v iss|iss]; simpl in *; auto.
  - destruct (check v); simpl; repeat constructor.
  - apply Forall_app. split; [exact Hs|].
    destruct (check v); repeat constructor.
Qed.

Lemma atPath_or {I O} (a b : Schema I O) : atPath a -> atPath b -> atPath (or a b).
Proof.
  intros Ha Hb p x. unfold or. specialize (Ha p x). specialize (Hb p x).
  destruct (a p x), (b p x); simpl in *; auto; repeat constructor.
Qed.

Lemma atPath_BarcodeSchema : atPath BarcodeSchema.
Proof. apply atPath_refine, atPath_transform, atPath_string. Qed.

Lemma atPath_DimensionValueSchema : atPath DimensionValueSchema.
Proof.
  apply atPath_or; [apply atPath_refine, atPath_transform|]; apply atPath_string.
Qed.

(** The issues of a CSV row, field by field in shape order. *)
Lemma CsvRowSchema_issues (raw : CsvRow.t) :
  issuesOf (CsvRowSchema raw)
  = issuesOf (string_ [Min 1 "Código do cliente ausente"] ["clientCode"] (CsvRow.clientCode raw))
    ++ issuesOf (transform Js.trim (string_ [Min 1 "Nome do cliente ausente"])
                   ["clientName"] (CsvRow.clientName raw))
    ++ issuesOf (string_ [Min 1 "Nome do projeto ausente"] ["projectName"]
                   (CsvRow.projectName raw))
    ++ issuesOf (BarcodeSchema ["barcode"] (CsvRow.barcode raw))
    ++ issuesOf (DimensionValueSchema ["comprimento"] (CsvRow.comprimento raw))
    ++ issuesOf (DimensionValueSchema ["largura"] (CsvRow.largura raw))
    ++ issuesOf (DimensionValueSchema ["espessura"] (CsvRow.espessura raw)).
Proof.
  unfold CsvRowSchema. rewrite !issuesOf_ap. unfold optional.
  change (issuesOf (string_ [] ?p ?x)) with (@nil ZodIssue).
  cbn [issuesOf]. rewrite !app_nil_r, <- !app_assoc. reflexivity.
Qed.

Lemma BarcodeSchema_issues (p : list string) (b : string) :
  issuesOf (BarcodeSchema p b)
  = match b with
    | EmptyString => [mkIssue too_small p "Código de barras é obrigatório"]
    | _ =>
        if 3 <=? String.length (Js.trim b) then []
        else [mkIssue custom p "Código de barras deve ter pelo menos 3 caracteres"]
    end.
Proof.
  destruct b as [|c r]; [reflexivity|].
  unfold BarcodeSchema, refine, transform, string_.
  cbn [flat_map runCheck String.length Nat.ltb Nat.leb app].
  destruct (3 <=? String.length (Js.trim (String c r))) eqn:E;
    unfold Nat.leb in E; rewrite E; reflexivity.
Qed.

Lemma DimensionValueSchema_invalid (p : list string) (d : string) :
  dimensionOk (normalizeDimension d) = false ->
  issuesOf (DimensionValueSchema p d) = [mkIssue custom p "Deve ser um número positivo"].
Proof.
  intros Hbad. unfold DimensionValueSchema, or, refine, transform.
  destruct d as [|c r]; [discriminate Hbad|].
  unfold string_ at 1. cbn [flat_map].
  fold (normalizeDimension (String c r)). rewrite Hbad.
  unfold string_. cbn [flat_map runCheck String.length Nat.ltb Nat.leb app].
  reflexivity.
Qed.

Lemma DimensionValueSchema_valid (p : list string) (d : string) :
  dimensionOk (normalizeDimension d) = true ->
  DimensionValueSchema p d = OK (normalizeDimension d).
Proof.
  intros Hok. unfold DimensionValueSchema, or, refine, transform.
  unfold string_ at 1. cbn [flat_map].
  fold (normalizeDimension d). rewrite Hok. reflexivity.
Qed.

End ZodFacts.

Section MappingFacts.
Import Zod.

Lemma mapZod_atField (issue : ZodIssue) (n : nat) (k : string) :
  path issue = [k] ->
  let e := mapZodErrorToImportError issue n CSV in
  ImportError.type e = fst (kindOfField k) /\
  ImportError.severity e = snd (kindOfField k) /\
  ImportError.field e = Some k /\
  ImportError.lineNumber e = Some n.
Proof.
  destruct issue as [c p m]. cbn [path]. intros ->.
  unfold kindOfField, mapZodErrorToImportError. cbn [path].
  destruct (includes [k] "comprimento" || includes [k] "largura");
    repeat split; reflexivity.
Qed.

Lemma ofType_mapped (ty : ImportErrorType) (k : string) (iss : list ZodIssue) (n : nat) :
  Forall (fun i => path i = [k]) iss ->
  ofType ty (map (fun issue => mapZodErrorToImportError issue n CSV) iss)
  = if bool_decide (fst (kindOfField k) = ty)
    then map (fun issue => mapZodErrorToImportError issue n CSV) iss else [].
Proof.
  intros H. destruct (bool_decide (fst (kindOfField k) = ty)) eqn:E;
    induction H as [|i iss Hi _ IH]; try reflexivity;
    unfold ofType in *; cbn [map List.filter]; rewrite IH;
    destruct (mapZod_atField i n k Hi) as (-> & _); rewrite E; reflexivity.
Qed.

Lemma ofField_mapped (k' k : string) (iss : list ZodIssue) (n : nat) :
  Forall (fun i => path i = [k]) iss ->
  ofField k' (map (fun issue => mapZodErrorToImportError issue n CSV) iss)
  = if bool_decide (k = k')
    then map (fun issue => mapZodErrorToImportError issue n CSV) iss else [].
Proof.
  intros H. destruct (bool_decide (k = k')) eqn:E;
    induction H as [|i iss Hi _ IH]; try reflexivity;
    unfold ofField in *; cbn [map List.filter]; rewrite IH;
    destruct (mapZod_atField i n k Hi) as (_ & _ & -> & _).
  - apply bool_decide_eq_true_1 in E as ->.
    rewrite bool_decide_eq_true_2; reflexivity.
  - apply bool_decide_eq_false_1 in E.
    rewrite bool_decide_eq_false_2; [reflexivity|congruence].
Qed.

Lemma ofType_app ty (a b : list ImportError.t) :
  ofType ty (a ++ b) = ofType ty a ++ ofType ty b.
Proof. apply List.filter_app. Qed.

Lemma ofField_app k (a b : list ImportError.t) :
  ofField k (a ++ b) = ofField k a ++ ofField k b.
Proof. apply List.filter_app. Qed.

(** A row with all its columns goes to the validator; what comes back
    decides. *)
Lemma processRow_validated (i : nat) (rawLine : string) :
  Js.trim rawLine <> "" ->
  17 <= length (splitCols (Js.trim rawLine)) ->
  processRow i rawLine
  = match validateCsvRow (rawDataOf (splitCols (Js.trim rawLine))) with
    | Failure issues =>
        Rejected (map (fun issue => mapZodErrorToImportError issue (i + 1) CSV) issues)
    | Success validData => Accepted validData
    end.
Proof.
  intros Hline Hcols. unfold processRow, processRowWith.
  destruct (Js.trim rawLine) as [|c r] eqn:E; [congruence|].
  replace (length (splitCols (String c r)) <? 17) with false
    by (symmetry; apply Nat.ltb_ge; exact Hcols).
  reflexivity.
Qed.

Lemma processRow_rejected (i : nat) (rawLine : string) :
  Js.trim rawLine <> "" ->
  17 <= length (splitCols (Js.trim rawLine)) ->
  issuesOf (CsvRowSchema (rawDataOf (splitCols (Js.trim rawLine)))) <> [] ->
  processRow i rawLine
  = Rejected (map (fun issue => mapZodErrorToImportError issue (i + 1) CSV)
                (issuesOf (CsvRowSchema (rawDataOf (splitCols (Js.trim rawLine)))))).
Proof.
  intros Hline Hcols Hiss. rewrite processRow_validated by assumption.
  unfold validateCsvRow. rewrite safeParse_failure by exact Hiss. reflexivity.
Qed.

(** A rejected row leaves the staged pieces and the client map alone. *)
Lemma rowStep_rejected (ws : string) (acc : Acc) (i : nat) (rawLine : string) errs :
  processRow i rawLine = Rejected errs ->
  rowStep ws acc i rawLine
  = mkAcc (errorsList acc ++ errs) (clientMap acc) (tempPecas acc) (linhasProcessadas acc).
Proof. intros H. unfold rowStep. rewrite H. reflexivity. Qed.

End MappingFacts.

(** Rewriting the errors of one kind, or of one field, of a rejected row
    into the issues of the fields that can raise them. *)
Ltac decide_closed :=
  repeat match goal with
         | |- context [bool_decide ?P] =>
             let b := eval vm_compute in (bool_decide P) in
             change (bool_decide P) with b
         end;
  cbv iota.

Ltac by_field :=
  rewrite CsvRowSchema_issues, !map_app;
  rewrite ?ofType_app, ?ofField_app;
  repeat first
    [ erewrite ofType_mapped
        by first [apply atPath_string | apply atPath_transform, atPath_string
                 | apply atPath_BarcodeSchema | apply atPath_DimensionValueSchema]
    | erewrite ofField_mapped
        by first [apply atPath_string | apply atPath_transform, atPath_string
                 | apply atPath_BarcodeSchema | apply atPath_DimensionValueSchema] ];
  decide_closed; rewrite ?app_nil_l, ?app_nil_r.

(** C4.  A CSV row with its 17 columns whose barcode field, trimmed, has
    fewer than 3 characters is rejected, and the validator raises for it
    exactly one error of kind INVALID_BARCODE_FORMAT: it has severity
    ERROR, names the barcode field and the line, and is the only error
    raised for that field.  An empty field fails the required rule, which
    ends the parse of the field; any other fails the length rule. *)
Theorem short_barcode_raises_one_barcode_error (i : nat) (rawLine : string) :
  let cols := splitCols (Js.trim rawLine) in
  let b := CsvRow.barcode (rawDataOf cols) in
  Js.trim rawLine <> "" ->
  17 <= length cols ->
  String.length (Js.trim b) < 3 ->
  exists (errs : list ImportError.t) (e : ImportError.t),
    processRow i rawLine = Rejected errs /\
    ofType INVALID_BARCODE_FORMAT errs = [e] /\
    ofField "barcode" errs = [e] /\
    ImportError.severity e = ERROR /\
    ImportError.field e = Some "barcode" /\
    ImportError.lineNumber e = Some (i + 1).
Proof.
  intros cols b Hline Hcols Hshort.
  set (raw := rawDataOf cols) in *. subst b.
  assert (Hone : exists issue,
             Zod.issuesOf (BarcodeSchema ["barcode"] (CsvRow.barcode raw)) = [issue]).
  { rewrite BarcodeSchema_issues. destruct (CsvRow.barcode raw) as [|c r]; [eexists; reflexivity|].
    replace (3 <=? String.length (Js.trim (String c r))) with false
      by (symmetry; apply Nat.leb_gt; exact Hshort).
    eexists; reflexivity. }
  destruct Hone as (issue & Hone).
  pose proof (atPath_BarcodeSchema ["barcode"] (CsvRow.barcode raw)) as Hp.
  rewrite Hone in Hp. apply Forall_inv in Hp.
  destruct (mapZod_atField issue (i + 1) "barcode" Hp) as (_ & H2 & H3 & H4).
  exists (map (fun issue => mapZodErrorToImportError issue (i + 1) CSV)
              (Zod.issuesOf (CsvRowSchema raw))),
         (mapZodErrorToImportError issue (i + 1) CSV).
  split; [|split; [|split]].
  - apply processRow_rejected; [assumption..|].
    rewrite CsvRowSchema_issues. pose proof Hone as Hone'.
    unfold raw, cols in Hone'. rewrite Hone'. intros H.
    apply (f_equal (@length _)) in H. rewrite !length_app in H.
    cbn [length] in H. lia.
  - by_field. rewrite Hone. reflexivity.
  - by_field. rewrite Hone. reflexivity.
  - auto.
Qed.

Lemma short_barcode_raises_one_barcode_error_witness :
  exists (errs : list ImportError.t) (e : ImportError.t),
    processRow 1 noBarcodeLine = Rejected errs /\
    ofType INVALID_BARCODE_FORMAT errs = [e].
Proof.
  destruct (short_barcode_raises_one_barcode_error 1 noBarcodeLine)
    as (errs & e & H1 & H2 & _).
  - vm_compute. discriminate.
  - vm_compute. lia.
  - vm_compute. lia.
  - exists errs, e. split; [exact H1|exact H2].
Defined.

(** C3, as amended.  A CSV row with its 17 columns whose comprimento or
    largura field is neither empty nor a non-negative number, after trimming
    and comma-to-dot normalisation, is rejected: the validator records for
    that field exactly one error, of kind INVALID_MEASUREMENTS and severity
    WARNING, and the row loop stages no piece and no client for the row. *)
Theorem invalid_dimension_warns_and_skips_row
    (ws : string) (i : nat) (rawLine : string) (d : Dimension) :
  let cols := splitCols (Js.trim rawLine) in
  d <> Espessura ->
  Js.trim rawLine <> "" ->
  17 <= length cols ->
  dimensionOk (normalizeDimension (dimValue d (rawDataOf cols))) = false ->
  exists (errs : list ImportError.t) (e : ImportError.t),
    processRow i rawLine = Rejected errs /\
    ofField (dimKey d) errs = [e] /\
    ImportError.type e = INVALID_MEASUREMENTS /\
    ImportError.severity e = WARNING /\
    ImportError.lineNumber e = Some (i + 1) /\
    forall acc : Acc,
      tempPecas (rowStep ws acc i rawLine) = tempPecas acc /\
      clientMap (rowStep ws acc i rawLine) = clientMap acc /\
      linhasProcessadas (rowStep ws acc i rawLine) = linhasProcessadas acc.
Proof.
  intros cols Hd Hline Hcols Hbad.
  set (raw := rawDataOf cols) in *.
  set (M := fun issue => mapZodErrorToImportError issue (i + 1) CSV).
  assert (Hiss : Zod.issuesOf (DimensionValueSchema [dimKey d] (dimValue d raw))
                 = [Zod.mkIssue Zod.custom [dimKey d] "Deve ser um número positivo"])
    by (apply DimensionValueSchema_invalid, Hbad).
  assert (Hrow : processRow i rawLine = Rejected (map M (Zod.issuesOf (CsvRowSchema raw)))).
  { apply processRow_rejected; [assumption..|].
    fold cols. fold raw. rewrite CsvRowSchema_issues. intros H.
    apply (f_equal (@length _)) in H. rewrite !length_app in H.
    apply (f_equal (@length _)) in Hiss.
    destruct d; [| |congruence]; cbn [dimKey dimValue length] in Hiss, H; lia. }
  exists (map M (Zod.issuesOf (CsvRowSchema raw))),
         (M (Zod.mkIssue Zod.custom [dimKey d] "Deve ser um número positivo")).
  split; [exact Hrow|]. split.
  - unfold M.
    destruct d; [| |congruence]; cbn [dimKey dimValue] in *; by_field;
      rewrite Hiss; reflexivity.
  - split; [|split; [|split]].
    + destruct d; [reflexivity|reflexivity|congruence].
    + destruct d; [reflexivity|reflexivity|congruence].
    + destruct d; [reflexivity|reflexivity|congruence].
    + intros acc. rewrite (rowStep_rejected ws acc i rawLine _ Hrow). auto.
Qed.

Lemma invalid_dimension_warns_and_skips_row_witness :
  exists (errs : list ImportError.t) (e : ImportError.t),
    processRow 1 badLengthLine = Rejected errs /\
    ofField "comprimento" errs = [e] /\
    ImportError.type e = INVALID_MEASUREMENTS /\
    ImportError.severity e = WARNING.
Proof.
  destruct (invalid_dimension_warns_and_skips_row "ws" 1 badLengthLine Comprimento)
    as (errs & e & H1 & H2 & H3 & H4 & _).
  - discriminate.
  - vm_compute. discriminate.
  - vm_compute. lia.
  - vm_compute. reflexivity.
  - exists errs, e. auto.
Defined.

(** C3, as stated, fails: a row whose length column is "abc" gets its
    warning but is not imported; the analysis of a file that holds just this
    row stages no piece at all. *)
Lemma invalid_dimension_row_is_not_imported :
  let cols := splitCols (Js.trim badLengthLine) in
  17 <= length cols /\
  CsvRow.comprimento (rawDataOf cols) = "abc" /\
  dimensionOk (normalizeDimension "abc") = false /\
  (exists e : ImportError.t,
     processRow 1 badLengthLine = Rejected [e] /\
     ImportError.type e = INVALID_MEASUREMENTS /\
     ImportError.severity e = WARNING) /\
  tempPecas (rowLoop "ws" 1 [badLengthLine] emptyAcc) = [] /\
  pendingData
    (handleAnalyze_end "ws" (fst (handleAnalyze_begin idleState))
       (File.mk 128 (Some ("header" +:+ String LF badLengthLine))))
  = None.
Proof.
  split; [vm_compute; lia|]. split; [reflexivity|]. split; [reflexivity|].
  split; [eexists; split; [vm_compute; reflexivity|split; reflexivity]|].
  split; vm_compute; reflexivity.
Qed.

(** The thickness field is outside the measurement mapping: an invalid
    thickness is reported as a plain validation error of severity ERROR. *)
Lemma invalid_thickness_is_an_error :
  exists e : ImportError.t,
    processRow 1 badThicknessLine = Rejected [e] /\
    ImportError.field e = Some "espessura" /\
    ImportError.type e = VALIDATION_ERROR /\
    ImportError.severity e = ERROR.
Proof. eexists. split; [vm_compute; reflexivity|]. repeat split; reflexivity. Qed.

(** A row with every field in order is accepted with no error. *)
Lemma good_row_is_accepted :
  processRow 1 goodLine
  = Accepted (CsvRow.mk "C001" "Acme" "Kitchen-A" "BC123" "Mod1" "Door"
                        "10" "20" "18" "MDF" "Branco").
Proof. vm_compute. reflexivity. Qed.

(** ** The commit *)

Section StoreFacts.

Lemma pieces_applyBatch (batch : list Write) (s : Store) :
  pieces (applyBatch s batch) = fold_left putPiece (pieceWrites batch) (pieces s).
Proof.
  unfold applyBatch. revert s.
  induction batch as [|w batch IH]; intros s; [reflexivity|].
  cbn [fold_left]. rewrite IH. destruct w; reflexivity.
Qed.

Lemma lookup_putPieces (l : list (string * Piece.t)) (m : gmap string Piece.t) (k : string) :
  fold_left putPiece l m !! k
  = match lastWrite k l with Some v => Some v | None => m !! k end.
Proof.
  revert m. induction l as [|w l IH]; intros m; [reflexivity|].
  cbn [fold_left lastWrite]. rewrite IH.
  destruct (lastWrite k l); [reflexivity|].
  unfold putPiece. rewrite lookup_insert. destruct (decide (fst w = k)); reflexivity.
Qed.

Lemma putPieces_idempotent (l : list (string * Piece.t)) (m : gmap string Piece.t) :
  fold_left putPiece l (fold_left putPiece l m) = fold_left putPiece l m.
Proof.
  apply map_eq. intros k. rewrite !lookup_putPieces.
  destruct (lastWrite k l); reflexivity.
Qed.

(** Applying a batch after one with the same piece writes changes no piece
    document. *)
Lemma recommit_pieces (s : Store) (b1 b2 : list Write) :
  pieceWrites b1 = pieceWrites b2 ->
  pieces (applyBatch (applyBatch s b1) b2) = pieces (applyBatch s b1).
Proof.
  intros H. rewrite (pieces_applyBatch b2), (pieces_applyBatch b1), <- H.
  apply putPieces_idempotent.
Qed.

Variable ws : string.

Lemma pieceWrites_app (a b : list Write) :
  pieceWrites (a ++ b) = pieceWrites a ++ pieceWrites b.
Proof. apply flat_map_app. Qed.

Lemma pieceWrites_confirmBatch (pending : Pending.t) (now : string) :
  pieceWrites (confirmBatch ws pending now)
  = map (fun p => (Piece.id p, p)) (Pending.tempPecas pending).
Proof.
  unfold confirmBatch. rewrite pieceWrites_app.
  replace (pieceWrites (map _ (uniqueProjsOf pending))) with (@nil (string * Piece.t)).
  - cbn [app]. induction (Pending.tempPecas pending) as [|p l IH]; [reflexivity|].
    cbn. f_equal. exact IH.
  - induction (uniqueProjsOf pending) as [|e l IH]; [reflexivity|exact IH].
Qed.

Lemma pieceWrites_promobStep (now : string) (items : list PromobItem.t)
    (acc : list Write * list string) :
  pieceWrites (fst (fold_left (promobStep ws now) items acc))
  = pieceWrites (fst acc) ++ flat_map (promobWrite ws) items.
Proof.
  revert acc. induction items as [|item items IH]; intros acc.
  - cbn. rewrite app_nil_r. reflexivity.
  - cbn [fold_left flat_map]. rewrite IH, app_assoc. f_equal.
    unfold promobStep, promobWrite. destruct acc as [writes newProjects].
    destruct (promobBarcode (PromobItem.codItem item)) as [|c r];
      [rewrite app_nil_r; reflexivity|].
    cbn [fst snd]. destruct (existsb _ newProjects); cbn [fst];
      rewrite ?pieceWrites_app; cbn [pieceWrites flat_map app];
      rewrite ?app_nil_r; reflexivity.
Qed.

Lemma pieceWrites_promobBatch (items : list PromobItem.t) (now : string) :
  pieceWrites (promobBatch ws items now) = flat_map (promobWrite ws) items.
Proof. unfold promobBatch. rewrite pieceWrites_promobStep. reflexivity. Qed.

Lemma rowLoop_accepted (lines : list string) (i : nat) (acc : Acc) :
  tempPecas (rowLoop ws i lines acc)
  = tempPecas acc ++ map (mkPiece ws) (acceptedRows i lines) /\
  clientMap (rowLoop ws i lines acc)
  = fold_left registerClient (acceptedRows i lines) (clientMap acc).
Proof.
  revert i acc. induction lines as [|rawLine lines IH]; intros i acc.
  - cbn. rewrite app_nil_r. split; reflexivity.
  - cbn [rowLoop acceptedRows]. destruct (IH (S i) (rowStep ws acc i rawLine)) as [-> ->].
    unfold rowStep. destruct (processRow i rawLine); cbn [tempPecas clientMap].
    + split; reflexivity.
    + split; reflexivity.
    + rewrite <- app_assoc. split; reflexivity.
Qed.

End StoreFacts.

(** C1. The document id of an imported piece is the workspace id, an
    underscore and the barcode: of the validated barcode for a CSV row, of
    the normalised item code for a PDF item; every piece write of a commit
    goes to the document of that id.  Committing the same staged batch a
    second time overwrites the same documents with the same values: the
    persisted piece set, and so the piece count, is what it was after the
    first commit. *)
Theorem import_commit_is_idempotent (ws : string) :
  (forall (lines : list string),
     Forall (fun p => exists validData,
                 In validData (acceptedRows 1 lines) /\
                 p = mkPiece ws validData /\
                 Piece.id p = pieceId ws (CsvRow.barcode validData))
            (tempPecas (rowLoop ws 1 lines emptyAcc))) /\
  (forall (pending : Pending.t) (now : string),
     pieceWrites (confirmBatch ws pending now)
     = map (fun p => (Piece.id p, p)) (Pending.tempPecas pending)) /\
  (forall (items : list PromobItem.t) (now : string),
     Forall (fun w => exists item,
                 In item items /\
                 fst w = pieceId ws (promobBarcode (PromobItem.codItem item)) /\
                 Piece.id (snd w) = fst w)
            (pieceWrites (promobBatch ws items now))) /\
  (forall (s : Store) (pending : Pending.t) (now1 now2 : string),
     let once := applyBatch s (confirmBatch ws pending now1) in
     let twice := applyBatch once (confirmBatch ws pending now2) in
     pieces twice = pieces once /\ size (pieces twice) = size (pieces once)) /\
  (forall (s : Store) (items : list PromobItem.t) (now1 now2 : string),
     let once := applyBatch s (promobBatch ws items now1) in
     let twice := applyBatch once (promobBatch ws items now2) in
     pieces twice = pieces once /\ size (pieces twice) = size (pieces once)).
Proof.
  split; [|split; [|split; [|split]]].
  - intros lines. destruct (rowLoop_accepted ws lines 1 emptyAcc) as [-> _].
    cbn [tempPecas emptyAcc app]. apply List.Forall_forall. intros p Hp.
    apply in_map_iff in Hp as (v & <- & Hv). exists v. auto.
  - apply pieceWrites_confirmBatch.
  - intros items now. rewrite pieceWrites_promobBatch.
    apply List.Forall_forall. intros w Hw.
    apply in_flat_map in Hw as (item & Hitem & Hw). exists item.
    unfold promobWrite in Hw.
    destruct (promobBarcode (PromobItem.codItem item)) as [|c r]; [destruct Hw|].
    destruct Hw as [<-|[]]. auto.
  - intros s pending now1 now2 once twice.
    assert (H : pieces twice = pieces once).
    { apply recommit_pieces. rewrite !pieceWrites_confirmBatch. reflexivity. }
    rewrite H. auto.
  - intros s items now1 now2 once twice.
    assert (H : pieces twice = pieces once).
    { apply recommit_pieces. rewrite !pieceWrites_promobBatch. reflexivity. }
    rewrite H. auto.
Qed.

(** ** The PDF duplicate check *)

Lemma trimStart_head (s : string) :
  match Js.trimStart s with
  | EmptyString => True
  | String c _ => Js.isWhiteSpace c = false
  end.
Proof.
  induction s as [|c s IH]; simpl; [exact I|].
  destruct (Js.isWhiteSpace c) eqn:E; [exact IH|exact E].
Qed.

Lemma trimEnd_idempotent (s : string) : Js.trimEnd (Js.trimEnd s) = Js.trimEnd s.
Proof.
  induction s as [|c s IH]; [reflexivity|].
  cbn [Js.trimEnd]. destruct (Js.trimEnd s) as [|d r] eqn:E.
  - destruct (Js.isWhiteSpace c) eqn:Ec; [reflexivity|].
    cbn [Js.trimEnd]. rewrite Ec. reflexivity.
  - change (Js.trimEnd (String c (String d r)))
      with (match Js.trimEnd (String d r) with
            | EmptyString => if Js.isWhiteSpace c then EmptyString else String c EmptyString
            | r' => String c r'
            end).
    rewrite IH. reflexivity.
Qed.

Lemma trimStart_trimEnd (s : string) :
  match s with EmptyString => True | String c _ => Js.isWhiteSpace c = false end ->
  Js.trimStart (Js.trimEnd s) = Js.trimEnd s.
Proof.
  destruct s as [|c s]; [reflexivity|]. intros Hc.
  cbn [Js.trimEnd]. destruct (Js.trimEnd s); [rewrite Hc|]; cbn [Js.trimStart];
    rewrite Hc; reflexivity.
Qed.

Lemma trim_idempotent (s : string) : Js.trim (Js.trim s) = Js.trim s.
Proof.
  unfold Js.trim. rewrite trimStart_trimEnd by apply trimStart_head.
  apply trimEnd_idempotent.
Qed.

Lemma isSuffix_refl (s : string) : Js.isSuffix s s = true.
Proof. destruct s; simpl; rewrite ?Ascii.eqb_refl, ?String.eqb_refl; reflexivity. Qed.

Lemma isSuffix_app (a s suf : string) :
  Js.isSuffix suf s = true -> Js.isSuffix suf (a +:+ s) = true.
Proof.
  intros H. induction a as [|c a IH]; [exact H|].
  change (Js.isSuffix suf (String c a +:+ s))
    with (String.eqb suf (String c (a +:+ s)) || Js.isSuffix suf (a +:+ s)).
  rewrite IH. apply orb_true_r.
Qed.

Lemma endsWith_pieceId (ws barcode : string) :
  Js.endsWith (pieceId ws barcode) barcode = true.
Proof.
  unfold Js.endsWith, pieceId. apply isSuffix_app, isSuffix_app, isSuffix_refl.
Qed.

Section ZodValues.
Import Zod.

Lemma valueOf_ap {A B} (rf : ParseReturn (A -> B)) (ra : ParseReturn A) :
  valueOf (ap rf ra)
  = match valueOf rf, valueOf ra with
    | Some f, Some a => Some (f a)
    | _, _ => None
    end.
Proof.
  unfold ap. destruct (valueOf rf), (valueOf ra); try reflexivity.
  destruct (issuesOf rf ++ issuesOf ra); reflexivity.
Qed.

Lemma valueOf_BarcodeSchema (p : list string) (x v : string) :
  valueOf (BarcodeSchema p x) = Some v -> v = Js.trim x.
Proof.
  destruct x as [|c r]; [discriminate|].
  unfold BarcodeSchema, refine, transform, string_.
  cbn [flat_map runCheck String.length Nat.ltb Nat.leb app].
  match goal with |- context [if ?b then _ else _] => destruct b end;
    cbn [valueOf]; congruence.
Qed.

Lemma valueOf_safeParse {A} (r : ParseReturn A) (v : A) :
  safeParse r = Success v -> valueOf r = Some v.
Proof. destruct r; simpl; congruence. Qed.

Lemma PdfItemSchema_codItem (raw data : PdfItem.t) :
  safeParse (PdfItemSchema raw) = Success data ->
  PdfItem.codItem data = Js.trim (PdfItem.codItem raw).
Proof.
  intros H. apply valueOf_safeParse in H. unfold PdfItemSchema in H.
  rewrite !valueOf_ap in H. cbn [valueOf] in H.
  pose proof (valueOf_BarcodeSchema ["codItem"] (PdfItem.codItem raw)) as Hb.
  repeat match type of H with
         | context [match valueOf ?r with Some _ => _ | None => _ end] =>
             destruct (valueOf r); [|discriminate H]
         end.
  injection H as <-. cbn [PdfItem.codItem]. apply Hb. reflexivity.
Qed.

End ZodValues.

Section PdfFacts.

Variable randomUUID : nat -> string.
Variable loaded : list Piece.t.

Lemma reviewItem_duplicate (ws : string) (n i : nat) (rawItem : PdfItem.t) (p : Piece.t) :
  Js.trim (PdfItem.codItem rawItem) = PdfItem.codItem rawItem ->
  In p loaded ->
  Piece.id p = pieceId ws (PdfItem.codItem rawItem) ->
  flaggedAs (PdfItem.codItem rawItem) (fst (reviewItem randomUUID loaded n i rawItem)).
Proof.
  intros Htrim Hp Hid.
  assert (Hdup : isDuplicate loaded (PdfItem.codItem rawItem) = true).
  { unfold isDuplicate. apply existsb_exists. exists p. split; [exact Hp|].
    rewrite Hid. apply endsWith_pieceId. }
  unfold reviewItem, flaggedAs, duplicateMessage.
  destruct (Zod.safeParse (PdfItemSchema rawItem)) as [data|issues] eqn:E.
  - pose proof (PdfItemSchema_codItem _ _ E) as Hcod. rewrite Htrim in Hcod.
    cbn [fst PromobItem.codItem PromobItem.isValid PromobItem.errors].
    rewrite Hcod, Hdup, Htrim. repeat split. left. reflexivity.
  - cbn [fst PromobItem.codItem PromobItem.isValid PromobItem.errors].
    rewrite Hdup, Htrim. repeat split. apply in_or_app. right. left. reflexivity.
Qed.

Lemma processCell_kept (n i : nat) (cell : Cell.t) :
  (PdfItem.codItem (rawItemOf cell) <> "" \/ Cell.pecaMatch cell <> None) ->
  processCell randomUUID loaded n i cell
  = Some (reviewItem randomUUID loaded n i (rawItemOf cell)).
Proof.
  intros Hkept. unfold processCell.
  destruct (PdfItem.codItem (rawItemOf cell)); [|reflexivity].
  destruct (Cell.pecaMatch cell); [reflexivity|].
  destruct Hkept; congruence.
Qed.

Lemma cellStep_keeps (i : nat) (cell : Cell.t) acc item :
  In item (fst acc) -> In item (fst (cellStep randomUUID loaded i acc cell)).
Proof.
  intros H. unfold cellStep.
  destruct (processCell randomUUID loaded (length (fst acc)) i cell) as [[it errs]|];
    [|exact H].
  cbn [fst]. apply in_or_app. left. exact H.
Qed.

Lemma cells_keep (i : nat) (cells : list Cell.t) acc item :
  In item (fst acc) ->
  In item (fst (fold_left (cellStep randomUUID loaded i) cells acc)).
Proof.
  revert acc. induction cells as [|c cells IH]; intros acc H; [exact H|].
  cbn [fold_left]. apply IH, cellStep_keeps, H.
Qed.

Lemma pageLoop_keeps (pages : list (option (list Cell.t))) (i : nat) acc item :
  In item (fst acc) -> In item (fst (pageLoop randomUUID loaded i pages acc)).
Proof.
  revert i acc. induction pages as [|[cells|] pages IH]; intros i acc H; [exact H| |].
  - cbn [pageLoop]. apply IH, cells_keep, H.
  - cbn [pageLoop]. apply IH. exact H.
Qed.

(** A property of the item a label cell yields, whatever its position,
    holds of some item of the extracted list. *)
Lemma cells_list (Q : PromobItem.t -> Prop) (i : nat) (cell : Cell.t)
    (cells : list Cell.t) acc :
  (forall n, exists item errs,
      processCell randomUUID loaded n i cell = Some (item, errs) /\ Q item) ->
  In cell cells ->
  exists item,
    In item (fst (fold_left (cellStep randomUUID loaded i) cells acc)) /\ Q item.
Proof.
  intros Hcell. revert acc.
  induction cells as [|c cells IH]; intros acc Hin; [destruct Hin|].
  cbn [fold_left]. destruct Hin as [->|Hin]; [|apply IH, Hin].
  destruct (Hcell (length (fst acc))) as (item & errs & Hp & HQ).
  exists item. split; [|exact HQ].
  apply cells_keep. unfold cellStep. rewrite Hp. cbn [fst].
  apply in_or_app. right. left. reflexivity.
Qed.

Lemma pages_list (Q : PromobItem.t -> Prop) (cell : Cell.t) (cells : list Cell.t)
    (pages : list (option (list Cell.t))) (i : nat) acc :
  (forall n j, exists item errs,
      processCell randomUUID loaded n j cell = Some (item, errs) /\ Q item) ->
  In (Some cells) pages ->
  In cell cells ->
  exists item, In item (fst (pageLoop randomUUID loaded i pages acc)) /\ Q item.
Proof.
  intros Hcell Hpage Hin. revert i acc.
  induction pages as [|pg pages IH]; intros i acc; [destruct Hpage|].
  destruct Hpage as [->|Hpage].
  - cbn [pageLoop].
    destruct (cells_list Q i cell cells acc (fun n => Hcell n i) Hin) as (item & Hi & HQ).
    exists item. split; [|exact HQ]. apply pageLoop_keeps, Hi.
  - destruct pg as [cs|]; cbn [pageLoop]; apply IH, Hpage.
Qed.

End PdfFacts.

(** The duplicate check at work.  For a label cell that is not blank, when
    a piece whose id is the workspace id, an underscore and the item code
    as written on the label is among the loaded pieces, the record is
    marked invalid, carries the message that the code already exists, and
    is still pushed on the list of extracted items that the review grid
    shows. *)
Theorem pdf_duplicate_is_flagged_and_listed
    (ws : string) (randomUUID : nat -> string) (loaded : list Piece.t)
    (cell : Cell.t) (p : Piece.t) :
  let codItem := PdfItem.codItem (rawItemOf cell) in
  (codItem <> "" \/ Cell.pecaMatch cell <> None) ->
  In p loaded ->
  Piece.id p = pieceId ws codItem ->
  (forall n i, exists item errs,
      processCell randomUUID loaded n i cell = Some (item, errs) /\
      flaggedAs codItem item) /\
  (forall i acc, exists item errs,
      cellStep randomUUID loaded i acc cell = (fst acc ++ [item], snd acc ++ errs) /\
      flaggedAs codItem item) /\
  (forall pages cells,
      In (Some cells) pages -> In cell cells ->
      exists item,
        In item (fst (extractPdf randomUUID loaded pages)) /\ flaggedAs codItem item).
Proof.
  intros codItem Hkept Hp Hid.
  assert (Hcell : forall n i, exists item errs,
             processCell randomUUID loaded n i cell = Some (item, errs) /\
             flaggedAs codItem item).
  { intros n i. rewrite processCell_kept by exact Hkept.
    destruct (reviewItem randomUUID loaded n i (rawItemOf cell)) as [item errs] eqn:E.
    exists item, errs. split; [reflexivity|].
    change item with (fst (item, errs)). rewrite <- E.
    apply (reviewItem_duplicate randomUUID loaded ws n i (rawItemOf cell) p);
      [apply trim_idempotent|exact Hp|exact Hid]. }
  split; [exact Hcell|]. split.
  - intros i acc. destruct (Hcell (length (fst acc)) i) as (item & errs & Hpc & Hf).
    exists item, errs. split; [|exact Hf]. unfold cellStep. rewrite Hpc. reflexivity.
  - intros pages cells Hpage Hin. unfold extractPdf.
    apply (pages_list randomUUID loaded (flaggedAs codItem) cell cells); assumption.
Qed.

Lemma pdf_duplicate_is_flagged_and_listed_witness :
  exists item,
    In item (fst (extractPdf (fun _ => "uuid") [producedDoor] [Some [takenCell]])) /\
    flaggedAs "BC123" item.
Proof.
  destruct (pdf_duplicate_is_flagged_and_listed "ws" (fun _ => "uuid") [producedDoor]
              takenCell producedDoor) as (_ & _ & H).
  - left. vm_compute. discriminate.
  - left. reflexivity.
  - reflexivity.
  - apply (H [Some [takenCell]] [takenCell]); left; reflexivity.
Defined.

(** C6.  The duplicate check misses a record whose derived identifier is
    taken.  It tests whether the id of a loaded piece ends with the item
    code as written on the label, while [savePromobData] derives the
    identifier from the code stripped of everything but letters and digits
    and put in capitals.  With the produced piece ws_BC123 loaded, the
    label "bc-123" has that identifier, yet it is extracted as a valid item
    without any message, no error reaches the panel, and saving the grid
    replaces the produced piece by a pending one. *)
Theorem pdf_duplicate_under_derived_identifier_is_missed (now : string) :
  let s := mkStore {[ "ws_BC123" := producedDoor ]} ∅ in
  let st := processPdfFile (fun _ => "uuid") [producedDoor] pdfChosen
              (Opened [Some [hyphenCell]]) in
  pieceId "ws" (promobBarcode (PdfItem.codItem (rawItemOf hyphenCell)))
  = Piece.id producedDoor /\
  Piece.status producedDoor = PRODUZIDA /\
  (exists item,
     promobItems st = [item] /\
     PromobItem.codItem item = "bc-123" /\
     PromobItem.isValid item = true /\
     PromobItem.errors item = []) /\
  pdfGlobalErrors st = [] /\
  option_map Piece.status (pieces (fst (savePromobData "ws" s st now true)) !! "ws_BC123")
  = Some PENDENTE.
Proof.
  cbn zeta. split; [reflexivity|]. split; [reflexivity|]. split; [|split].
  - eexists. split; [vm_compute; reflexivity|]. repeat split; reflexivity.
  - vm_compute. reflexivity.
  - vm_compute. reflexivity.
Qed.

(** ** The aggregator *)

Section AggregatorFacts.

Lemma find_app_last {A} (P : A -> bool) (l : list A) (x : A) :
  List.find P (l ++ [x])
  = match List.find P l with
    | Some y => Some y
    | None => if P x then Some x else None
    end.
Proof.
  induction l as [|a l IH]; cbn; [destruct (P x); reflexivity|].
  destruct (P a); [reflexivity|exact IH].
Qed.

Lemma find_existsb_false {A} (P : A -> bool) (l : list A) :
  existsb P l = false -> List.find P l = None.
Proof.
  induction l as [|a l IH]; cbn; [reflexivity|].
  destruct (P a); [discriminate|exact IH].
Qed.

Lemma find_existsb_true {A} (P : A -> bool) (l : list A) :
  existsb P l = true -> exists y, List.find P l = Some y.
Proof.
  induction l as [|a l IH]; cbn; [discriminate|].
  destruct (P a); [eauto|exact IH].
Qed.

(** *** The set of modules *)

Lemma setAdd_In (x y : string) (s : list string) :
  In y (setAdd x s) <-> y = x \/ In y s.
Proof.
  unfold setAdd. destruct (existsb (String.eqb x) s) eqn:E.
  - split; [auto|]. intros [->|H]; [|exact H].
    apply existsb_exists in E as (z & Hz & Heq).
    apply String.eqb_eq in Heq as ->. exact Hz.
  - rewrite in_app_iff. cbn. split; [intros [H|[H|[]]]|intros [H|H]]; auto.
Qed.

Lemma setAdd_NoDup (x : string) (s : list string) : NoDup s -> NoDup (setAdd x s).
Proof.
  intros H. unfold setAdd. destruct (existsb (String.eqb x) s) eqn:E; [exact H|].
  apply NoDup_app. split; [exact H|]. split; [|apply NoDup_singleton].
  intros y Hy Hx%list_elem_of_singleton. subst y.
  apply list_elem_of_In in Hy.
  assert (existsb (String.eqb x) s = true)
    by (apply existsb_exists; exists x; split; [exact Hy|apply String.eqb_refl]).
  congruence.
Qed.

Lemma modules_In (qs : list Piece.t) (ms : list string) (y : string) :
  In y (fold_left (fun ms p => setAdd (Piece.modulo p) ms) qs ms)
  <-> In y ms \/ In y (map Piece.modulo qs).
Proof.
  revert ms. induction qs as [|q qs IH]; intros ms; cbn [fold_left map].
  - cbn. tauto.
  - rewrite IH, setAdd_In. cbn. intuition congruence.
Qed.

Lemma modules_NoDup (qs : list Piece.t) (ms : list string) :
  NoDup ms -> NoDup (fold_left (fun ms p => setAdd (Piece.modulo p) ms) qs ms).
Proof.
  revert ms. induction qs as [|q qs IH]; intros ms H; [exact H|].
  cbn [fold_left]. apply IH, setAdd_NoDup, H.
Qed.

Lemma modules_Permutation (qs qs' : list Piece.t) :
  Permutation qs qs' ->
  length (fold_left (fun ms p => setAdd (Piece.modulo p) ms) qs [])
  = length (fold_left (fun ms p => setAdd (Piece.modulo p) ms) qs' []).
Proof.
  intros H. apply Permutation_length, NoDup_Permutation.
  - apply modules_NoDup, NoDup_nil_2.
  - apply modules_NoDup, NoDup_nil_2.
  - intros y. rewrite !list_elem_of_In, !modules_In.
    assert (In y (map Piece.modulo qs) <-> In y (map Piece.modulo qs')).
    { split; apply Permutation_in; [|symmetry]; apply Permutation_map, H. }
    tauto.
Qed.

(** *** The per-project statistics *)

Lemma lookupStats_app_last (k k' : string) (st : Stats.t) (stats : list (string * Stats.t)) :
  lookupStats k (stats ++ [(k', st)])
  = match lookupStats k stats with
    | Some x => Some x
    | None => if String.eqb k' k then Some st else None
    end.
Proof.
  unfold lookupStats. rewrite find_app_last.
  destruct (List.find _ stats); [reflexivity|].
  cbn [fst]. destruct (String.eqb k' k); reflexivity.
Qed.

Lemma lookupStats_map (k kp : string) (p : Piece.t) (stats : list (string * Stats.t)) :
  lookupStats k
    (map (fun e => if String.eqb (fst e) kp then (fst e, addPiece (snd e) p) else e) stats)
  = option_map (fun st => if String.eqb kp k then addPiece st p else st)
      (lookupStats k stats).
Proof.
  unfold lookupStats. induction stats as [|e stats IH]; [reflexivity|].
  cbn [map List.find].
  assert (Hfst : fst (if String.eqb (fst e) kp then (fst e, addPiece (snd e) p) else e)
                 = fst e)
    by (destruct (String.eqb (fst e) kp); reflexivity).
  rewrite Hfst. destruct (String.eqb (fst e) k) eqn:E; [|exact IH].
  apply String.eqb_eq in E. rewrite E, (String.eqb_sym k kp).
  cbn [option_map]. destruct (String.eqb kp k); reflexivity.
Qed.

Lemma lookupStats_bump (k : string) (stats : list (string * Stats.t)) (p : Piece.t) :
  lookupStats k (bump stats p)
  = if String.eqb (Piece.projeto p) k
    then Some (addPiece (statsOrEmpty (lookupStats k stats)) p)
    else lookupStats k stats.
Proof.
  change (bump stats p)
    with (map (fun e => if String.eqb (fst e) (Piece.projeto p)
                        then (fst e, addPiece (snd e) p) else e)
              (if hasKey stats (Piece.projeto p) then stats
               else stats ++ [(Piece.projeto p, Stats.mk 0 [])])).
  rewrite lookupStats_map.
  destruct (hasKey stats (Piece.projeto p)) eqn:Hk.
  - destruct (String.eqb (Piece.projeto p) k) eqn:E.
    + apply String.eqb_eq in E. subst k.
      apply find_existsb_true in Hk as (y & Hy). unfold lookupStats. rewrite Hy.
      reflexivity.
    + destruct (lookupStats k stats); reflexivity.
  - rewrite lookupStats_app_last.
    destruct (String.eqb (Piece.projeto p) k) eqn:E.
    + apply String.eqb_eq in E. subst k.
      apply find_existsb_false in Hk. unfold lookupStats at 1 2. rewrite Hk.
      reflexivity.
    + destruct (lookupStats k stats); reflexivity.
Qed.

Lemma lookupStats_bumps (k : string) (ps : list Piece.t) (stats : list (string * Stats.t)) :
  lookupStats k (fold_left bump ps stats)
  = fold_left (fun acc p => Some (addPiece (statsOrEmpty acc) p))
      (List.filter (fun p => String.eqb (Piece.projeto p) k) ps)
      (lookupStats k stats).
Proof.
  revert stats. induction ps as [|p ps IH]; intros stats; [reflexivity|].
  cbn [fold_left List.filter]. rewrite IH, lookupStats_bump.
  destruct (String.eqb (Piece.projeto p) k); reflexivity.
Qed.

Lemma addPieces_total (qs : list Piece.t) (init : option Stats.t) :
  fold_left (fun acc p => Some (addPiece (statsOrEmpty acc) p)) qs init
  = match qs with
    | [] => init
    | _ => Some (Stats.mk (Stats.pieceCount (statsOrEmpty init) + length qs)
                   (fold_left (fun ms p => setAdd (Piece.modulo p) ms) qs
                      (Stats.modules (statsOrEmpty init))))
    end.
Proof.
  revert init. induction qs as [|q qs IH]; intros init; [reflexivity|].
  cbn [fold_left]. rewrite IH. destruct qs as [|q' qs].
  - unfold addPiece. cbn [length fold_left].
    replace (Stats.pieceCount (statsOrEmpty init) + 1)
      with (S (Stats.pieceCount (statsOrEmpty init))) by lia.
    reflexivity.
  - cbn [statsOrEmpty addPiece Stats.pieceCount Stats.modules length fold_left].
    replace (S (Stats.pieceCount (statsOrEmpty init)) + S (length qs))
      with (Stats.pieceCount (statsOrEmpty init) + S (S (length qs))) by lia.
    reflexivity.
Qed.

Lemma previewOf_counts (pecas : list Piece.t) (c : ClientInfo.t) (project : string) :
  match List.find (fun s => String.eqb (ProjectStat.name s) project)
          (ClientPreview.projects (previewOf pecas c)) with
  | None => None
  | Some s => Some (ProjectStat.pieceCount s, ProjectStat.moduleCount s)
  end
  = countsFor pecas (ClientInfo.clientName c) project.
Proof.
  unfold previewOf, countsFor. cbn [ClientPreview.projects].
  set (mine := List.filter _ pecas).
  pose proof (lookupStats_bumps project mine []) as H.
  rewrite addPieces_total in H. unfold lookupStats in H.
  induction (fold_left bump mine []) as [|e stats IH] in H |- *.
  - cbn in H |- *. destruct (List.filter _ mine); [reflexivity|discriminate H].
  - cbn [map List.find ProjectStat.name] in H |- *.
    destruct (String.eqb (fst e) project).
    + cbn [option_map] in H. destruct (List.filter _ mine); [discriminate H|].
      injection H as H. rewrite H. reflexivity.
    + apply IH, H.
Qed.

(** *** The client map *)

Lemma nameOf_registerClient (code : string) (cm : list ClientInfo.t) (v : CsvRow.t) :
  nameOf code (registerClient cm v)
  = match nameOf code cm with
    | Some n => Some n
    | None => if String.eqb (CsvRow.clientCode v) code
              then Some (CsvRow.clientName v) else None
    end.
Proof.
  unfold registerClient.
  set (g := fun c : ClientInfo.t => if String.eqb (ClientInfo.clientCode c) _ then _ else c).
  assert (Hg : forall l, nameOf code (map g l) = nameOf code l).
  { unfold nameOf. induction l as [|c l IH]; [reflexivity|].
    cbn [map List.find].
    assert (Hc : ClientInfo.clientCode (g c) = ClientInfo.clientCode c)
      by (unfold g; destruct (String.eqb (ClientInfo.clientCode c) _); reflexivity).
    assert (Hn : ClientInfo.clientName (g c) = ClientInfo.clientName c)
      by (unfold g; destruct (String.eqb (ClientInfo.clientCode c) _); reflexivity).
    rewrite Hc. destruct (String.eqb (ClientInfo.clientCode c) code); [|exact IH].
    cbn [option_map]. rewrite Hn. reflexivity. }
  rewrite Hg. destruct (hasClient cm (CsvRow.clientCode v)) eqn:Hk.
  - destruct (nameOf code cm) eqn:En; [reflexivity|].
    destruct (String.eqb (CsvRow.clientCode v) code) eqn:E; [|reflexivity].
    apply String.eqb_eq in E. subst code.
    apply find_existsb_true in Hk as (y & Hy). unfold nameOf in En. rewrite Hy in En.
    discriminate En.
  - unfold nameOf. rewrite find_app_last. fold (nameOf code cm).
    unfold nameOf. destruct (List.find _ cm); [reflexivity|].
    cbn [ClientInfo.clientCode]. destruct (String.eqb (CsvRow.clientCode v) code); reflexivity.
Qed.

Lemma nameOf_clientMap (code : string) (records : list CsvRow.t) (cm : list ClientInfo.t) :
  nameOf code (fold_left registerClient records cm)
  = match nameOf code cm with
    | Some n => Some n
    | None => firstName code records
    end.
Proof.
  revert cm. induction records as [|v records IH]; intros cm.
  - cbn. destruct (nameOf code cm); reflexivity.
  - cbn [fold_left]. rewrite IH, nameOf_registerClient.
    unfold firstName. cbn [List.find].
    destruct (nameOf code cm); [reflexivity|].
    destruct (String.eqb (CsvRow.clientCode v) code); reflexivity.
Qed.

Lemma countsOf_previewList (pecas : list Piece.t) (cm : list ClientInfo.t)
    (code project : string) :
  countsOf (previewList cm pecas) code project
  = match nameOf code cm with
    | None => None
    | Some n => countsFor pecas n project
    end.
Proof.
  unfold countsOf, findClient, previewList, nameOf.
  induction cm as [|c cm IH]; [reflexivity|].
  cbn [map List.find]. change (ClientPreview.clientCode (previewOf pecas c))
                         with (ClientInfo.clientCode c).
  destruct (String.eqb (ClientInfo.clientCode c) code); [|exact IH].
  cbn [option_map]. apply previewOf_counts.
Qed.

(** The counts the preview shows for a client code and a project. *)
Lemma countsOf_aggregate (ws : string) (records : list CsvRow.t) (code project : string) :
  countsOf (aggregate ws records) code project
  = match firstName code records with
    | None => None
    | Some n => countsFor (map (mkPiece ws) records) n project
    end.
Proof.
  unfold aggregate. rewrite countsOf_previewList, nameOf_clientMap. reflexivity.
Qed.

(** *** Permutations *)

Lemma filter_Permutation' {A} (f : A -> bool) (l l' : list A) :
  Permutation l l' -> Permutation (List.filter f l) (List.filter f l').
Proof.
  induction 1 as [|x l l' _ IH|x y l|l l' l'' _ IH1 _ IH2]; cbn.
  - constructor.
  - destruct (f x); [constructor|]; exact IH.
  - destruct (f x), (f y); try reflexivity. constructor.
  - etransitivity; eassumption.
Qed.

Lemma countsFor_Permutation (pecas pecas' : list Piece.t) (name project : string) :
  Permutation pecas pecas' ->
  countsFor pecas name project = countsFor pecas' name project.
Proof.
  intros H. unfold countsFor.
  assert (Hq : Permutation
                 (List.filter (fun p => String.eqb (Piece.projeto p) project)
                    (List.filter (fun p => String.eqb (Piece.cliente p) name) pecas))
                 (List.filter (fun p => String.eqb (Piece.projeto p) project)
                    (List.filter (fun p => String.eqb (Piece.cliente p) name) pecas')))
    by (apply filter_Permutation', filter_Permutation', H).
  pose proof (Permutation_length Hq) as Hlen.
  pose proof (modules_Permutation _ _ Hq) as Hmod.
  destruct (List.filter _ (List.filter _ pecas)) as [|q qs];
    destruct (List.filter _ (List.filter _ pecas')) as [|q' qs'];
    try discriminate Hlen; [reflexivity|].
  rewrite Hlen, Hmod. reflexivity.
Qed.

Lemma firstName_Permutation (code : string) (records records' : list CsvRow.t) :
  Permutation records records' ->
  consistentNames records ->
  firstName code records = firstName code records'.
Proof.
  intros Hperm Hcons. unfold firstName.
  destruct (List.find _ records) as [v|] eqn:E;
    destruct (List.find _ records') as [v'|] eqn:E'; cbn [option_map].
  - apply find_some in E as [Hin Hc]. apply find_some in E' as [Hin' Hc'].
    apply String.eqb_eq in Hc, Hc'. f_equal. apply Hcons; [exact Hin| |congruence].
    apply (Permutation_in v' (Permutation_sym Hperm)), Hin'.
  - apply find_some in E as [Hin Hc].
    pose proof (find_none _ _ E' v (Permutation_in v Hperm Hin)) as Hn.
    cbn beta in Hn. congruence.
  - apply find_some in E' as [Hin' Hc'].
    pose proof (find_none _ _ E v' (Permutation_in v' (Permutation_sym Hperm) Hin')) as Hn.
    cbn beta in Hn. congruence.
  - reflexivity.
Qed.

End AggregatorFacts.

(** C9, as amended.  On a list of validated records in which records that
    share a client code share the client name, the aggregation shows the
    same piece count and the same distinct-module count for every client
    code and project, whatever the order of the records. *)
Theorem aggregation_is_order_invariant
    (ws : string) (records records' : list CsvRow.t) :
  Permutation records records' ->
  consistentNames records ->
  forall code project,
    countsOf (aggregate ws records) code project
    = countsOf (aggregate ws records') code project.
Proof.
  intros Hperm Hcons code project. rewrite !countsOf_aggregate.
  rewrite <- (firstName_Permutation code _ _ Hperm Hcons).
  destruct (firstName code records); [|reflexivity].
  apply countsFor_Permutation, Permutation_map, Hperm.
Qed.

Lemma aggregation_is_order_invariant_witness :
  countsOf (aggregate "ws" [acmeDoor; acmeShelf]) "C1" "P"
  = countsOf (aggregate "ws" [acmeShelf; acmeDoor]) "C1" "P".
Proof.
  apply (aggregation_is_order_invariant "ws" [acmeDoor; acmeShelf] [acmeShelf; acmeDoor]).
  - apply perm_swap.
  - intros v1 v2 [<-|[<-|[]]] [<-|[<-|[]]] _; reflexivity.
Defined.

(** C9, as stated, fails: the three records below are each accepted by the
    validator, and the two orders of them give client C1, project P, two
    pieces in one case and one piece in the other, because the client map
    keeps the name of the first record and the pieces are picked by name. *)
Lemma aggregation_depends_on_order :
  let records := [acmeDoor; acmeShelf; betaDoor] in
  let records' := [betaDoor; acmeDoor; acmeShelf] in
  Forall (fun v => validateCsvRow v = Zod.Success v) records /\
  Permutation records records' /\
  countsOf (aggregate "ws" records) "C1" "P" = Some (2, 1) /\
  countsOf (aggregate "ws" records') "C1" "P" = Some (1, 1) /\
  countsOf (aggregate "ws" records) "C1" "P"
  <> countsOf (aggregate "ws" records') "C1" "P".
Proof.
  split; [repeat constructor|]. split.
  - apply Permutation_sym, (Permutation_cons_append [acmeDoor; acmeShelf] betaDoor).
  - split; [reflexivity|]. split; [reflexivity|]. vm_compute. discriminate.
Qed.

(** The preview that [handleAnalyze] stages is the aggregation of the rows
    the validator accepted. *)
Lemma rowLoop_preview (ws : string) (lines : list string) :
  let acc := rowLoop ws 1 lines emptyAcc in
  previewList (clientMap acc) (tempPecas acc) = aggregate ws (acceptedRows 1 lines).
Proof.
  cbn zeta. destruct (rowLoop_accepted ws lines 1 emptyAcc) as [-> ->]. reflexivity.
Qed.

(** * Further properties of the code *)

(** ** The barcode sanitiser *)

Lemma keep_fixed p (s : string) : Js.allChars p s = true -> Js.keep p s = s.
Proof.
  induction s as [|c s IH]; [reflexivity|].
  cbn [Js.allChars Js.keep]. intros [Hc Hs]%andb_true_iff.
  rewrite Hc, (IH Hs). reflexivity.
Qed.

Lemma substring0_fixed n (s : string) :
  String.length s <= n -> Js.substring0 n s = s.
Proof.
  revert s. induction n as [|n IH]; intros [|c s] H; try reflexivity.
  - cbn in H. lia.
  - cbn [Js.substring0]. rewrite IH; [reflexivity|]. cbn in H. lia.
Qed.

Lemma substring0_length n (s : string) : String.length (Js.substring0 n s) <= n.
Proof.
  revert s. induction n as [|n IH]; intros [|c s]; cbn; try lia.
  specialize (IH s). lia.
Qed.

Lemma trimStart_length (s : string) : String.length (Js.trimStart s) <= String.length s.
Proof.
  induction s as [|c s IH]; cbn; [lia|].
  destruct (Js.isWhiteSpace c); cbn; lia.
Qed.

Lemma trimEnd_length (s : string) : String.length (Js.trimEnd s) <= String.length s.
Proof.
  induction s as [|c s IH]; [cbn; lia|].
  cbn [Js.trimEnd]. destruct (Js.trimEnd s) as [|d r].
  - destruct (Js.isWhiteSpace c); cbn; lia.
  - cbn in *. lia.
Qed.

Lemma trim_length (s : string) : String.length (Js.trim s) <= String.length s.
Proof.
  unfold Js.trim. pose proof (trimEnd_length (Js.trimStart s)).
  pose proof (trimStart_length s). lia.
Qed.

Lemma trimEnd_fixed (s : string) :
  Js.allChars (fun c => negb (Js.isWhiteSpace c)) s = true -> Js.trimEnd s = s.
Proof.
  induction s as [|c s IH]; [reflexivity|].
  cbn [Js.allChars Js.trimEnd]. intros [Hc Hs]%andb_true_iff.
  rewrite (IH Hs). apply negb_true_iff in Hc. rewrite Hc.
  destruct s; reflexivity.
Qed.

Lemma trim_fixed (s : string) :
  Js.allChars (fun c => negb (Js.isWhiteSpace c)) s = true -> Js.trim s = s.
Proof.
  intros H. unfold Js.trim.
  assert (Hs : Js.trimStart s = s).
  { destruct s as [|c s]; [reflexivity|]. cbn in H |- *.
    apply andb_true_iff in H as [Hc _]. apply negb_true_iff in Hc.
    rewrite Hc. reflexivity. }
  rewrite Hs. apply trimEnd_fixed, H.
Qed.

Lemma allChars_impl (p q : ascii -> bool) (s : string) :
  (forall c, p c = true -> q c = true) ->
  Js.allChars p s = true -> Js.allChars q s = true.
Proof.
  intros Hpq. induction s as [|c s IH]; [reflexivity|].
  cbn [Js.allChars]. intros [Hc Hs]%andb_true_iff.
  rewrite (Hpq _ Hc), (IH Hs). reflexivity.
Qed.

Lemma scanChar_facts (c : ascii) :
  scanChar c = true ->
  barcodeChar c = true /\ Js.isWhiteSpace c = false /\
  Js.upperChar c = String c EmptyString.
Proof.
  destruct c as [[] [] [] [] [] [] [] []]; vm_compute; intros H;
    first [discriminate H | repeat split].
Qed.

Lemma toUpperCase_fixed (s : string) :
  Js.allChars scanChar s = true -> Js.toUpperCase s = s.
Proof.
  induction s as [|c s IH]; [reflexivity|].
  cbn [Js.allChars Js.toUpperCase]. intros [Hc Hs]%andb_true_iff.
  destruct (scanChar_facts c Hc) as (_ & _ & ->). rewrite (IH Hs). reflexivity.
Qed.

Lemma upperChar_single (c : ascii) :
  barcodeChar c = true -> String.length (Js.upperChar c) = 1.
Proof.
  destruct c as [[] [] [] [] [] [] [] []]; vm_compute; intros H;
    first [discriminate H | reflexivity].
Qed.

Lemma length_append (a b : string) :
  String.length (a +:+ b) = String.length a + String.length b.
Proof. induction a as [|c a IH]; [reflexivity|]. simpl. f_equal. exact IH. Qed.

Lemma toUpperCase_length (s : string) :
  Js.allChars barcodeChar s = true ->
  String.length (Js.toUpperCase s) = String.length s.
Proof.
  induction s as [|c s IH]; [reflexivity|].
  cbn [Js.allChars Js.toUpperCase]. intros [Hc Hs]%andb_true_iff.
  rewrite length_append, (upperChar_single c Hc), (IH Hs). reflexivity.
Qed.

(** A code already in scanner form passes through every stage unchanged. *)
Lemma sanitizeBarcode_canonical (s : string) :
  Js.allChars scanChar s = true -> String.length s <= 100 -> sanitizeBarcode s = s.
Proof.
  intros Hs Hlen. unfold sanitizeBarcode.
  rewrite keep_fixed by (apply (allChars_impl scanChar); [apply scanChar_facts|exact Hs]).
  rewrite substring0_fixed by exact Hlen.
  rewrite trim_fixed.
  - apply toUpperCase_fixed, Hs.
  - apply (allChars_impl scanChar); [|exact Hs].
    intros c Hc. destruct (scanChar_facts c Hc) as (_ & -> & _). reflexivity.
Qed.

Lemma sanitizeBarcode_length (barcode : string) :
  String.length (sanitizeBarcode barcode) <= 100.
Proof.
  unfold sanitizeBarcode.
  rewrite toUpperCase_length
    by (apply allChars_trim, allChars_substring0, allChars_keep).
  pose proof (trim_length (Js.substring0 100 (Js.keep barcodeChar barcode))).
  pose proof (substring0_length 100 (Js.keep barcodeChar barcode)). lia.
Qed.

(** X1. A code made only of capitals, digits, hyphens and underscores, of
    at most 100 characters, is what the sanitiser returns for it: such a
    code is looked up by the scan exactly as it was typed. *)
Theorem sanitizeBarcode_keeps_scanner_codes (ws barcode : string) :
  Js.allChars scanChar barcode = true ->
  String.length barcode <= 100 ->
  sanitizeBarcode barcode = barcode /\
  pieceId ws (sanitizeBarcode barcode) = pieceId ws barcode.
Proof.
  intros Hs Hlen. rewrite (sanitizeBarcode_canonical barcode Hs Hlen). split; reflexivity.
Qed.

Lemma sanitizeBarcode_keeps_scanner_codes_witness :
  sanitizeBarcode "BC-123_A" = "BC-123_A".
Proof.
  apply (sanitizeBarcode_keeps_scanner_codes "ws" "BC-123_A"); [reflexivity|].
  vm_compute. lia.
Defined.

(** X2. Whatever the input, the sanitised barcode has at most 100
    characters, all of them capitals, digits, hyphens or underscores, and
    sanitising it again changes nothing. *)
Theorem sanitizeBarcode_is_idempotent (barcode : string) :
  String.length (sanitizeBarcode barcode) <= 100 /\
  Js.allChars scanChar (sanitizeBarcode barcode) = true /\
  sanitizeBarcode (sanitizeBarcode barcode) = sanitizeBarcode barcode.
Proof.
  split; [apply sanitizeBarcode_length|]. split; [apply sanitizeBarcode_chars|].
  apply sanitizeBarcode_canonical; [apply sanitizeBarcode_chars|apply sanitizeBarcode_length].
Qed.

(** ** The production scan *)

Section ScanMore.

Variable ws : string.

Lemma handleScan_produced_same s ui env barcode (piece : Piece.t) :
  pieces s !! pieceId ws (sanitizeBarcode barcode) = Some piece ->
  Piece.status piece = PRODUZIDA ->
  fst (handleScan ws s ui env barcode) = s.
Proof.
  intros Hk Hst. unfold handleScan. rewrite Hk, Hst.
  repeat (match goal with
          | |- context [if ?b then _ else _] => destruct b
          end; cbn [fst]; try reflexivity).
Qed.

(** The two things a scan can do to the store. *)
Lemma handleScan_cases s ui env barcode :
  fst (handleScan ws s ui env barcode) = s \/
  exists piece,
    pieces s !! pieceId ws (sanitizeBarcode barcode) = Some piece /\
    Piece.status piece = PENDENTE /\
    fst (handleScan ws s ui env barcode)
    = mkStore (<[pieceId ws (sanitizeBarcode barcode) := markProduced env piece]> (pieces s))
              (projects s) /\
    option_map Msg.type (lastMsg (snd (handleScan ws s ui env barcode))) = Some success.
Proof.
  unfold handleScan.
  destruct (String.eqb (sanitizeBarcode barcode) "" || _); [left; reflexivity|].
  destruct (isScanning ui); [left; reflexivity|].
  destruct (negb (getDocOk env)); [left; reflexivity|].
  destruct (pieces s !! pieceId ws (sanitizeBarcode barcode)) as [piece|] eqn:E;
    [|left; reflexivity].
  destruct (Piece.status piece) eqn:Est; [|left; reflexivity].
  destruct (negb (updateDocOk env)); [left; reflexivity|].
  right. exists piece. repeat split; assumption || reflexivity.
Qed.

Lemma scannedFrom_refl (p : Piece.t) : scannedFrom p p.
Proof. split; auto. Qed.

Lemma handleScan_evolves s ui env barcode (k : string) :
  projects (fst (handleScan ws s ui env barcode)) = projects s /\
  match pieces s !! k, pieces (fst (handleScan ws s ui env barcode)) !! k with
  | Some p, Some p' => scannedFrom p p'
  | None, None => True
  | _, _ => False
  end.
Proof.
  destruct (handleScan_cases s ui env barcode) as [->|(piece & Hp & Hst & -> & _)].
  - split; [reflexivity|]. destruct (pieces s !! k); [apply scannedFrom_refl|exact I].
  - split; [reflexivity|]. cbn [pieces].
    destruct (decide (k = pieceId ws (sanitizeBarcode barcode))) as [->|Hne].
    + rewrite Hp, lookup_insert_eq. split; [reflexivity|]. rewrite Hst. discriminate.
    + rewrite lookup_insert_ne by congruence.
      destruct (pieces s !! k); [apply scannedFrom_refl|exact I].
Qed.

End ScanMore.

(** X3. A scan of a pending piece, with the scanner idle and the store
    reachable, marks that piece PRODUZIDA with the operator and the time of
    the scan, adds the scan to its history, leaves every other document
    alone and reports success; a further scan of the same code, by anyone
    at any time, then writes nothing. *)
Theorem scan_marks_pending_piece_once
    (ws : string) (s : Store) (ui : ScanUi) (env : ScanEnv) (barcode : string)
    (piece : Piece.t) :
  let ref := pieceId ws (sanitizeBarcode barcode) in
  let r := handleScan ws s ui env barcode in
  pieces s !! ref = Some piece ->
  Piece.status piece = PENDENTE ->
  isScanning ui = false ->
  3 <= String.length (sanitizeBarcode barcode) ->
  getDocOk env = true ->
  updateDocOk env = true ->
  (exists p',
     pieces (fst r) !! ref = Some p' /\
     Piece.status p' = PRODUZIDA /\
     Piece.producedAt p' = Some (producedNow env) /\
     Piece.producedBy p' = Some (login_id env) /\
     In (ScanEntry.mk "SCAN" (historyNow env) (login_id env)) (Piece.scanHistory p') /\
     describe p' = describe piece) /\
  (forall k, k <> ref -> pieces (fst r) !! k = pieces s !! k) /\
  projects (fst r) = projects s /\
  option_map Msg.type (lastMsg (snd r)) = Some success /\
  isScanning (snd r) = false /\
  (forall env' barcode',
     sanitizeBarcode barcode' = sanitizeBarcode barcode ->
     fst (handleScan ws (fst r) (snd r) env' barcode') = fst r).
Proof.
  intros ref r Hk Hst Hidle Hlen Hget Hupd.
  assert (Hr : r = (mkStore (<[ref := markProduced env piece]> (pieces s)) (projects s),
                    mkScanUi EmptyString
                      (Some (Msg.mk success
                               ("SUCESSO: " +:+ Js.orElse (Piece.nome piece) peca_prefix_bare
                                +:+ " bipada!") (Some piece)))
                      false)).
  { unfold r, handleScan. fold ref. rewrite Hk, Hst, Hidle, Hget, Hupd.
    destruct (sanitizeBarcode barcode) as [|c t] eqn:E; [cbn in Hlen; lia|].
    replace (String.length (String c t) <? 3) with false
      by (symmetry; apply Nat.ltb_ge; exact Hlen).
    reflexivity. }
  rewrite Hr. cbn [fst snd pieces projects lastMsg isScanning option_map Msg.type].
  split; [|split; [|split; [|split; [|split]]]]; try reflexivity.
  - exists (markProduced env piece). rewrite lookup_insert_eq.
    repeat split; try reflexivity.
    cbn [markProduced Piece.scanHistory]. unfold arrayUnion.
    destruct (decide _) as [Hin|_]; [apply list_elem_of_In, Hin|].
    apply in_or_app. right. left. reflexivity.
  - intros k Hne. apply lookup_insert_ne. congruence.
  - intros env' barcode' Hsame.
    apply (handleScan_produced_same ws _ _ env' barcode' (markProduced env piece));
      [|reflexivity].
    rewrite Hsame. fold ref. cbn [pieces]. apply lookup_insert_eq.
Qed.

Lemma scan_marks_pending_piece_once_witness :
  let s := mkStore {[ "ws_BC123" := pendingDoor ]} ∅ in
  let r := handleScan "ws" s (mkScanUi "bc123" None false) morningShift "bc123" in
  option_map Msg.type (lastMsg (snd r)) = Some success /\
  fst (handleScan "ws" (fst r) (snd r) morningShift "BC123") = fst r.
Proof.
  intros s r.
  destruct (scan_marks_pending_piece_once "ws" s (mkScanUi "bc123" None false) morningShift
              "bc123" pendingDoor) as (_ & _ & _ & H4 & _ & H6).
  - reflexivity.
  - reflexivity.
  - reflexivity.
  - vm_compute. lia.
  - reflexivity.
  - reflexivity.
  - split; [exact H4|]. apply H6. reflexivity.
Defined.

(** X4. A scan writes only when it reports success, and then only the
    production data of the pending piece it looked up: otherwise (invalid
    code, scanner busy, store unreachable, piece unknown or already
    produced) the store is exactly as before. *)
Theorem scan_writes_only_on_success
    (ws : string) (s : Store) (ui : ScanUi) (env : ScanEnv) (barcode : string) :
  let r := handleScan ws s ui env barcode in
  fst r = s \/
  exists piece,
    pieces s !! pieceId ws (sanitizeBarcode barcode) = Some piece /\
    Piece.status piece = PENDENTE /\
    3 <= String.length (sanitizeBarcode barcode) /\
    fst r = mkStore (<[pieceId ws (sanitizeBarcode barcode) := markProduced env piece]>
                       (pieces s))
                    (projects s) /\
    option_map Msg.type (lastMsg (snd r)) = Some success.
Proof.
  cbn zeta.
  destruct (String.length (sanitizeBarcode barcode) <? 3) eqn:Hlen.
  - left. unfold handleScan. rewrite Hlen, orb_true_r. reflexivity.
  - apply Nat.ltb_ge in Hlen.
    destruct (handleScan_cases ws s ui env barcode) as [H|(piece & H1 & H2 & H3 & H4)];
      [left; exact H|].
    right. exists piece. auto.
Qed.

(** X5. Whatever series of scans is run, no piece document appears or
    disappears, the projects are untouched, and each piece keeps its
    identity (id, workspace, name, module, project, client, measures,
    material, colour); a piece that was produced keeps its whole document. *)
Theorem scans_keep_the_pieces
    (ws : string) (scans : list (ScanEnv * string)) (s : Store) (ui : ScanUi) :
  let s' := fst (runScans ws scans (s, ui)) in
  projects s' = projects s /\
  dom (pieces s') = dom (pieces s) /\
  forall k p, pieces s !! k = Some p ->
    exists p', pieces s' !! k = Some p' /\ scannedFrom p p'.
Proof.
  cbn zeta.
  assert (H : forall k,
             projects (fst (runScans ws scans (s, ui))) = projects s /\
             match pieces s !! k, pieces (fst (runScans ws scans (s, ui))) !! k with
             | Some p, Some p' => scannedFrom p p'
             | None, None => True
             | _, _ => False
             end).
  { intros k. unfold runScans. revert s ui.
    induction scans as [|[env barcode] scans IH]; intros s ui.
    - cbn. split; [reflexivity|]. destruct (pieces s !! k); [apply scannedFrom_refl|exact I].
    - cbn [fold_left fst snd].
      destruct (handleScan ws s ui env barcode) as [s1 ui1] eqn:E.
      destruct (IH s1 ui1) as [Hproj Hk].
      destruct (handleScan_evolves ws s ui env barcode k) as [Hproj1 Hk1].
      rewrite E in Hproj1, Hk1. cbn [fst] in Hproj1, Hk1.
      split; [congruence|].
      destruct (pieces s !! k) as [p|], (pieces s1 !! k) as [p1|]; try contradiction;
        destruct (pieces (fold_left _ scans (s1, ui1)).1 !! k) as [p2|]; try contradiction;
        [|exact I].
      destruct Hk1 as [Hd1 Hs1], Hk as [Hd2 Hs2]. split; [congruence|].
      intros Hp. specialize (Hs1 Hp). subst p1. auto. }
  split; [apply (H EmptyString)|]. split.
  - apply set_eq. intros k. rewrite !elem_of_dom. destruct (H k) as [_ Hk].
    destruct (pieces s !! k), (pieces (fst (runScans ws scans (s, ui))) !! k);
      try contradiction; split; intros [? ?]; eauto; discriminate.
  - intros k p Hp. destruct (H k) as [_ Hk]. rewrite Hp in Hk.
    destruct (pieces (fst (runScans ws scans (s, ui))) !! k) as [p'|]; [|contradiction].
    exists p'. auto.
Qed.

(** ** The field validator and the row loop *)

Section ValidatorMore.
Import Zod.

Lemma string_min1 (m : string) (p : list string) (x : string) :
  string_ [Min 1 m] p x
  = match x with
    | EmptyString => DIRTY EmptyString [mkIssue too_small p m]
    | _ => OK x
    end.
Proof. destruct x; reflexivity. Qed.

Lemma BarcodeSchema_ok (p : list string) (b : string) :
  3 <= String.length (Js.trim b) -> BarcodeSchema p b = OK (Js.trim b).
Proof.
  intros H. destruct b as [|c r]; [cbn in H; lia|].
  unfold BarcodeSchema, refine, transform, string_.
  cbn [flat_map runCheck String.length Nat.ltb Nat.leb app].
  apply Nat.leb_le in H. unfold Nat.leb in H. rewrite H. reflexivity.
Qed.

Lemma CsvRowSchema_ok (raw : CsvRow.t) :
  rowOk raw = true -> CsvRowSchema raw = OK (normalizeRow raw).
Proof.
  destruct raw as [cc cn pn bc pm pnm dc dl de mat co].
  unfold rowOk, normalizeRow.
  cbn [CsvRow.clientCode CsvRow.clientName CsvRow.projectName CsvRow.barcode
       CsvRow.pieceModule CsvRow.pieceName CsvRow.comprimento CsvRow.largura
       CsvRow.espessura CsvRow.material CsvRow.cor].
  rewrite !andb_true_iff, !negb_true_iff, Nat.leb_le.
  intros ((((((H1 & H2) & H3) & H4) & H5) & H6) & H7).
  unfold CsvRowSchema, optional.
  cbn [CsvRow.clientCode CsvRow.clientName CsvRow.projectName CsvRow.barcode
       CsvRow.pieceModule CsvRow.pieceName CsvRow.comprimento CsvRow.largura
       CsvRow.espessura CsvRow.material CsvRow.cor].
  rewrite !string_min1, (BarcodeSchema_ok _ _ H4).
  rewrite !DimensionValueSchema_valid by assumption.
  unfold transform. rewrite string_min1.
  destruct cc; [discriminate H1|]. destruct cn; [discriminate H2|].
  destruct pn; [discriminate H3|].
  reflexivity.
Qed.

Lemma CsvRowSchema_bad (raw : CsvRow.t) :
  rowOk raw = false -> issuesOf (CsvRowSchema raw) <> [].
Proof.
  intros Hbad Hnil. rewrite CsvRowSchema_issues in Hnil.
  apply (f_equal (@length _)) in Hnil. rewrite !length_app in Hnil.
  cbn [length] in Hnil.
  unfold rowOk in Hbad. rewrite !andb_false_iff, !negb_false_iff in Hbad.
  destruct Hbad as [[[[[[H|H]|H]|H]|H]|H]|H].
  - apply String.eqb_eq in H. rewrite H, string_min1 in Hnil. cbn in Hnil. lia.
  - apply String.eqb_eq in H. unfold transform in Hnil.
    rewrite H, string_min1 in Hnil. cbn in Hnil. lia.
  - apply String.eqb_eq in H. rewrite H, string_min1 in Hnil. cbn in Hnil. lia.
  - rewrite BarcodeSchema_issues in Hnil.
    destruct (CsvRow.barcode raw) as [|c r]; [cbn in Hnil; lia|].
    rewrite H in Hnil. cbn [length] in Hnil. lia.
  - rewrite (DimensionValueSchema_invalid ["comprimento"] _ H) in Hnil.
    cbn [length] in Hnil. lia.
  - rewrite (DimensionValueSchema_invalid ["largura"] _ H) in Hnil.
    cbn [length] in Hnil. lia.
  - rewrite (DimensionValueSchema_invalid ["espessura"] _ H) in Hnil.
    cbn [length] in Hnil. lia.
Qed.

Lemma validateCsvRow_cases (raw : CsvRow.t) :
  (rowOk raw = true /\ validateCsvRow raw = Success (normalizeRow raw)) \/
  (rowOk raw = false /\
   issuesOf (CsvRowSchema raw) <> [] /\
   validateCsvRow raw = Failure (issuesOf (CsvRowSchema raw))).
Proof.
  unfold validateCsvRow. destruct (rowOk raw) eqn:E.
  - left. split; [reflexivity|]. rewrite (CsvRowSchema_ok raw E). reflexivity.
  - right. split; [reflexivity|]. pose proof (CsvRowSchema_bad raw E) as H.
    split; [exact H|]. apply safeParse_failure, H.
Qed.

Lemma mapZod_locator (issue : ZodIssue) (n : nat) (context : ImportContext) :
  let e := mapZodErrorToImportError issue n context in
  ImportError.message e = message issue /\
  ImportError.lineNumber e = match context with CSV => Some n | PDF => None end /\
  ImportError.pageNumber e = match context with CSV => None | PDF => Some n end.
Proof.
  unfold mapZodErrorToImportError.
  destruct (includes (path issue) "comprimento" || includes (path issue) "largura");
    repeat split; reflexivity.
Qed.

Lemma processRow_cases (i : nat) (rawLine : string) :
  match processRow i rawLine with
  | Blank => Js.trim rawLine = EmptyString
  | Accepted validData =>
      rowOk (rawDataOf (splitCols (Js.trim rawLine))) = true /\
      validData = normalizeRow (rawDataOf (splitCols (Js.trim rawLine)))
  | Rejected errs =>
      errs <> [] /\
      Forall (fun e => ImportError.lineNumber e = Some (i + 1) /\
                       ImportError.pageNumber e = None) errs
  end.
Proof.
  unfold processRow, processRowWith.
  destruct (Js.trim rawLine) as [|c r] eqn:E; [reflexivity|].
  destruct (length (splitCols (String c r)) <? 17).
  - split; [discriminate|]. repeat constructor.
  - destruct (validateCsvRow_cases (rawDataOf (splitCols (String c r))))
      as [[Hok ->]|(Hbad & Hne & ->)].
    + split; [exact Hok|reflexivity].
    + split.
      * destruct (issuesOf _); [congruence|discriminate].
      * apply List.Forall_forall. intros e He.
        apply in_map_iff in He as (issue & <- & _).
        destruct (mapZod_locator issue (i + 1) CSV) as (_ & H1 & H2). auto.
Qed.

End ValidatorMore.

(** X6. The validator accepts a row exactly when the client code, the
    client name and the project name are not empty as read, the trimmed
    barcode has at least 3 characters and the three dimensions are empty or
    non-negative numbers; it then returns the row with client name and
    barcode trimmed and the dimensions normalised, everything else as read.
    Any other row fails with at least one issue. *)
Theorem validator_accepts_exactly_well_formed_rows (raw : CsvRow.t) :
  (rowOk raw = true /\ validateCsvRow raw = Zod.Success (normalizeRow raw)) \/
  (rowOk raw = false /\
   exists issues, issues <> [] /\ validateCsvRow raw = Zod.Failure issues).
Proof.
  destruct (validateCsvRow_cases raw) as [H|(H1 & H2 & H3)]; [left; exact H|].
  right. split; [exact H1|]. eexists. split; [exact H2|exact H3].
Qed.

(** X7. A line that the row loop rejects always comes with at least one
    error, and every error of it carries the line's number in the file
    (index plus one): no row is dropped without a report. *)
Theorem rejected_row_reports_its_line (i : nat) (rawLine : string)
    (errs : list ImportError.t) :
  processRow i rawLine = Rejected errs ->
  errs <> [] /\
  Forall (fun e => ImportError.lineNumber e = Some (i + 1) /\
                   ImportError.pageNumber e = None) errs.
Proof.
  intros H. pose proof (processRow_cases i rawLine) as Hc. rewrite H in Hc. exact Hc.
Qed.

Lemma rejected_row_reports_its_line_witness :
  exists errs, processRow 1 noBarcodeLine = Rejected errs /\ errs <> [].
Proof.
  eexists. split; [vm_compute; reflexivity|].
  eapply (rejected_row_reports_its_line 1 noBarcodeLine). vm_compute. reflexivity.
Defined.

Section LoopMore.

Variable ws : string.

Lemma rowLoop_outcomes (lines : list string) (i : nat) (acc : Acc) :
  errorsList (rowLoop ws i lines acc)
  = errorsList acc ++ flat_map errorsOf (outcomes i lines) /\
  linhasProcessadas (rowLoop ws i lines acc)
  = linhasProcessadas acc + length (acceptedRows i lines) /\
  length (acceptedRows i lines)
  + length (List.filter isBlank (outcomes i lines))
  + length (List.filter isRejected (outcomes i lines))
  = length lines.
Proof.
  revert i acc. induction lines as [|rawLine lines IH]; intros i acc.
  - cbn. rewrite app_nil_r. repeat split; lia.
  - cbn [rowLoop outcomes acceptedRows flat_map List.filter length].
    destruct (IH (S i) (rowStep ws acc i rawLine)) as (-> & -> & H3).
    unfold rowStep.
    destruct (processRow i rawLine);
      cbn [errorsList linhasProcessadas errorsOf isBlank isRejected length app];
      rewrite <- ?app_assoc; repeat split; lia.
Qed.

Lemma rejected_le_errors (i : nat) (lines : list string) :
  length (List.filter isRejected (outcomes i lines))
  <= length (flat_map errorsOf (outcomes i lines)).
Proof.
  revert i. induction lines as [|rawLine lines IH]; intros i; [cbn; lia|].
  cbn [outcomes List.filter flat_map]. rewrite length_app. specialize (IH (S i)).
  pose proof (processRow_cases i rawLine) as Hc.
  destruct (processRow i rawLine) as [|errs|v]; cbn [isRejected errorsOf length]; try lia.
  destruct Hc as [Hne _]. destruct errs; [congruence|]. cbn [length]. lia.
Qed.

End LoopMore.

(** X8. The row loop accounts for every line: each line is blank, or
    staged as exactly one piece, or rejected with at least one error.  The
    count of valid lines equals the number of staged pieces, the error list
    is the errors of the rejected lines in file order, and a bad line never
    stops the lines after it from being read. *)
Theorem row_loop_accounts_for_every_line (ws : string) (lines : list string) :
  let acc := rowLoop ws 1 lines emptyAcc in
  let outs := outcomes 1 lines in
  linhasProcessadas acc = length (tempPecas acc) /\
  tempPecas acc = map (mkPiece ws) (acceptedRows 1 lines) /\
  errorsList acc = flat_map errorsOf outs /\
  length (tempPecas acc) + length (List.filter isBlank outs)
  + length (List.filter isRejected outs) = length lines /\
  length (List.filter isRejected outs) <= length (errorsList acc).
Proof.
  cbn zeta.
  destruct (rowLoop_outcomes ws lines 1 emptyAcc) as (He & Hn & Hsum).
  destruct (rowLoop_accepted ws lines 1 emptyAcc) as [Hp _].
  cbn [emptyAcc errorsList linhasProcessadas tempPecas app] in He, Hn, Hp.
  rewrite He, Hn, Hp, length_map.
  repeat split; try lia. apply rejected_le_errors.
Qed.

(** ** The staging gate *)

(** X9. An analysis started with the guard released always ends with the
    guard released, whatever the file holds; the loading flag is down at
    the end when a read was started, and is left as it was when the run
    stops before reading (no file chosen, or a file over the size limit).
    The run ends in one of two ways only: nothing is staged and an error
    status is shown, or a non-empty list of pieces is staged together with
    the preview computed from exactly those pieces and the client map. *)
Theorem analysis_ends_idle_with_error_or_staged_pieces (ws : string) (st : State) :
  isProcessingImport st = false ->
  let st' := handleAnalyze ws st in
  isProcessingImport st' = false /\
  pecasFile st' = pecasFile st /\
  loading st' = (match snd (handleAnalyze_begin st) with
                 | Some _ => false
                 | None => loading st
                 end) /\
  ((pendingData st' = None /\ previewData st' = None /\
    ImportStatus.type (importStatus st') = Some error) \/
   (exists file content,
      pecasFile st = Some file /\ File.content file = Some content /\
      let acc := rowLoop ws 1 (tl (Js.split LF (detectAndFixEncoding content))) emptyAcc in
      tempPecas acc <> [] /\
      pendingData st' = Some (Pending.mk (tempPecas acc) (clientMap acc)) /\
      previewData st' = Some (previewList (clientMap acc) (tempPecas acc)) /\
      importErrors st' = errorsList acc)).
Proof.
  intros Hidle. unfold handleAnalyze, handleAnalyze_begin. rewrite Hidle.
  destruct (pecasFile st) as [file|] eqn:Ef; cbn zeta.
  2:{ cbn. split; [reflexivity|]. split; [reflexivity|]. split; [reflexivity|].
      left. repeat split. }
  destruct (MAX_FILE_SIZE <? File.size file).
  { cbn. split; [reflexivity|]. split; [reflexivity|]. split; [reflexivity|].
    left. repeat split. }
  unfold handleAnalyze_end. cbn [pecasFile previewData pendingData snd].
  destruct (File.content file) as [content|] eqn:Ec.
  2:{ cbn. split; [reflexivity|]. split; [reflexivity|]. split; [reflexivity|].
      left. repeat split. }
  destruct (length (Js.split LF (detectAndFixEncoding content)) <? MIN_ROWS_REQUIRED).
  { cbn. split; [reflexivity|]. split; [reflexivity|]. split; [reflexivity|].
    left. repeat split. }
  destruct (tempPecas (rowLoop ws 1 (tl (Js.split LF (detectAndFixEncoding content)))
                         emptyAcc)) as [|p ps] eqn:Et.
  { cbn. split; [reflexivity|]. split; [reflexivity|]. split; [reflexivity|].
    left. repeat split. }
  cbn [isProcessingImport pecasFile pendingData previewData importErrors loading].
  split; [reflexivity|]. split; [reflexivity|]. split; [reflexivity|]. right.
  exists file, content. split; [reflexivity|]. split; [exact Ec|]. cbn zeta.
  rewrite Et. split; [discriminate|]. repeat split.
Qed.

Lemma analysis_ends_idle_with_error_or_staged_pieces_witness :
  isProcessingImport (handleAnalyze "ws" idleState) = false /\
  loading (handleAnalyze "ws" idleState) = false /\
  pendingData (handleAnalyze "ws" idleState) = None.
Proof.
  destruct (analysis_ends_idle_with_error_or_staged_pieces "ws" idleState eq_refl)
    as (H1 & _ & H3 & _).
  split; [exact H1|]. split; [rewrite H3; vm_compute; reflexivity|].
  vm_compute. reflexivity.
Defined.

(** X10. An analysis starts reading exactly when the panel is idle, a file
    is chosen and its size is at most [MAX_FILE_SIZE], 10 MB, the bound
    itself included; when the panel is idle, the errors and the staged data
    of the previous run are cleared whether or not a read starts, and when
    none starts the guard stays down and an error status is shown. *)
Theorem analysis_starts_only_within_the_size_limit (st : State) (file : File.t) :
  (snd (handleAnalyze_begin st) = Some file <->
   isProcessingImport st = false /\ pecasFile st = Some file /\
   File.size file <= MAX_FILE_SIZE) /\
  (isProcessingImport st = true \/
   let st1 := fst (handleAnalyze_begin st) in
   importErrors st1 = [] /\ previewData st1 = None /\ pendingData st1 = None /\
   (snd (handleAnalyze_begin st) = None ->
    isProcessingImport st1 = false /\
    ImportStatus.type (importStatus st1) = Some error)).
Proof.
  unfold handleAnalyze_begin. generalize MAX_FILE_SIZE as limit. intros limit.
  destruct (isProcessingImport st) eqn:Eb.
  - split; [|left; reflexivity]. cbn. split; [discriminate|]. intros (H & _). discriminate.
  - destruct (pecasFile st) as [f|] eqn:Ef.
    + destruct (limit <? File.size f) eqn:Es.
      * split.
        -- cbn [snd]. split; [discriminate|]. intros (_ & H & Hle).
           injection H as ->. apply Nat.ltb_lt in Es. lia.
        -- right. cbn. repeat split.
      * split.
        -- cbn [snd]. split.
           ++ intros H. injection H as ->. apply Nat.ltb_ge in Es. auto.
           ++ intros (_ & H & _). exact H.
        -- right. cbn. repeat split; discriminate.
    + split.
      * cbn [snd]. split; [discriminate|]. intros (_ & H & _). discriminate.
      * right. cbn. repeat split.
Qed.

(** X11. Cancel discards the chosen file, the staged pieces, the preview
    and the errors; a confirm invoked afterwards writes nothing and leaves
    the panel as cancel left it. *)
Theorem cancel_discards_the_staged_import
    (ws : string) (s : Store) (st : State) (now : string) (ok : bool) :
  let st' := handleCancel st in
  pecasFile st' = None /\ pendingData st' = None /\ previewData st' = None /\
  importErrors st' = [] /\
  handleConfirm ws s st' now ok = (s, st').
Proof. cbn zeta. repeat split. Qed.

(** X12. After a confirm run that was told the commit succeeded, a further
    confirm does nothing: the staged data is gone (or was never there, or
    the panel is busy), so no second batch is written. *)
Theorem confirm_after_success_is_noop
    (ws : string) (s : Store) (st : State) (now now' : string) (ok' : bool) :
  let r := handleConfirm ws s st now true in
  handleConfirm ws (fst r) (snd r) now' ok' = r.
Proof.
  cbn zeta. unfold handleConfirm at 2 3 4. unfold handleConfirm_begin.
  destruct (pendingData st) as [pending|] eqn:Ep.
  - destruct (isProcessingImport st) eqn:Eb.
    + cbn [fst snd]. unfold handleConfirm, handleConfirm_begin. rewrite Ep, Eb. reflexivity.
    + reflexivity.
  - cbn [fst snd]. unfold handleConfirm, handleConfirm_begin. rewrite Ep. reflexivity.
Qed.

(** ** What a commit leaves in the store *)

Lemma lastWrite_In (k : string) (l : list (string * Piece.t)) (p : Piece.t) :
  lastWrite k l = Some p -> In (k, p) l.
Proof.
  induction l as [|[k' p'] l IH]; [discriminate|].
  cbn [lastWrite fst snd]. destruct (lastWrite k l) as [q|].
  - intros H. right. apply IH. exact H.
  - destruct (decide (k' = k)) as [->|_]; [|discriminate].
    intros H. injection H as ->. left. reflexivity.
Qed.

Lemma lastWrite_None (k : string) (l : list (string * Piece.t)) :
  lastWrite k l = None -> forall p, ~ In (k, p) l.
Proof.
  induction l as [|[k' p'] l IH]; [intros _ p []|].
  cbn [lastWrite fst snd]. destruct (lastWrite k l) as [q|]; [discriminate|].
  destruct (decide (k' = k)) as [->|Hne]; [discriminate|].
  intros _ p [H|H]; [congruence|]. exact (IH eq_refl p H).
Qed.

Lemma lastWrite_staged (ws k : string) (records : list CsvRow.t) (p : Piece.t) :
  lastWrite k (map (fun p => (Piece.id p, p)) (map (mkPiece ws) records)) = Some p ->
  exists before v after,
    records = before ++ v :: after /\
    p = mkPiece ws v /\
    pieceId ws (CsvRow.barcode v) = k /\
    forall w, In w after -> pieceId ws (CsvRow.barcode w) <> k.
Proof.
  induction records as [|r records IH]; [discriminate|].
  cbn [map lastWrite fst snd].
  destruct (lastWrite k (map (fun p => (Piece.id p, p)) (map (mkPiece ws) records)))
    as [q|] eqn:E.
  - intros H. injection H as <-.
    destruct (IH eq_refl) as (before & v & after & -> & Hp & Hk & Hafter).
    exists (r :: before), v, after. repeat split; assumption.
  - destruct (decide (Piece.id (mkPiece ws r) = k)) as [Hk|_]; [|discriminate].
    intros H. injection H as <-.
    exists [], r, records. repeat split; [exact Hk|].
    intros w Hw Hid. apply (lastWrite_None _ _ E (mkPiece ws w)).
    apply in_map_iff. exists (mkPiece ws w). split; [rewrite <- Hid; reflexivity|].
    apply in_map, Hw.
Qed.

(** X13. After the batch of a confirm is applied, every staged record is
    found in the store under the workspace id, an underscore and its
    barcode, as a PENDENTE piece without production data, whatever the
    store held there before.  The piece is the one built from the last
    staged record of that barcode: when a barcode occurs twice in the file,
    the later record wins.  Documents under any other id are untouched. *)
Theorem commit_stores_every_staged_record
    (ws : string) (s : Store) (records : list CsvRow.t)
    (clientProjects : list ClientInfo.t) (now : string) :
  let pending := Pending.mk (map (mkPiece ws) records) clientProjects in
  let s' := applyBatch s (confirmBatch ws pending now) in
  (forall v, In v records ->
     exists before v' after,
       records = before ++ v' :: after /\
       CsvRow.barcode v' = CsvRow.barcode v /\
       (forall w, In w after -> CsvRow.barcode w <> CsvRow.barcode v) /\
       pieces s' !! pieceId ws (CsvRow.barcode v) = Some (mkPiece ws v') /\
       Piece.status (mkPiece ws v') = PENDENTE /\
       Piece.producedAt (mkPiece ws v') = None) /\
  (forall k, (forall v, In v records -> pieceId ws (CsvRow.barcode v) <> k) ->
     pieces s' !! k = pieces s !! k).
Proof.
  cbn zeta.
  assert (Hlook : forall k,
             pieces (applyBatch s (confirmBatch ws
                       (Pending.mk (map (mkPiece ws) records) clientProjects) now)) !! k
             = match lastWrite k (map (fun p => (Piece.id p, p)) (map (mkPiece ws) records)) with
               | Some p => Some p
               | None => pieces s !! k
               end).
  { intros k. rewrite pieces_applyBatch, pieceWrites_confirmBatch. apply lookup_putPieces. }
  split.
  - intros v Hv. rewrite Hlook.
    destruct (lastWrite _ _) as [p|] eqn:E.
    + apply lastWrite_staged in E as (before & v' & after & Hrec & -> & Hid & Hafter).
      exists before, v', after. split; [exact Hrec|].
      split; [apply (pieceId_inj ws), Hid|].
      split; [intros w Hw Hb; apply (Hafter w Hw); rewrite Hb; reflexivity|].
      repeat split.
    + exfalso. apply (lastWrite_None _ _ E (mkPiece ws v)).
      apply in_map_iff. exists (mkPiece ws v). split; [reflexivity|].
      apply in_map, Hv.
  - intros k Hk. rewrite Hlook.
    destruct (lastWrite _ _) as [p|] eqn:E; [|reflexivity].
    exfalso. apply lastWrite_staged in E as (before & v' & after & -> & _ & Hid & _).
    apply (Hk v'); [apply in_or_app; right; left; reflexivity|exact Hid].
Qed.

(** ** The PDF path *)

Section PdfMore.
Import Zod.

Lemma mapZod_atField_any (issue : ZodIssue) (n : nat) (context : ImportContext) (k : string) :
  path issue = [k] ->
  let e := mapZodErrorToImportError issue n context in
  ImportError.type e = fst (kindOfField k) /\
  ImportError.severity e = snd (kindOfField k) /\
  ImportError.field e = Some k.
Proof.
  destruct issue as [c p m]. cbn [path]. intros ->.
  unfold kindOfField, mapZodErrorToImportError. cbn [path].
  destruct (includes [k] "comprimento" || includes [k] "largura");
    repeat split; reflexivity.
Qed.

Lemma ClientNameSchema_issues (p : list string) (x : string) :
  issuesOf (ClientNameSchema p x)
  = if 100 <? String.length x then [mkIssue too_big p "Nome do cliente muito longo"] else [].
Proof.
  unfold ClientNameSchema, optional, transform, string_.
  cbn [flat_map runCheck app]. rewrite Nat.ltb_irrefl || idtac.
  replace (String.length x <? 0) with false by (symmetry; apply Nat.ltb_ge; lia).
  cbn [app]. destruct (100 <? String.length x); reflexivity.
Qed.

(** The issues of a PDF item: the client name rule, then the code rules. *)
Lemma PdfItemSchema_issues (raw : PdfItem.t) :
  issuesOf (PdfItemSchema raw)
  = issuesOf (ClientNameSchema ["cliente"] (PdfItem.cliente raw))
    ++ issuesOf (BarcodeSchema ["codItem"] (PdfItem.codItem raw)).
Proof.
  unfold PdfItemSchema. rewrite !issuesOf_ap. unfold default.
  change (issuesOf (string_ [] ?p ?x)) with (@nil ZodIssue).
  cbn [issuesOf]. rewrite !app_nil_r. reflexivity.
Qed.

Lemma PdfItemSchema_issue_shape (raw : PdfItem.t) (issue : ZodIssue) :
  In issue (issuesOf (PdfItemSchema raw)) ->
  (path issue = ["cliente"] \/ path issue = ["codItem"]) /\
  message issue <> duplicateMessage.
Proof.
  rewrite PdfItemSchema_issues, ClientNameSchema_issues, BarcodeSchema_issues.
  intros H. apply in_app_or in H as [H|H].
  - destruct (100 <? _); [|destruct H]. destruct H as [<-|[]].
    split; [left; reflexivity|]. vm_compute. discriminate.
  - destruct (PdfItem.codItem raw) as [|c r].
    + destruct H as [<-|[]]. split; [right; reflexivity|vm_compute; discriminate].
    + destruct (3 <=? _); [destruct H|]. destruct H as [<-|[]].
      split; [right; reflexivity|]. vm_compute. discriminate.
Qed.

Lemma safeParse_issues {A} (r : ParseReturn A) :
  match safeParse r with
  | Success _ => issuesOf r = []
  | Failure issues => issues = issuesOf r
  end.
Proof. destruct r; reflexivity. Qed.

End PdfMore.

Section PdfExtraction.

Variable randomUUID : nat -> string.
Variable loaded : list Piece.t.

Lemma reviewItem_errors (n i : nat) (rawItem : PdfItem.t) :
  Forall (pdfErrorShape i) (snd (reviewItem randomUUID loaded n i rawItem)).
Proof.
  unfold reviewItem.
  pose proof (safeParse_issues (PdfItemSchema rawItem)) as Hs.
  destruct (Zod.safeParse (PdfItemSchema rawItem)) as [data|issues]; cbn [snd].
  - constructor.
  - subst issues. apply List.Forall_forall. intros e He.
    apply in_map_iff in He as (issue & <- & Hin).
    destruct (PdfItemSchema_issue_shape rawItem issue Hin) as [Hpath _].
    destruct (mapZod_locator issue i PDF) as (_ & Hl & Hp).
    unfold pdfErrorShape. rewrite Hl, Hp.
    destruct Hpath as [Hpath|Hpath];
      destruct (mapZod_atField_any issue i PDF _ Hpath) as (-> & -> & ->);
      repeat split; auto.
Qed.

Lemma processCell_label (n i : nat) (cell : Cell.t) :
  processCell randomUUID loaded n i cell
  = if isLabel cell then Some (reviewItem randomUUID loaded n i (rawItemOf cell)) else None.
Proof.
  unfold processCell, isLabel.
  destruct (PdfItem.codItem (rawItemOf cell)); [|reflexivity].
  destruct (Cell.pecaMatch cell); reflexivity.
Qed.

Lemma cellStep_label (i : nat) (cell : Cell.t) acc :
  cellStep randomUUID loaded i acc cell
  = if isLabel cell
    then (fst acc ++ [fst (reviewItem randomUUID loaded (length (fst acc)) i (rawItemOf cell))],
          snd acc ++ snd (reviewItem randomUUID loaded (length (fst acc)) i (rawItemOf cell)))
    else acc.
Proof.
  unfold cellStep. rewrite processCell_label. destruct (isLabel cell); [|reflexivity].
  destruct (reviewItem _ _ _ _ _); reflexivity.
Qed.

Lemma reviewItem_no_layout_error (n i : nat) (rawItem : PdfItem.t) :
  ofType PDF_LAYOUT_UNEXPECTED (snd (reviewItem randomUUID loaded n i rawItem)) = [].
Proof.
  pose proof (reviewItem_errors n i rawItem) as Hs.
  induction Hs as [|e errs He _ IHe]; [reflexivity|].
  unfold ofType in *. cbn [List.filter]. rewrite IHe.
  destruct He as (_ & _ & _ & [[-> _]|[-> _]]); reflexivity.
Qed.

Lemma cells_count (i : nat) (cells : list Cell.t) acc :
  length (fst (fold_left (cellStep randomUUID loaded i) cells acc))
  = length (fst acc) + length (List.filter isLabel cells) /\
  ofType PDF_LAYOUT_UNEXPECTED (snd (fold_left (cellStep randomUUID loaded i) cells acc))
  = ofType PDF_LAYOUT_UNEXPECTED (snd acc) /\
  (Forall (fun e => exists j, pdfErrorShape j e \/ e = pageError j) (snd acc) ->
   Forall (fun e => exists j, pdfErrorShape j e \/ e = pageError j)
          (snd (fold_left (cellStep randomUUID loaded i) cells acc))).
Proof.
  revert acc. induction cells as [|c cells IH]; intros acc.
  - cbn. split; [lia|]. split; [reflexivity|auto].
  - cbn [fold_left List.filter]. destruct (IH (cellStep randomUUID loaded i acc c))
      as (H1 & H2 & H3).
    rewrite H1, H2. rewrite cellStep_label in H3 |- *.
    destruct (isLabel c); cbn [fst snd length] in H3 |- *.
    + rewrite length_app, ofType_app, reviewItem_no_layout_error, app_nil_r.
      cbn [length]. split; [lia|]. split; [reflexivity|].
      intros Hacc. apply H3. apply Forall_app. split; [exact Hacc|].
      eapply Forall_impl; [apply reviewItem_errors|].
      intros e He. exists i. left. exact He.
    + split; [lia|]. split; [reflexivity|exact H3].
Qed.

Lemma pages_count (pages : list (option (list Cell.t))) (i : nat) acc :
  length (fst (pageLoop randomUUID loaded i pages acc))
  = fold_left (fun n pg => match pg with
                           | Some cells => n + length (List.filter isLabel cells)
                           | None => n
                           end) pages (length (fst acc)) /\
  length (ofType PDF_LAYOUT_UNEXPECTED (snd (pageLoop randomUUID loaded i pages acc)))
  = length (ofType PDF_LAYOUT_UNEXPECTED (snd acc)) + unreadableCount pages /\
  (Forall (fun e => exists j, pdfErrorShape j e \/ e = pageError j) (snd acc) ->
   Forall (fun e => exists j, pdfErrorShape j e \/ e = pageError j)
          (snd (pageLoop randomUUID loaded i pages acc))).
Proof.
  revert i acc. induction pages as [|[cells|] pages IH]; intros i acc.
  - cbn [pageLoop fold_left]. change (unreadableCount []) with 0.
    split; [reflexivity|]. split; [lia|auto].
  - cbn [pageLoop fold_left].
    change (unreadableCount (Some cells :: pages)) with (unreadableCount pages).
    destruct (IH (S i) (fold_left (cellStep randomUUID loaded i) cells acc)) as (H1 & H2 & H3).
    destruct (cells_count i cells acc) as (C1 & C2 & C3).
    rewrite H1, H2, C1, C2. split; [reflexivity|]. split; [reflexivity|auto].
  - cbn [pageLoop fold_left].
    change (unreadableCount (None :: pages)) with (S (unreadableCount pages)).
    destruct (IH (S i) (fst acc, snd acc ++ [pageError i])) as (H1 & H2 & H3).
    rewrite H1, H2. cbn [fst snd]. rewrite ofType_app, length_app.
    change (ofType PDF_LAYOUT_UNEXPECTED [pageError i]) with [pageError i].
    cbn [length]. split; [reflexivity|]. split; [lia|].
    intros Hacc. apply H3. apply Forall_app. split; [exact Hacc|].
    constructor; [|constructor]. exists i. right. reflexivity.
Qed.

End PdfExtraction.

(** X14. The errors a run of [processPdfFile] leaves on the panel are of
    three kinds only.  When the document cannot be opened, the panel holds
    a single CRITICAL error without page number, PDF_PASSWORD_PROTECTED for
    a password and PDF_CORRUPTED otherwise, and no item is extracted; when
    the library or the file cannot be loaded it holds none.  When the pages
    are read, a validation error carries the page number, severity ERROR,
    and is either a MISSING_CLIENT_INFO on the client field or a plain
    VALIDATION_ERROR on the item code; an unreadable page gives one
    PDF_LAYOUT_UNEXPECTED error, and there are as many of those as there
    are unreadable pages.  The barcode kind, keyed on the CSV field name,
    never occurs.  The guard is released in every case. *)
Theorem pdf_panel_errors_are_open_validation_or_page_errors
    (randomUUID : nat -> string) (loaded : list Piece.t)
    (st : PdfState) (file : File.t) (read : PdfRead) :
  pdfFile st = Some file ->
  isProcessingPdf st = false ->
  let st' := processPdfFile randomUUID loaded st read in
  let errs := pdfGlobalErrors st' in
  isProcessingPdf st' = false /\
  ofType INVALID_BARCODE_FORMAT errs = [] /\
  match read with
  | LoadFailed _ =>
      errs = [] /\ promobItems st' = [] /\
      ImportStatus.type (pdfStatus st') = Some error
  | OpenFailed passwordException =>
      (exists e, errs = [e] /\
                 ImportError.severity e = CRITICAL /\
                 ImportError.pageNumber e = None /\
                 ImportError.type e = (if passwordException then PDF_PASSWORD_PROTECTED
                                       else PDF_CORRUPTED)) /\
      promobItems st' = [] /\
      ImportStatus.type (pdfStatus st') = Some error
  | Opened pages =>
      Forall (fun e => exists j, pdfErrorShape j e \/ e = pageError j) errs /\
      length (ofType PDF_LAYOUT_UNEXPECTED errs) = unreadableCount pages /\
      promobItems st' = fst (extractPdf randomUUID loaded pages)
  end.
Proof.
  intros Hfile Hidle. cbn zeta. unfold processPdfFile. rewrite Hfile, Hidle.
  destruct read as [message|passwordException|pages].
  - cbn. repeat split.
  - cbn [isProcessingPdf pdfGlobalErrors promobItems pdfStatus ImportStatus.type].
    split; [reflexivity|]. split; [destruct passwordException; reflexivity|].
    split; [|split; reflexivity].
    exists (openError passwordException). repeat split.
  - unfold extractPdf.
    destruct (pages_count randomUUID loaded pages 1 ([], [])) as (_ & H2 & H3).
    specialize (H3 (List.Forall_nil _)).
    destruct (pageLoop randomUUID loaded 1 pages ([], [])) as [items errs] eqn:E.
    cbn [fst snd] in *.
    cbn [isProcessingPdf pdfGlobalErrors promobItems].
    split; [reflexivity|]. split; [|split; [exact H3|split; [exact H2|reflexivity]]].
    clear H2 E. induction H3 as [|e errs' He _ IH]; [reflexivity|].
    unfold ofType in *. cbn [List.filter]. rewrite IH.
    destruct He as (j & [(_ & _ & _ & [[-> _]|[-> _]])| ->]); reflexivity.
Qed.

Lemma pdf_panel_errors_are_open_validation_or_page_errors_witness :
  exists e,
    pdfGlobalErrors (processPdfFile (fun _ => "uuid") [] pdfChosen (OpenFailed true)) = [e] /\
    ImportError.severity e = CRITICAL.
Proof.
  destruct (pdf_panel_errors_are_open_validation_or_page_errors
              (fun _ => "uuid") [] pdfChosen (File.mk 64 None) (OpenFailed true))
    as (_ & _ & (e & He & Hs & _) & _).
  - reflexivity.
  - reflexivity.
  - exists e. split; [exact He|exact Hs].
Defined.

(** X15. The extraction yields exactly one item per label cell of the
    readable pages, a label being a cell with an item code or a piece name;
    blank cells and unreadable pages yield none. *)
Theorem pdf_extraction_yields_one_item_per_label
    (randomUUID : nat -> string) (loaded : list Piece.t)
    (pages : list (option (list Cell.t))) :
  length (fst (extractPdf randomUUID loaded pages)) = labelCount pages.
Proof.
  unfold extractPdf, labelCount.
  destruct (pages_count randomUUID loaded pages 1 ([], [])) as (H1 & _). exact H1.
Qed.

(** X16. The review item of a label carries the message that the code
    already exists exactly when the id of some loaded piece ends with the
    label's item code (a suffix test, so an empty code matches every loaded
    piece); the item is valid exactly when the schema accepts the label and
    no loaded id ends with its code; the code shown is the label's code. *)
Theorem duplicate_flag_is_a_suffix_match
    (randomUUID : nat -> string) (loaded : list Piece.t) (n i : nat) (cell : Cell.t) :
  let cod := PdfItem.codItem (rawItemOf cell) in
  let item := fst (reviewItem randomUUID loaded n i (rawItemOf cell)) in
  (In duplicateMessage (PromobItem.errors item) <->
   exists p, In p loaded /\ Js.endsWith (Piece.id p) cod = true) /\
  (PromobItem.isValid item = true <->
   (exists data, Zod.safeParse (PdfItemSchema (rawItemOf cell)) = Zod.Success data) /\
   forall p, In p loaded -> Js.endsWith (Piece.id p) cod = false) /\
  PromobItem.codItem item = cod.
Proof.
  cbn zeta.
  assert (Htrim : Js.trim (PdfItem.codItem (rawItemOf cell)) = PdfItem.codItem (rawItemOf cell))
    by apply trim_idempotent.
  assert (Hdup : isDuplicate loaded (PdfItem.codItem (rawItemOf cell)) = true <->
                 exists p, In p loaded /\
                   Js.endsWith (Piece.id p) (PdfItem.codItem (rawItemOf cell)) = true)
    by (unfold isDuplicate; apply existsb_exists).
  assert (Hnodup : isDuplicate loaded (PdfItem.codItem (rawItemOf cell)) = false <->
                   forall p, In p loaded ->
                     Js.endsWith (Piece.id p) (PdfItem.codItem (rawItemOf cell)) = false).
  { unfold isDuplicate. split.
    - intros H p Hp. destruct (Js.endsWith _ _) eqn:E; [|reflexivity].
      assert (existsb (fun p => Js.endsWith (Piece.id p) (PdfItem.codItem (rawItemOf cell)))
                      loaded = true) by (apply existsb_exists; eauto).
      congruence.
    - intros H. destruct (existsb _ loaded) eqn:E; [|reflexivity].
      apply existsb_exists in E as (p & Hp & Hend). rewrite (H p Hp) in Hend. discriminate. }
  unfold reviewItem.
  pose proof (safeParse_issues (PdfItemSchema (rawItemOf cell))) as Hiss.
  destruct (Zod.safeParse (PdfItemSchema (rawItemOf cell))) as [data|issues] eqn:E;
    cbn [fst PromobItem.errors PromobItem.isValid PromobItem.codItem].
  - pose proof (PdfItemSchema_codItem _ _ E) as Hcod. rewrite Htrim in Hcod.
    rewrite Hcod, Htrim.
    destruct (isDuplicate loaded (PdfItem.codItem (rawItemOf cell))) eqn:Ed.
    + split; [|split; [|reflexivity]].
      * split; [intros _; apply Hdup; reflexivity|intros _; left; reflexivity].
      * split; [discriminate|]. intros [_ H]. apply Hnodup in H. discriminate.
    + split; [|split; [|reflexivity]].
      * split; [intros []|]. intros H. apply Hdup in H. discriminate.
      * split; [|reflexivity]. intros _. split; [eauto|]. apply Hnodup. reflexivity.
  - rewrite Htrim.
    destruct (isDuplicate loaded (PdfItem.codItem (rawItemOf cell))) eqn:Ed.
    + split; [|split; [|reflexivity]].
      * split; [intros _; apply Hdup; reflexivity|].
        intros _. apply in_or_app. right. left. reflexivity.
      * split; [discriminate|]. intros [[d Hd] _]. discriminate.
    + split; [|split; [|reflexivity]].
      * split; [|intros H; apply Hdup in H; discriminate].
        intros H. apply in_map_iff in H as (issue & Hm & Hin). subst issues.
        destruct (PdfItemSchema_issue_shape _ _ Hin) as [_ Hne]. contradiction.
      * split; [discriminate|]. intros [[d Hd] _]. discriminate.
Qed.

(** ** Editing and saving the review grid *)

Lemma revalidate_verdict (item : PromobItem.t) :
  PromobItem.isValid (revalidate item) = passes item /\
  toPdfItem (revalidate item) = toPdfItem item /\
  PromobItem.id (revalidate item) = PromobItem.id item.
Proof.
  unfold revalidate, passes.
  destruct (Zod.safeParse (PdfItemSchema (toPdfItem item))); destruct (blankClient item);
    repeat split.
Qed.

Lemma promobWrite_revalidate (ws : string) (item : PromobItem.t) :
  promobWrite ws (revalidate item) = promobWrite ws item.
Proof.
  unfold revalidate, promobWrite, promobPiece.
  destruct (Zod.safeParse (PdfItemSchema (toPdfItem item))); destruct (blankClient item);
    reflexivity.
Qed.

Lemma filter_all {A} (f : A -> bool) (l : list A) :
  forallb f l = true -> List.filter f l = l /\ List.filter (fun x => negb (f x)) l = [].
Proof.
  induction l as [|x l IH]; [split; reflexivity|].
  cbn. intros [Hx Hl]%andb_true_iff. rewrite Hx. cbn.
  destruct (IH Hl) as [-> ->]. split; reflexivity.
Qed.

Lemma filter_some {A} (f : A -> bool) (l : list A) :
  forallb f l = false -> List.filter (fun x => negb (f x)) l <> [].
Proof.
  induction l as [|x l IH]; [discriminate|].
  cbn. destruct (f x); cbn; [exact IH|discriminate].
Qed.

Lemma forallb_revalidate (items : list PromobItem.t) :
  forallb PromobItem.isValid (map revalidate items) = forallb passes items.
Proof.
  induction items as [|x l IH]; [reflexivity|].
  cbn. rewrite IH. destruct (revalidate_verdict x) as [-> _]. reflexivity.
Qed.

(** X17. [savePromobData] judges every item afresh, by the schema and by the
    presence of a client name; the verdict and the messages the item carried
    (the duplicate flag among them) play no part.  When every item passes,
    the batch is built and holds one piece write per item whose code has a
    letter or a digit, under the id made of that normalised code; an item
    whose code has none is skipped without a message. *)
Theorem save_judges_items_afresh
    (ws : string) (st : PdfState) (now : string) :
  isProcessingPdf st = false ->
  promobItems st <> [] ->
  forallb passes (promobItems st) = true ->
  let start := savePromobData_begin ws st now in
  saveAlert start = None /\
  isProcessingPdf (saveState start) = true /\
  exists batch,
    saveBatch start = Some batch /\
    pieceWrites batch = flat_map (promobWrite ws) (promobItems st).
Proof.
  intros Hidle Hne Hall. unfold savePromobData_begin. rewrite Hidle.
  rewrite <- forallb_revalidate in Hall. destruct (filter_all _ _ Hall) as [Hv Hi].
  rewrite Hi, Hv. cbn [length Nat.ltb Nat.leb].
  destruct (map revalidate (promobItems st)) as [|x l] eqn:E.
  - destruct (promobItems st); [congruence|discriminate E].
  - cbn [saveAlert saveState saveBatch isProcessingPdf].
    split; [reflexivity|]. split; [reflexivity|].
    eexists. split; [reflexivity|].
    rewrite pieceWrites_promobBatch, <- E.
    induction (promobItems st) as [|y ys IH]; [reflexivity|].
    cbn [map flat_map]. rewrite promobWrite_revalidate. f_equal.
    clear -ys. induction ys as [|z zs IHz]; [reflexivity|].
    cbn [map flat_map]. rewrite promobWrite_revalidate, IHz. reflexivity.
Qed.

Lemma save_judges_items_afresh_witness :
  PromobItem.isValid flaggedDoor = false /\
  exists batch,
    saveBatch (savePromobData_begin "ws" (mkPdfState None [flaggedDoor] false
                                            (ImportStatus.mk None EmptyString) []) "t0")
    = Some batch /\
    pieceWrites batch = promobWrite "ws" flaggedDoor ++ [].
Proof.
  split; [reflexivity|].
  destruct (save_judges_items_afresh "ws"
              (mkPdfState None [flaggedDoor] false (ImportStatus.mk None EmptyString) []) "t0")
    as (_ & _ & batch & H1 & H2).
  - reflexivity.
  - discriminate.
  - vm_compute. reflexivity.
  - exists batch. split; [exact H1|exact H2].
Defined.

(** X18. When at least one item fails the final validation, nothing is
    written at all: no batch is built, the store is as before, an alert
    is shown, the guard is released, and the grid shows every item with its
    fresh verdict. *)
Theorem save_is_all_or_nothing
    (ws : string) (s : Store) (st : PdfState) (now : string) (ok : bool) :
  isProcessingPdf st = false ->
  forallb passes (promobItems st) = false ->
  let start := savePromobData_begin ws st now in
  saveBatch start = None /\
  saveAlert start <> None /\
  isProcessingPdf (saveState start) = false /\
  promobItems (saveState start) = map revalidate (promobItems st) /\
  savePromobData ws s st now ok = (s, saveState start).
Proof.
  intros Hidle Hsome. cbn zeta. unfold savePromobData, savePromobData_begin.
  rewrite Hidle. rewrite <- forallb_revalidate in Hsome.
  pose proof (filter_some _ _ Hsome) as Hne.
  destruct (List.filter _ (map revalidate (promobItems st))) as [|x l]; [congruence|].
  cbn [length Nat.ltb Nat.leb saveBatch saveAlert saveState isProcessingPdf promobItems].
  repeat split. discriminate.
Qed.

Lemma save_is_all_or_nothing_witness :
  saveBatch (savePromobData_begin "ws"
               (mkPdfState None [flaggedDoor; shortCodeItem] false
                  (ImportStatus.mk None EmptyString) []) "t0")
  = None.
Proof.
  apply (save_is_all_or_nothing "ws" (mkStore ∅ ∅)
           (mkPdfState None [flaggedDoor; shortCodeItem] false
              (ImportStatus.mk None EmptyString) []) "t0" true).
  - reflexivity.
  - vm_compute. reflexivity.
Defined.

Lemma editItem_keeps (item : PromobItem.t) (field : ItemField) (value e : string) :
  In e (PromobItem.errors item) ->
  isLegacyClientError e = false ->
  In e (PromobItem.errors (editItem item field value)) /\
  PromobItem.isValid (editItem item field value) = false.
Proof.
  intros Hin Hleg. unfold editItem. cbn [PromobItem.errors PromobItem.isValid].
  set (kept := List.filter _ (PromobItem.errors item)).
  assert (Hk : In e kept) by (apply filter_In; split; [exact Hin|rewrite Hleg; reflexivity]).
  assert (H : forall l, In e l -> match l with [] => true | _ => false end = false)
    by (intros [|x l] Hl; [destruct Hl|reflexivity]).
  destruct field; try (split; [exact Hk|apply H, Hk]).
  destruct (Zod.safeParse (ClientNameSchema [] value)) as [d|[|issue issues]];
    try (split; [exact Hk|apply H, Hk]).
  assert (Hk' : In e (kept ++ [Zod.message issue])) by (apply in_or_app; left; exact Hk).
  split; [exact Hk'|apply H, Hk'].
Qed.

(** X19. Editing an item in the review grid removes only the two legacy
    client-name messages: any other message the item carries, such as the
    one that its code already exists, survives every series of edits, and
    the item stays marked invalid in the grid. *)
Theorem edits_never_clear_other_messages
    (item : PromobItem.t) (edits : list (ItemField * string)) (e : string) :
  In e (PromobItem.errors item) ->
  isLegacyClientError e = false ->
  In e (PromobItem.errors (editMany item edits)) /\
  (edits <> [] -> PromobItem.isValid (editMany item edits) = false).
Proof.
  unfold editMany. revert item.
  induction edits as [|[f v] edits IH]; intros item Hin Hleg.
  - split; [exact Hin|congruence].
  - cbn [fold_left fst snd].
    destruct (editItem_keeps item f v e Hin Hleg) as [Hin' Hinv].
    destruct (IH (editItem item f v) Hin' Hleg) as [H1 H2].
    split; [exact H1|]. intros _.
    destruct edits as [|x xs]; [exact Hinv|]. apply H2. discriminate.
Qed.

Lemma edits_never_clear_other_messages_witness :
  In duplicateMessage
     (PromobItem.errors (editMany flaggedDoor [(FCliente, "Beta"); (FPeca, "Shelf")])).
Proof.
  apply (edits_never_clear_other_messages flaggedDoor
           [(FCliente, "Beta"); (FPeca, "Shelf")] duplicateMessage).
  - vm_compute. left. reflexivity.
  - reflexivity.
Defined.

(** ** The free-text sanitiser *)

Section SanitizeFacts.
Import Sanitize.

Lemma stripTags_notLt (inTag : bool) (s : string) :
  Js.allChars notLt (stripTags inTag s) = true.
Proof.
  revert inTag. induction s as [|c s IH]; intros inTag; [reflexivity|].
  cbn [stripTags]. destruct inTag.
  - destruct (Js.code c =? 62)%N; apply IH.
  - destruct (Js.code c =? 60)%N eqn:E; [apply IH|].
    cbn [Js.allChars]. unfold notLt at 1. rewrite E, IH. reflexivity.
Qed.

Lemma removeCI_allChars p (pat : string) (skip : nat) (s : string) :
  Js.allChars p s = true -> Js.allChars p (removeCI pat skip s) = true.
Proof.
  revert skip. induction s as [|c s IH]; intros skip H; [reflexivity|].
  cbn [Js.allChars] in H. apply andb_true_iff in H as [Hc Hs].
  cbn [removeCI]. destruct skip; [|apply IH, Hs].
  destruct (startsWithCI pat (String c s)); [apply IH, Hs|].
  cbn [Js.allChars]. rewrite Hc, (IH 0 Hs). reflexivity.
Qed.

Lemma removeOnHandlers_allChars p (skip : nat) (s : string) :
  Js.allChars p s = true -> Js.allChars p (removeOnHandlers skip s) = true.
Proof.
  revert skip. induction s as [|c s IH]; intros skip H; [reflexivity|].
  cbn [Js.allChars] in H. apply andb_true_iff in H as [Hc Hs].
  cbn [removeOnHandlers]. destruct skip; [|apply IH, Hs].
  destruct (onHandlerAt (String c s)); [apply IH, Hs|].
  cbn [Js.allChars]. rewrite Hc, (IH 0 Hs). reflexivity.
Qed.

Lemma keep_allChars p q (s : string) :
  Js.allChars q s = true -> Js.allChars q (Js.keep p s) = true.
Proof.
  induction s as [|c s IH]; [reflexivity|].
  cbn [Js.allChars Js.keep]. intros [Hc Hs]%andb_true_iff.
  destruct (p c); [cbn [Js.allChars]; rewrite Hc|]; auto.
Qed.

Lemma alnum_facts (c : ascii) :
  isAlnum c = true ->
  notLt c = true /\ notControl c = true /\ Js.isWhiteSpace c = false /\
  isWord c = true /\ (Js.code c =? 61)%N = false /\
  Ascii.eqb (lowerChar c) ":" = false.
Proof.
  destruct c as [[] [] [] [] [] [] [] []]; vm_compute; intros H;
    first [discriminate H | repeat split].
Qed.

Lemma stripTags_fixed (s : string) :
  Js.allChars notLt s = true -> stripTags false s = s.
Proof.
  induction s as [|c s IH]; [reflexivity|].
  cbn [Js.allChars stripTags]. intros [Hc Hs]%andb_true_iff.
  unfold notLt in Hc. apply negb_true_iff in Hc. rewrite Hc, (IH Hs). reflexivity.
Qed.

Lemma startsWithCI_colon (pre s : string) :
  Js.allChars isAlnum s = true -> startsWithCI (pre +:+ ":") s = false.
Proof.
  revert s. induction pre as [|p pre IH]; intros [|c s] H; try reflexivity.
  - cbn [Js.allChars] in H. apply andb_true_iff in H as [Hc _].
    change (startsWithCI ("" +:+ ":") (String c s))
      with (Ascii.eqb (lowerChar c) ":" && true).
    destruct (alnum_facts c Hc) as (_ & _ & _ & _ & _ & ->). reflexivity.
  - cbn [Js.allChars] in H. apply andb_true_iff in H as [_ Hs].
    change (startsWithCI (String p pre +:+ ":") (String c s))
      with (Ascii.eqb (lowerChar c) p && startsWithCI (pre +:+ ":") s).
    rewrite (IH s Hs). apply andb_false_r.
Qed.

Lemma removeCI_fixed (s : string) :
  Js.allChars isAlnum s = true -> removeCI "javascript:" 0 s = s.
Proof.
  induction s as [|c s IH]; [reflexivity|]. intros H.
  cbn [removeCI].
  change "javascript:" with ("javascript" +:+ ":") at 1.
  rewrite (startsWithCI_colon "javascript" (String c s) H).
  cbn [Js.allChars] in H. apply andb_true_iff in H as [_ Hs].
  rewrite (IH Hs). reflexivity.
Qed.

Lemma wordsThenEquals_alnum (s : string) :
  Js.allChars isAlnum s = true -> wordsThenEquals s = None.
Proof.
  induction s as [|c s IH]; [reflexivity|].
  cbn [Js.allChars wordsThenEquals]. intros [Hc Hs]%andb_true_iff.
  destruct (alnum_facts c Hc) as (_ & _ & _ & -> & _). rewrite (IH Hs). reflexivity.
Qed.

Lemma removeOnHandlers_fixed (s : string) :
  Js.allChars isAlnum s = true -> removeOnHandlers 0 s = s.
Proof.
  induction s as [|c s IH]; [reflexivity|]. intros H.
  cbn [removeOnHandlers].
  assert (Hno : onHandlerAt (String c s) = None).
  { unfold onHandlerAt. destruct s as [|n r]; [reflexivity|].
    cbn [Js.allChars] in H. apply andb_true_iff in H as [_ H].
    apply andb_true_iff in H as [_ Hr].
    rewrite (wordsThenEquals_alnum r Hr). destruct (_ && _); reflexivity. }
  rewrite Hno. cbn [Js.allChars] in H. apply andb_true_iff in H as [_ Hs].
  rewrite (IH Hs). reflexivity.
Qed.

End SanitizeFacts.

(** X20. Whatever the input, the sanitised text has at most 500
    characters, contains no [<] and no control character (codes 0 to 31 and
    127), and has no white space at either end. *)
Theorem sanitizeInput_output_is_clean (input : string) :
  let out := Sanitize.sanitizeInput input in
  String.length out <= 500 /\
  Js.allChars notLt out = true /\
  Js.allChars notControl out = true /\
  Js.trim out = out.
Proof.
  cbn zeta. unfold Sanitize.sanitizeInput.
  set (t := Sanitize.removeOnHandlers 0 _).
  assert (Ht : Js.allChars notLt t = true)
    by (apply removeOnHandlers_allChars, removeCI_allChars, stripTags_notLt).
  split; [|split; [|split]].
  - pose proof (trim_length (Js.substring0 500 (Js.keep (fun c => negb (Sanitize.isControl c)) t))).
    pose proof (substring0_length 500 (Js.keep (fun c => negb (Sanitize.isControl c)) t)).
    lia.
  - apply allChars_trim, allChars_substring0, keep_allChars, Ht.
  - apply allChars_trim, allChars_substring0. apply (allChars_keep notControl).
  - apply trim_idempotent.
Qed.

(** X21. A text of letters and digits only, of at most 500 characters, is
    returned as it was typed. *)
Theorem sanitizeInput_keeps_plain_words (input : string) :
  Js.allChars isAlnum input = true ->
  String.length input <= 500 ->
  Sanitize.sanitizeInput input = input.
Proof.
  intros Ha Hlen. unfold Sanitize.sanitizeInput.
  rewrite stripTags_fixed
    by (apply (allChars_impl isAlnum); [intros c Hc; apply (alnum_facts c Hc)|exact Ha]).
  rewrite (removeCI_fixed input Ha), (removeOnHandlers_fixed input Ha).
  rewrite keep_fixed
    by (apply (allChars_impl isAlnum); [intros c Hc; apply (alnum_facts c Hc)|exact Ha]).
  rewrite substring0_fixed by exact Hlen.
  apply trim_fixed. apply (allChars_impl isAlnum); [|exact Ha].
  intros c Hc. destruct (alnum_facts c Hc) as (_ & _ & -> & _). reflexivity.
Qed.

Lemma sanitizeInput_keeps_plain_words_witness :
  Sanitize.sanitizeInput "onclick2024" = "onclick2024".
Proof.
  apply sanitizeInput_keeps_plain_words; [reflexivity|]. vm_compute. lia.
Defined.

(** ** Deleting a client *)

Lemma applyDeletions_pieces (batch : list Deletion) (d : Db) (k : string) :
  pieces (dbStore (applyDeletions d batch)) !! k =
  if deletesPiece k batch then None else pieces (dbStore d) !! k.
Proof.
  revert d. induction batch as [|x batch IH]; intros d; [reflexivity|].
  change (applyDeletions d (x :: batch)) with (applyDeletions (applyDeletion d x) batch).
  rewrite IH. unfold deletesPiece. cbn [existsb]. fold (deletesPiece k batch).
  destruct (deletesPiece k batch); [rewrite orb_true_r; reflexivity|].
  rewrite orb_false_r. destruct x as [id|id|id]; cbn [applyDeletion dbStore pieces];
    try reflexivity.
  destruct (String.eqb_spec id k) as [->|Hne].
  - apply lookup_delete_eq.
  - apply lookup_delete_ne, Hne.
Qed.

Lemma applyDeletions_projects (batch : list Deletion) (d : Db) (k : string) :
  projects (dbStore (applyDeletions d batch)) !! k =
  if deletesProject k batch then None else projects (dbStore d) !! k.
Proof.
  revert d. induction batch as [|x batch IH]; intros d; [reflexivity|].
  change (applyDeletions d (x :: batch)) with (applyDeletions (applyDeletion d x) batch).
  rewrite IH. unfold deletesProject. cbn [existsb]. fold (deletesProject k batch).
  destruct (deletesProject k batch); [rewrite orb_true_r; reflexivity|].
  rewrite orb_false_r. destruct x as [id|id|id]; cbn [applyDeletion dbStore projects];
    try reflexivity.
  destruct (String.eqb_spec id k) as [->|Hne].
  - apply lookup_delete_eq.
  - apply lookup_delete_ne, Hne.
Qed.

Lemma applyDeletions_volumes (batch : list Deletion) (d : Db) (k : string) :
  dbVolumes (applyDeletions d batch) !! k =
  if deletesVolume k batch then None else dbVolumes d !! k.
Proof.
  revert d. induction batch as [|x batch IH]; intros d; [reflexivity|].
  change (applyDeletions d (x :: batch)) with (applyDeletions (applyDeletion d x) batch).
  rewrite IH. unfold deletesVolume. cbn [existsb]. fold (deletesVolume k batch).
  destruct (deletesVolume k batch); [rewrite orb_true_r; reflexivity|].
  rewrite orb_false_r. destruct x as [id|id|id]; cbn [applyDeletion dbVolumes];
    try reflexivity.
  destruct (String.eqb_spec id k) as [->|Hne].
  - apply lookup_delete_eq.
  - apply lookup_delete_ne, Hne.
Qed.

Lemma existsb_map {A B} (f : A -> B) (p : B -> bool) (l : list A) :
  existsb p (map f l) = existsb (fun x => p (f x)) l.
Proof. induction l as [|x l IH]; [reflexivity|]. cbn. rewrite IH. reflexivity. Qed.

Lemma existsb_none {A} (p : A -> bool) (l : list A) :
  (forall x, p x = false) -> existsb p l = false.
Proof. intros H. induction l as [|x l IH]; [reflexivity|]. cbn. rewrite H, IH. reflexivity. Qed.

Section DeletionBatch.

Variables (pcs : list Piece.t) (vols : list Volume.t) (projs : list Project.t).

Let batch : list Deletion :=
  map (fun p => DeletePiece (Piece.id p)) pcs
  ++ map (fun v => DeleteVolume (Volume.id v)) vols
  ++ map (fun p => DeleteProject (Project.id p)) projs.

Lemma batch_deletesPiece (k : string) :
  deletesPiece k batch = existsb (fun p => String.eqb (Piece.id p) k) pcs.
Proof.
  unfold deletesPiece, batch. rewrite !existsb_app, !existsb_map.
  rewrite (existsb_none _ vols), (existsb_none _ projs) by reflexivity.
  rewrite !orb_false_r. reflexivity.
Qed.

Lemma batch_deletesVolume (k : string) :
  deletesVolume k batch = existsb (fun v => String.eqb (Volume.id v) k) vols.
Proof.
  unfold deletesVolume, batch. rewrite !existsb_app, !existsb_map.
  rewrite (existsb_none _ pcs), (existsb_none _ projs) by reflexivity.
  rewrite orb_false_r. reflexivity.
Qed.

Lemma batch_deletesProject (k : string) :
  deletesProject k batch = existsb (fun p => String.eqb (Project.id p) k) projs.
Proof.
  unfold deletesProject, batch. rewrite !existsb_app, !existsb_map.
  rewrite (existsb_none _ pcs), (existsb_none _ vols) by reflexivity.
  reflexivity.
Qed.

End DeletionBatch.

(** X22. When a MASTER user deletes a client that has a project in the
    workspace and the batch commits, a document is gone exactly when it is
    one of the loaded documents selected for that client: the pieces of the
    workspace carrying the client's name, the client's projects, and the
    volumes of the workspace attached to those projects.  Every other
    document of the three collections is left as it was. *)
Theorem client_deletion_removes_only_the_selected_documents
    (ws : string) (d : Db) (l : Loaded) (role clientName : string) :
  role = "MASTER" ->
  clientProjectsOf ws l clientName <> [] ->
  let d' := deleteClient ws d l role (Some clientName) false true in
  (forall k, pieces (dbStore d') !! k =
             if existsb (fun p => String.eqb (Piece.id p) k) (clientPiecesOf ws l clientName)
             then None else pieces (dbStore d) !! k) /\
  (forall k, projects (dbStore d') !! k =
             if existsb (fun p => String.eqb (Project.id p) k)
                        (clientProjectsOf ws l clientName)
             then None else projects (dbStore d) !! k) /\
  (forall k, dbVolumes d' !! k =
             if existsb (fun v => String.eqb (Volume.id v) k)
                        (clientVolumesOf ws l clientName)
             then None else dbVolumes d !! k).
Proof.
  intros -> Hne. cbn zeta. unfold deleteClient, executeClientDeletion.
  change (negb ("MASTER" =? "MASTER")%string) with false. cbn iota.
  destruct (clientProjectsOf ws l clientName) as [|p0 ps] eqn:Ep; [congruence|].
  rewrite <- Ep. repeat split; intros k.
  - rewrite applyDeletions_pieces, batch_deletesPiece. reflexivity.
  - rewrite applyDeletions_projects, batch_deletesProject. reflexivity.
  - rewrite applyDeletions_volumes, batch_deletesVolume. reflexivity.
Qed.

Lemma client_deletion_removes_only_the_selected_documents_witness :
  clientProjectsOf "ws" acmeLoaded "Acme" <> [] /\
  pieces (dbStore (deleteClient "ws" acmeDb acmeLoaded "MASTER" (Some "Acme") false true))
    !! "ws_BC123" = None.
Proof.
  split; [discriminate|].
  destruct (client_deletion_removes_only_the_selected_documents
              "ws" acmeDb acmeLoaded "MASTER" "Acme") as (Hp & _ & _);
    [reflexivity | discriminate |].
  rewrite Hp. reflexivity.
Defined.

(** X23. A client deletion leaves the database as it was unless the user
    is a MASTER, no deletion is already running, a client is selected, that
    client has at least one loaded project in the workspace, and the batch
    commits. *)
Theorem client_deletion_changes_nothing_unless_authorised
    (ws : string) (d : Db) (l : Loaded) (role : string)
    (clientToDelete : option string) (isDeleting ok : bool) :
  deleteClient ws d l role clientToDelete isDeleting ok = d \/
  (role = "MASTER" /\ isDeleting = false /\ ok = true /\
   exists clientName, clientToDelete = Some clientName /\
                      clientProjectsOf ws l clientName <> []).
Proof.
  unfold deleteClient, executeClientDeletion.
  destruct clientToDelete as [clientName|]; [|left; reflexivity].
  destruct isDeleting; [left; reflexivity|].
  destruct (String.eqb_spec role "MASTER") as [->|Hr]; [|left; reflexivity].
  cbn [negb]. destruct (clientProjectsOf ws l clientName) as [|p0 ps] eqn:Ep;
    [left; reflexivity|].
  destruct ok; [|left; reflexivity].
  right. repeat split. exists clientName. split; [reflexivity|]. rewrite Ep. discriminate.
Qed.

(** ** Loading volumes *)

Section SaidaFacts.
Import Saida.

Variables (ws : string) (l : Loaded).

Lemma clientProjects_open (sel : string) (p : Project.t) :
  In p (clientProjects ws l sel) -> In p (loadedProjects l) /\ openProjectOf ws sel p.
Proof.
  unfold clientProjects. destruct (String.eqb sel ""); [intros []|].
  intros [Hin Hp]%filter_In.
  apply andb_true_iff in Hp as [Hp Ho]. apply andb_true_iff in Hp as [Hd Hw].
  split; [exact Hin|]. unfold openProjectOf.
  apply String.eqb_eq in Hd, Hw. repeat split; try assumption.
  unfold inProgress in Ho. apply orb_true_iff in Ho as [Ho|Ho];
    apply String.eqb_eq in Ho; auto.
Qed.

Lemma clientVolumes_of_open_project (sel : string) (v : Volume.t) :
  In v (clientVolumes ws l sel) ->
  In v (loadedVolumes l) /\ Volume.workspaceId v = ws /\
  exists p, In p (loadedProjects l) /\ openProjectOf ws sel p /\
            Project.id p = Volume.projectId v.
Proof.
  unfold clientVolumes. destruct (_ || _); [intros []|].
  intros [Hin Hp]%filter_In. apply andb_true_iff in Hp as [He Hw].
  apply String.eqb_eq in Hw. split; [exact Hin|]. split; [exact Hw|].
  apply existsb_exists in He as (i & Hi & Heq). apply String.eqb_eq in Heq.
  apply in_map_iff in Hi as (p & <- & Hp).
  destruct (clientProjects_open sel p Hp) as [Hlp Hop].
  exists p. repeat split; try apply Hop; auto.
Qed.

Lemma find_In {A} (f : A -> bool) (xs : list A) (x : A) :
  List.find f xs = Some x -> In x xs /\ f x = true.
Proof. apply find_some. Qed.

End SaidaFacts.

(** X24. A volume scan never touches pieces or projects and neither
    creates nor removes a volume document; every stored volume keeps its
    id, workspace, project, index, total and barcode, and a volume that was
    loaded stays loaded. *)
Theorem volume_scan_never_unloads
    (ws : string) (l : Loaded) (users : list User.t) (d : Db) (ui : Saida.Ui)
    (now : string) (updateDocOk : bool) (barcode : string) :
  let d' := fst (Saida.handleScanVolume ws l users d ui now updateDocOk barcode) in
  dbStore d' = dbStore d /\
  forall k, match dbVolumes d !! k, dbVolumes d' !! k with
            | Some v, Some v' => loadedFrom v v'
            | None, None => True
            | _, _ => False
            end.
Proof.
  cbn zeta.
  assert (Hsame : forall k, match dbVolumes d !! k, dbVolumes d !! k with
                            | Some v, Some v' => loadedFrom v v'
                            | None, None => True
                            | _, _ => False
                            end).
  { intros k. destruct (dbVolumes d !! k); [|exact I]. unfold loadedFrom. tauto. }
  unfold Saida.handleScanVolume.
  destruct (List.find _ _) as [volume|]; [|split; [reflexivity|exact Hsame]].
  destruct (Volume.loaded volume); [split; [reflexivity|exact Hsame]|].
  destruct (dbVolumes d !! Volume.id volume) as [stored|] eqn:Es;
    [|split; [reflexivity|exact Hsame]].
  destruct updateDocOk; [|split; [reflexivity|exact Hsame]].
  cbn [fst dbStore dbVolumes]. split; [reflexivity|]. intros k.
  destruct (decide (Volume.id volume = k)) as [<-|Hne].
  - rewrite Es, lookup_insert_eq. unfold loadedFrom. cbn. tauto.
  - rewrite lookup_insert_ne by exact Hne. apply Hsame.
Qed.

(** X25. When a volume scan changes the database, the scanned code is the
    barcode of a listed volume of the workspace that was not yet loaded and
    that is attached to a project of the selected client which is still in
    production or being loaded; the scan answers with a success message. *)
Theorem volume_scan_writes_only_for_the_selected_client
    (ws : string) (l : Loaded) (users : list User.t) (d : Db) (ui : Saida.Ui)
    (now : string) (updateDocOk : bool) (barcode : string) :
  fst (Saida.handleScanVolume ws l users d ui now updateDocOk barcode) <> d ->
  (exists v p,
     In v (loadedVolumes l) /\ Volume.barcode v = barcode /\ Volume.loaded v = false /\
     Volume.workspaceId v = ws /\
     In p (loadedProjects l) /\ Project.id p = Volume.projectId v /\
     openProjectOf ws (Saida.selClient ui) p) /\
  option_map VolumeMsg.type
    (Saida.lastScanMsg (snd (Saida.handleScanVolume ws l users d ui now updateDocOk barcode)))
  = Some success.
Proof.
  unfold Saida.handleScanVolume.
  destruct (List.find _ _) as [volume|] eqn:Ef; [|intros H; contradiction H; reflexivity].
  destruct (Volume.loaded volume) eqn:El; [intros H; contradiction H; reflexivity|].
  destruct (dbVolumes d !! Volume.id volume) as [stored|];
    [|intros H; contradiction H; reflexivity].
  destruct updateDocOk; [|intros H; contradiction H; reflexivity].
  intros _. split; [|reflexivity].
  apply find_In in Ef as [Hin Hb]. apply String.eqb_eq in Hb.
  destruct (clientVolumes_of_open_project ws l _ volume Hin) as (Hlv & Hw & p & Hp & Hop & Hid).
  exists volume, p. repeat split; try apply Hop; auto.
Qed.

Lemma volume_scan_writes_only_for_the_selected_client_witness :
  option_map VolumeMsg.type
    (Saida.lastScanMsg
       (snd (Saida.handleScanVolume "ws" (acmeYard false) [] acmeYardDb
               (Saida.mkUi "C001 - Acme" "ACME_V1" None false) "t1" true "ACME_V1")))
  = Some success.
Proof.
  apply (volume_scan_writes_only_for_the_selected_client
           "ws" (acmeYard false) [] acmeYardDb
           (Saida.mkUi "C001 - Acme" "ACME_V1" None false) "t1" true "ACME_V1").
  vm_compute. discriminate.
Defined.

(** X26. The confirmation of a finished load opens only when a client with
    a project in progress is selected, every listed volume of the workspace
    attached to one of that client's projects in progress is loaded, and
    the workspace has at least one listed piece whose project name is that
    of such a project, all of them produced.  Otherwise an alert is raised
    and the state is left as it was. *)
Theorem finalize_opens_only_when_all_is_loaded_and_produced
    (ws : string) (l : Loaded) (ui : Saida.Ui) :
  let r := Saida.handleFinalizeLoad ws l ui in
  (fst r <> None /\ snd r = ui) \/
  (fst r = None /\
   Saida.showFinalizeModal (snd r) = true /\
   Saida.selClient (snd r) = Saida.selClient ui /\
   Saida.clientProjects ws l (Saida.selClient ui) <> [] /\
   (forall v p, In v (loadedVolumes l) -> Volume.workspaceId v = ws ->
                In p (Saida.clientProjects ws l (Saida.selClient ui)) ->
                Volume.projectId v = Project.id p ->
                Volume.loaded v = true) /\
   (exists q, In q (loadedPieces l) /\ Piece.workspaceId q = ws /\
              In (Piece.projeto q)
                 (map Project.project_name (Saida.clientProjects ws l (Saida.selClient ui)))) /\
   (forall q, In q (loadedPieces l) -> Piece.workspaceId q = ws ->
              In (Piece.projeto q)
                 (map Project.project_name (Saida.clientProjects ws l (Saida.selClient ui))) ->
              Piece.status q = PRODUZIDA)).
Proof.
  cbn zeta. unfold Saida.handleFinalizeLoad.
  set (sel := Saida.selClient ui).
  destruct (String.eqb sel "" || (length (Saida.clientProjects ws l sel) =? 0)) eqn:Eg;
    [left; split; [discriminate|reflexivity]|].
  destruct (0 <? length (Saida.pendingVolumes ws l sel)) eqn:Epv;
    [left; split; [discriminate|reflexivity]|].
  destruct (Saida.allPiecesProduced ws l sel) eqn:Eap;
    [|left; split; [discriminate|reflexivity]].
  right. cbn [negb fst snd Saida.showFinalizeModal Saida.selClient].
  apply orb_false_iff in Eg as [Esel Elen].
  apply Nat.eqb_neq in Elen. apply Nat.ltb_ge in Epv.
  assert (Hpend : Saida.pendingVolumes ws l sel = [])
    by (destruct (Saida.pendingVolumes ws l sel); [reflexivity|cbn in Epv; lia]).
  split; [reflexivity|]. split; [reflexivity|]. split; [reflexivity|].
  split; [intros E; rewrite E in Elen; apply Elen; reflexivity|].
  split; [|].
  - intros v p Hv Hw Hp Hid.
    destruct (Volume.loaded v) eqn:Elv; [reflexivity|exfalso].
    assert (Hin : In v (Saida.pendingVolumes ws l sel)).
    { unfold Saida.pendingVolumes. apply filter_In. rewrite Elv. split; [|reflexivity].
      unfold Saida.clientVolumes. rewrite Esel.
      destruct (length (Saida.clientProjects ws l sel) =? 0) eqn:E0;
        [apply Nat.eqb_eq in E0; contradiction|].
      cbn [orb]. apply filter_In. split; [exact Hv|].
      apply andb_true_iff. split; [|apply String.eqb_eq, Hw].
      apply existsb_exists. exists (Project.id p). split.
      - apply in_map, Hp.
      - apply String.eqb_eq, Hid. }
    rewrite Hpend in Hin. exact Hin.
  - unfold Saida.allPiecesProduced in Eap. rewrite Esel in Eap.
    destruct (length (Saida.clientProjects ws l sel) =? 0) eqn:E0;
      [apply Nat.eqb_eq in E0; contradiction|].
    cbn [orb] in Eap. cbn zeta in Eap.
    apply andb_true_iff in Eap as [Hpos Hall].
    apply Nat.ltb_lt in Hpos. rewrite forallb_forall in Hall.
    assert (Hmem : forall q, In q (loadedPieces l) -> Piece.workspaceId q = ws ->
                   In (Piece.projeto q)
                      (map Project.project_name (Saida.clientProjects ws l sel)) ->
                   In q (List.filter
                           (fun p => existsb (String.eqb (Piece.projeto p))
                                       (map Project.project_name
                                            (Saida.clientProjects ws l sel)) &&
                                     String.eqb (Piece.workspaceId p) ws)
                           (loadedPieces l))).
    { intros q Hq Hw Hn. apply filter_In. split; [exact Hq|].
      apply andb_true_iff. split; [|apply String.eqb_eq, Hw].
      apply existsb_exists. exists (Piece.projeto q). split; [exact Hn|].
      apply String.eqb_refl. }
    split.
    + destruct (List.filter _ (loadedPieces l)) as [|q qs] eqn:Ef; [cbn in Hpos; lia|].
      assert (Hq : In q (q :: qs)) by (left; reflexivity).
      rewrite <- Ef in Hq. apply filter_In in Hq as [Hq Hc].
      apply andb_true_iff in Hc as [Hn Hw]. apply String.eqb_eq in Hw.
      apply existsb_exists in Hn as (n & Hn & Heq). apply String.eqb_eq in Heq.
      exists q. repeat split; auto. rewrite Heq. exact Hn.
    + intros q Hq Hw Hn. specialize (Hall q (Hmem q Hq Hw Hn)).
      unfold Saida.isProduced in Hall. destruct (Piece.status q); [discriminate|reflexivity].
Qed.
